(** * The chat client of the appliance-parts assistant

    A shallow embedding of the JavaScript sources of the React client
    (the two generations of [api.js], the chat-history helpers and
    [ChatWindow.js]) together with the properties the specification
    states about them.

    Layout: part I holds the embedding (values of the host language, then
    one module per source file); part II holds the theorems. *)

From Stdlib Require Import ZArith String Ascii List Bool Lia.
From stdpp Require Import base tactics option list strings gmap pretty sorting.

#[local] Set Warnings "-register-all,-clear-no-such-hyp".

(** ** Part I. The embedding *)

(** *** JavaScript values

    The client shuffles untyped data around: messages, sessions and
    product payloads are plain objects, most of them read back from JSON
    text.  They are modelled by one type of values.

    - A number is represented by the text [Number.prototype.toString]
      prints for it ([12.5], [0], [NaN], [Infinity]).  That text
      determines the number up to the sign of zero, which none of the
      operations below can observe.
    - A string is a byte string (the UTF-8 form of the JavaScript string).
    - An object is the list of its own properties in enumeration order;
      the first binding of a key is the one that counts. *)
Module JS.

Inductive jsval : Type :=
| JUndefined
| JNull
| JBool (b : bool)
| JNum (repr : string)
| JStr (s : string)
| JArr (items : list jsval)
| JObj (fields : list (string * jsval)).

(** What the engine was doing when it raised a [TypeError]: reading
    the property [key] of [null] or [undefined], calling a method the
    value does not have, spreading a value that cannot be iterated, or
    converting an object that has no usable [toString]. *)
Inductive failure : Type :=
| Reading (v : jsval) (key : string)
| Calling (v : jsval) (method : string)
| Spreading (v : jsval)
| Converting (v : jsval).

(** What a [throw] carries.  [TypeError] is the error raised by the engine
    itself, with what it was doing; [SyntaxError] is the error of
    [JSON.parse]; [Error message] is an [Error] object, or a rejection
    reason, with that [message]. *)
Inductive thrown : Type :=
| TypeError (what : failure)
| SyntaxError
| Error (message : string).

(** [v.method(...)] where [v] has no such method: on [null] and
    [undefined] the read of the property fails, on any other value the
    call. *)
Definition no_method (v : jsval) (method : string) : thrown :=
  match v with
  | JUndefined | JNull => TypeError (Reading v method)
  | _ => TypeError (Calling v method)
  end.

(** A computation that returns or throws. *)
Inductive result (A : Type) : Type :=
| Ok (a : A)
| Throw (e : thrown).
Arguments Ok {A} a.
Arguments Throw {A} e.

#[global] Instance result_ret : MRet result := fun A a => Ok a.
#[global] Instance result_bind : MBind result := fun A B f m =>
  match m with
  | Ok a => f a
  | Throw e => Throw e
  end.
#[global] Instance result_fmap : FMap result := fun A B f m =>
  match m with
  | Ok a => Ok (f a)
  | Throw e => Throw e
  end.

(** [try { body } catch (error) { handler }] *)
Definition try_catch {A} (body : result A) (handler : thrown -> result A) : result A :=
  match body with
  | Ok a => Ok a
  | Throw e => handler e
  end.

(** [ToBoolean]: the falsy values are [undefined], [null], [false], [0],
    [NaN] and the empty string. *)
Definition truthy (v : jsval) : bool :=
  match v with
  | JUndefined | JNull => false
  | JBool b => b
  | JNum repr => negb (String.eqb repr "0" || String.eqb repr "NaN")
  | JStr s => negb (String.eqb s "")
  | JArr _ | JObj _ => true
  end.

(** [a || b] on values. *)
Definition or_else (a b : jsval) : jsval := if truthy a then a else b.

(** Own property lookup. *)
Fixpoint own (fields : list (string * jsval)) (key : string) : option jsval :=
  match fields with
  | [] => None
  | (k, v) :: rest => if String.eqb k key then Some v else own rest key
  end.

(** [v.key] for the data keys the client reads ([role], [content],
    [isLoading], [id], [lastUpdated], [response], [messages] and the
    product fields).  Reading a property of [undefined] or [null] throws;
    none of these keys is defined on a built-in prototype, on an array or
    on a string, so on anything but an object that owns the key the
    answer is [undefined]. *)
Definition get (v : jsval) (key : string) : result jsval :=
  match v with
  | JUndefined | JNull => Throw (TypeError (Reading v key))
  | JObj fields => Ok (default JUndefined (own fields key))
  | JBool _ | JNum _ | JStr _ | JArr _ => Ok JUndefined
  end.

(** [ToString], as a template literal applies it to an interpolated
    value.  An array prints its elements joined by commas, [undefined]
    and [null] elements as nothing.  An object prints as
    [[object Object]] unless it owns a [toString] property: data cannot
    hold a function, so that property hides the inherited method, the
    inherited [valueOf] returns the object itself, and the conversion
    ends in a [TypeError]. *)
Fixpoint toString (v : jsval) : result string :=
  match v with
  | JUndefined => Ok "undefined"
  | JNull => Ok "null"
  | JBool true => Ok "true"
  | JBool false => Ok "false"
  | JNum repr => Ok repr
  | JStr s => Ok s
  | JArr items =>
      (fix join (l : list jsval) : result string :=
         match l with
         | [] => Ok ""
         | x :: rest =>
             match (match x with
                    | JUndefined | JNull => Ok ""
                    | _ => toString x
                    end) with
             | Throw e => Throw e
             | Ok s =>
                 match rest with
                 | [] => Ok s
                 | _ :: _ =>
                     match join rest with
                     | Throw e => Throw e
                     | Ok r => Ok (s +:+ "," +:+ r)
                     end
                 end
             end
         end) items
  | JObj fields =>
      match own fields "toString" with
      | Some _ => Throw (TypeError (Converting v))
      | None => Ok "[object Object]"
      end
  end.

(** [a === b].  Arrays and objects compare by identity; the client only
    ever compares a value freshly read from JSON text with a value from
    elsewhere, which are never the same object. *)
Definition strict_eq (a b : jsval) : bool :=
  match a, b with
  | JUndefined, JUndefined => true
  | JNull, JNull => true
  | JBool x, JBool y => Bool.eqb x y
  | JNum x, JNum y => String.eqb x y && negb (String.eqb x "NaN")
  | JStr x, JStr y => String.eqb x y
  | _, _ => false
  end.

(** The property list of an object is in the order the engine
    enumerates it: first the keys that are array indices (the canonical
    decimal text of a number below [2^32 - 1]), in ascending order, then
    the other keys in the order they were created. *)
Definition array_index (key : string) : option N :=
  let digits := list_ascii_of_string key in
  let n := fold_left (fun acc c => (10 * acc + N.of_nat (nat_of_ascii c - 48))%N) digits 0%N in
  if forallb (fun c => Nat.leb 48 (nat_of_ascii c) && Nat.leb (nat_of_ascii c) 57) digits
     && String.eqb (pretty n) key && (n <? 4294967295)%N
  then Some n else None.

(** A new array index goes before the first key that is not a smaller
    index. *)
Fixpoint insert_index (n : N) (key : string) (v : jsval) (fields : list (string * jsval))
  : list (string * jsval) :=
  match fields with
  | [] => [(key, v)]
  | (k, w) :: rest =>
      match array_index k with
      | Some m =>
          if (m <? n)%N then (k, w) :: insert_index n key v rest
          else (key, v) :: fields
      | None => (key, v) :: fields
      end
  end.

Fixpoint replace_value (key : string) (v : jsval) (fields : list (string * jsval))
  : list (string * jsval) :=
  match fields with
  | [] => []
  | (k, w) :: rest =>
      if String.eqb k key then (k, v) :: rest else (k, w) :: replace_value key v rest
  end.

(** [o.key = v] on the property list: an existing key keeps its place,
    a new key goes last, or among the indices when it is one. *)
Definition obj_set (key : string) (v : jsval) (fields : list (string * jsval))
  : list (string * jsval) :=
  match own fields key with
  | Some _ => replace_value key v fields
  | None =>
      match array_index key with
      | Some n => insert_index n key v fields
      | None => fields ++ [(key, v)]
      end
  end.

(** The bytes of a text grouped by character: a byte [10xxxxxx] belongs
    to the character before it. *)
Definition continuation (c : ascii) : bool :=
  Nat.leb 128 (nat_of_ascii c) && Nat.ltb (nat_of_ascii c) 192.

Fixpoint characters (cs : list ascii) : list (list ascii) :=
  match cs with
  | [] => []
  | c :: rest =>
      let groups := characters rest in
      match head rest, groups with
      | Some next, group :: more =>
          if continuation next then (c :: group) :: more else [c] :: groups
      | _, _ => [c] :: groups
      end
  end.

(** The code units of a text, as a string holds them: one for a
    character of one to three bytes, the two surrogates for a character
    of four bytes.  A surrogate on its own is written in the three-byte
    form of its number. *)
Definition surrogate (n : N) : list ascii :=
  [ ascii_of_N (224 + n / 4096); ascii_of_N (128 + (n / 64) mod 64);
    ascii_of_N (128 + n mod 64) ].

Definition code_units (character : list ascii) : list (list ascii) :=
  match character with
  | [b0; b1; b2; b3] =>
      let point :=
        ((N_of_ascii b0 mod 8) * 262144 + (N_of_ascii b1 mod 64) * 4096
         + (N_of_ascii b2 mod 64) * 64 + N_of_ascii b3 mod 64)%N in
      let rest := (point - 65536)%N in
      [surrogate (55296 + rest / 1024)%N; surrogate (56320 + rest mod 1024)%N]
  | _ => [character]
  end.

(** The own enumerable properties [{...v}] copies.  An array spreads to
    its indices, a string to its code units, any other primitive to
    nothing. *)
Definition spread (v : jsval) : list (string * jsval) :=
  match v with
  | JObj fields => fields
  | JArr items => imap (fun i x => (pretty (N.of_nat i), x)) items
  | JStr s =>
      imap (fun i unit => (pretty (N.of_nat i), JStr (string_of_list_ascii unit)))
           (concat (map code_units (characters (list_ascii_of_string s))))
  | JUndefined | JNull | JBool _ | JNum _ => []
  end.

(** Copying a property list into an object under construction. *)
Definition assign (target source : list (string * jsval)) : list (string * jsval) :=
  foldl (fun o kv => obj_set kv.1 kv.2 o) target source.

(** [Array.isArray] *)
Definition isArray (v : jsval) : bool :=
  match v with
  | JArr _ => true
  | _ => false
  end.

(** Values on which a property read throws. *)
Definition nullish (v : jsval) : bool :=
  match v with
  | JUndefined | JNull => true
  | _ => false
  end.

(** [l.filter(p)] and [l.map(f)] with a callback that may throw: the
    elements are visited from the left and the first throw ends the call. *)
Fixpoint filterM {A} (p : A -> result bool) (l : list A) : result (list A) :=
  match l with
  | [] => Ok []
  | x :: rest =>
      b ← p x;
      keep ← filterM p rest;
      Ok (if b : bool then x :: keep else keep)
  end.

Fixpoint mapM_result {A B} (f : A -> result B) (l : list A) : result (list B) :=
  match l with
  | [] => Ok []
  | x :: rest =>
      y ← f x;
      ys ← mapM_result f rest;
      Ok (y :: ys)
  end.

End JS.

Import JS.

(** *** The host

    What the browser and the libraries supply.  None of it is code of the
    client, so it is a parameter of the embedding:
    - [JSON_parse text] is [None] when [JSON.parse] throws its
      [SyntaxError];
    - [Date_parse] and [Number_time] give the time value, in milliseconds,
      of [new Date(string)] and [new Date(number)], [None] standing for
      the invalid date (whose time value is [NaN]);
    - [Array_sort cmp l] is [l.sort(cmp)], the comparator answering with
      a number ([None] for [NaN]) or throwing; the engine chooses the
      algorithm, and with it the order when the comparator is not
      consistent;
    - [type_error_message] and [syntax_error_message] are the engine's
      wording of its own errors, the former depending on what failed;
    - [originalCodeRenderer] is the [code] method of [marked]'s renderer
      before the component replaces it;
    - [API_BASE_URL] is the configured origin of the backend.
    The clock is not part of the host: a function that reads it takes the
    reading, [new Date().toISOString()], as its argument [now]. *)
Record host : Type := Host {
  JSON_parse : string -> option jsval;
  JSON_stringify : jsval -> string;
  Date_parse : string -> option Z;
  Number_time : string -> option Z;
  Array_sort : (jsval -> jsval -> result (option Z)) -> list jsval -> result (list jsval);
  type_error_message : failure -> string;
  syntax_error_message : string;
  originalCodeRenderer : string -> string -> string;
  API_BASE_URL : string
}.

(** [error.message] in a [catch] clause. *)
Definition message_of (h : host) (error : thrown) : string :=
  match error with
  | TypeError what => type_error_message h what
  | SyntaxError => syntax_error_message h
  | Error message => message
  end.

(** The time value of [new Date(v)].  [undefined] gives the invalid
    date, [null] and the booleans convert to the numbers 0 and 1, an array
    or an object is converted to a string first (which may throw). *)
Definition Date_value (h : host) (v : jsval) : result (option Z) :=
  match v with
  | JUndefined => Ok None
  | JNull => Ok (Some 0%Z)
  | JBool b => Ok (Some (if b then 1%Z else 0%Z))
  | JNum repr => Ok (Number_time h repr)
  | JStr s => Ok (Date_parse h s)
  | JArr _ | JObj _ => s ← toString v; Ok (Date_parse h s)
  end.

(** *** The network

    A request handed to [fetch]: the address and the value serialized
    into its body ([method] and headers are constants of the source).
    What comes back is either a rejection (the network failed) or a
    response, of which the client reads the status and the body, as text
    or as JSON; reading the body may itself fail. *)
Record request : Type := Request {
  url : string;
  body : jsval
}.

(** What [JSON.stringify] writes of a value, and so what goes over the
    wire: a property whose value is [undefined] is left out, an
    [undefined] element of an array is written [null], and so are [NaN]
    and the infinities. *)
Fixpoint as_json (v : jsval) : jsval :=
  match v with
  | JNum repr =>
      if String.eqb repr "NaN" || String.eqb repr "Infinity" || String.eqb repr "-Infinity"
      then JNull else v
  | JArr items =>
      JArr (map (fun x => match x with
                          | JUndefined => JNull
                          | _ => as_json x
                          end) items)
  | JObj fields =>
      JObj ((fix members (l : list (string * jsval)) : list (string * jsval) :=
               match l with
               | [] => []
               | (k, JUndefined) :: rest => members rest
               | (k, x) :: rest => (k, as_json x) :: members rest
               end) fields)
  | _ => v
  end.

Inductive fetch_outcome : Type :=
| Rejected (message : string)
| Responded (status : Z) (text : result string) (json : result jsval).

(** [response.ok] *)
Definition ok_status (status : Z) : bool :=
  (200 <=? status)%Z && (status <=? 299)%Z.

(** An [async] function of the client, as far as the network sees it:
    it settles without calling [fetch], or it calls [fetch] with a
    request, waits, and goes on with what the network answers.  (No
    function of the client calls [fetch] twice.) *)
Inductive fetching (A : Type) : Type :=
| Settled (a : A)
| Fetch (r : request) (resume : fetch_outcome -> A).
Arguments Settled {A} a.
Arguments Fetch {A} r resume.

(** The calls of [fetch] it makes, and what it settles to when the
    network answers as [fetch] says. *)
Definition requests {A} (c : fetching A) : list request :=
  match c with
  | Settled _ => []
  | Fetch r _ => [r]
  end.

Definition settle {A} (fetch : request -> fetch_outcome) (c : fetching A) : A :=
  match c with
  | Settled a => a
  | Fetch r resume => resume (fetch r)
  end.

(** *** [api.js], the revision that sends the conversation history *)
Module Api.

(** The message objects built by the client. *)
Definition message (role : string) (content : jsval) (timestamp : string) : jsval :=
  JObj [("role", JStr role); ("content", content); ("timestamp", JStr timestamp)].

(** [conversationHistory.filter(msg => !msg.isLoading)
       .map(msg => ({ role: msg.role, content: msg.content }))].
    The parameter defaults to the empty array when it is [undefined];
    a value that has no [filter] method makes the call throw. *)
Definition formatHistory (conversationHistory : jsval) : result (list jsval) :=
  match conversationHistory with
  | JUndefined => Ok []
  | JArr items =>
      kept ← filterM (fun msg => flag ← get msg "isLoading"; Ok (negb (truthy flag))) items;
      mapM_result
        (fun msg =>
           role ← get msg "role";
           content ← get msg "content";
           Ok (JObj [("role", role); ("content", content)]))
        kept
  | _ => Throw (no_method conversationHistory "filter")
  end.

(** The request [getAIMessage] builds, if it gets that far. *)
Definition getAIMessage_request (h : host) (userQuery : string)
    (conversationHistory : jsval) : result request :=
  formattedHistory ← formatHistory conversationHistory;
  Ok {| url := API_BASE_URL h +:+ "/api/query";
        body := JObj [("query", JStr userQuery);
                      ("conversation_history", JArr formattedHistory)] |}.

(** The [catch] clause of [getAIMessage]; [now] is the clock when it
    runs. *)
Definition failed (h : host) (error : thrown) (now : string) : result jsval :=
  Ok (message "assistant"
        (JStr ("Sorry, I encountered an error while processing your request: "
               +:+ message_of h error +:+ ". Please try again later."))
        now).

(** [getAIMessage(userQuery, conversationHistory)].  A throw while the
    history is formatted is caught before [fetch] is called; otherwise
    [fetch] is called with the request, and the rest runs on what the
    network answers.  The message it returns is stamped with the clock
    reading [now] taken when it returns. *)
Definition getAIMessage (h : host) (userQuery : string) (conversationHistory : jsval)
  : fetching (string -> result jsval) :=
  match getAIMessage_request h userQuery conversationHistory with
  | Throw error => Settled (failed h error)
  | Ok req =>
      Fetch req
        (fun outcome now =>
           try_catch
             (match outcome with
              | Rejected reason => Throw (Error reason)
              | Responded status text json =>
                  if negb (ok_status status) then
                    errorText ← text;
                    Throw (Error ("HTTP error! Status: " +:+ pretty status))
                  else
                    data ← json;
                    response ← get data "response";
                    Ok (message "assistant"
                          (or_else response
                             (JStr "Sorry, I couldn't process your request."))
                          now)
              end)
             (fun error => failed h error now))
  end.

(** [createUserMessage(content)] *)
Definition createUserMessage (now : string) (content : jsval) : jsval :=
  JObj [("role", JStr "user"); ("content", content); ("timestamp", JStr now)].

End Api.

(** *** [frontend/src/api/api.js], the revision without history

    It sends the query alone and its messages carry no timestamp. *)
Module FrontendApi.

Definition getAIMessage_request (h : host) (userQuery : string) : request :=
  {| url := API_BASE_URL h +:+ "/api/query";
     body := JObj [("query", JStr userQuery)] |}.

Definition getAIMessage (h : host) (userQuery : string) : fetching (result jsval) :=
  Fetch (getAIMessage_request h userQuery) (fun outcome =>
  try_catch
    (match outcome with
     | Rejected reason => Throw (Error reason)
     | Responded status text json =>
         if negb (ok_status status) then
           errorText ← text;
           Throw (Error ("HTTP error! Status: " +:+ pretty status))
         else
           data ← json;
           response ← get data "response";
           Ok (JObj [("role", JStr "assistant");
                     ("content",
                      or_else response (JStr "Sorry, I couldn't process your request."))])
     end)
    (fun error =>
       Ok (JObj [("role", JStr "assistant");
                 ("content",
                  JStr ("Sorry, I encountered an error while processing your request: "
                        +:+ message_of h error +:+ ". Please try again later."))]))).

End FrontendApi.

(** *** [Array.prototype] methods that take a callback which may throw *)
Module JSArray.

(** [l.findIndex(p)]; [None] is the source's [-1]. *)
Fixpoint findIndexM {A} (p : A -> result bool) (l : list A) : result (option nat) :=
  match l with
  | [] => Ok None
  | x :: rest =>
      b ← p x;
      if b : bool then Ok (Some 0)
      else i ← findIndexM p rest; Ok (option_map S i)
  end.

(** The comparator's answer as [sort] reads it: [NaN] counts as zero, and
    a negative number puts the first argument before the second. *)
Definition before (c : option Z) : bool :=
  match c with
  | Some v => (v <? 0)%Z
  | None => false
  end.

(** One [sort] an engine may have.  The language fixes the outcome when
    the comparator is consistent: a stable sort.  With an inconsistent
    comparator (one that answers [NaN] for some pairs only) the order is
    left to the engine.  This one is the straight insertion sort, which
    moves each element left past the elements it must precede; the sample
    hosts sort with it.  [racc] is the sorted prefix, last element first.
    [undefined] elements go last without being shown to the
    comparator. *)
Fixpoint insert_from_right {A} (cmp : A -> A -> result (option Z)) (x : A)
    (racc : list A) : result (list A) :=
  match racc with
  | [] => Ok [x]
  | y :: rest =>
      c ← cmp x y;
      if before c then r ← insert_from_right cmp x rest; Ok (y :: r)
      else Ok (x :: racc)
  end.

Fixpoint insertion_pass {A} (cmp : A -> A -> result (option Z))
    (racc todo : list A) : result (list A) :=
  match todo with
  | [] => Ok racc
  | x :: rest =>
      racc' ← insert_from_right cmp x racc;
      insertion_pass cmp racc' rest
  end.

Definition is_undefined (v : jsval) : bool :=
  match v with
  | JUndefined => true
  | _ => false
  end.

Definition sortM (cmp : jsval -> jsval -> result (option Z)) (l : list jsval)
  : result (list jsval) :=
  racc ← insertion_pass cmp [] (List.filter (fun v => negb (is_undefined v)) l);
  Ok (rev racc ++ List.filter is_undefined l).

End JSArray.

(** *** The chat-history helpers (the [localStorage] session store)

    [localStorage] is a finite map from keys to texts. *)
Module ChatHistory.
Import JSArray.

Definition CHAT_HISTORY_KEY : string := "instalily_chat_history".

(** [getAllChatHistories()]: a missing or empty item, and a text that
    [JSON.parse] rejects, all read as the empty list. *)
Definition getAllChatHistories (h : host) (localStorage : gmap string string) : jsval :=
  match localStorage !! CHAT_HISTORY_KEY with
  | None => JArr []
  | Some storedData =>
      if String.eqb storedData "" then JArr []
      else match JSON_parse h storedData with
           | Some histories => histories
           | None => JArr []
           end
  end.

(** [(a, b) => new Date(b.lastUpdated) - new Date(a.lastUpdated)].  The
    difference of two time values has the sign of their difference as
    integers; an invalid date makes it [NaN]. *)
Definition by_lastUpdated (h : host) (a b : jsval) : result (option Z) :=
  tb ← (lb ← get b "lastUpdated"; Date_value h lb);
  ta ← (la ← get a "lastUpdated"; Date_value h la);
  Ok (match tb, ta with
      | Some x, Some y => Some (x - y)%Z
      | _, _ => None
      end).

(** [{ ...old, ...chatSession, lastUpdated: now }] and
    [{ ...chatSession, lastUpdated: now }] *)
Definition merged_session (now : string) (old chatSession : jsval) : jsval :=
  JObj (obj_set "lastUpdated" (JStr now)
          (assign (assign [] (spread old)) (spread chatSession))).

Definition fresh_session (now : string) (chatSession : jsval) : jsval :=
  JObj (obj_set "lastUpdated" (JStr now) (assign [] (spread chatSession))).

(** The body of [saveChatSession]'s [try] block: the list it writes. *)
Definition saveChatSession_list (h : host) (now : string) (chatSession : jsval)
    (localStorage : gmap string string) : result (list jsval) :=
  match getAllChatHistories h localStorage with
  | JArr histories =>
      existingIndex ←
        findIndexM (fun session =>
                      sid ← get session "id";
                      cid ← get chatSession "id";
                      Ok (strict_eq sid cid)) histories;
      let updated :=
        match existingIndex with
        | Some i =>
            <[ i := merged_session now (default JUndefined (histories !! i)) chatSession ]>
              histories
        | None => histories ++ [fresh_session now chatSession]
        end in
      Array_sort h (by_lastUpdated h) updated
  | histories => Throw (no_method histories "findIndex")
  end.

(** [saveChatSession(chatSession)]: the returned flag and the store. *)
Definition saveChatSession (h : host) (now : string) (chatSession : jsval)
    (localStorage : gmap string string) : bool * gmap string string :=
  match saveChatSession_list h now chatSession localStorage with
  | Ok histories =>
      (true, <[ CHAT_HISTORY_KEY := JSON_stringify h (JArr histories) ]> localStorage)
  | Throw _ => (false, localStorage)
  end.

(** [histories.filter(session => session.id !== sessionId)] *)
Definition without_session (sessionId : jsval) (histories : list jsval)
  : result (list jsval) :=
  filterM (fun session => sid ← get session "id"; Ok (negb (strict_eq sid sessionId)))
          histories.

(** [deleteChatSession(sessionId)] *)
Definition deleteChatSession (h : host) (sessionId : jsval)
    (localStorage : gmap string string) : bool * gmap string string :=
  match getAllChatHistories h localStorage with
  | JArr histories =>
      match without_session sessionId histories with
      | Ok filteredHistories =>
          (true,
           <[ CHAT_HISTORY_KEY := JSON_stringify h (JArr filteredHistories) ]> localStorage)
      | Throw _ => (false, localStorage)
      end
  | _ => (false, localStorage)
  end.

End ChatHistory.

(** *** [String.prototype.trim]

    On the UTF-8 form of a string: the white space and line terminator
    characters of the language, each by its encoding. *)
Module Trim.

Definition WhiteSpace : list (list ascii) :=
  map (map ascii_of_nat)
    [ [9]; [10]; [11]; [12]; [13]; [32];            (* TAB LF VT FF CR SP *)
      [194; 160];                                   (* U+00A0 *)
      [225; 154; 128];                              (* U+1680 *)
      [226; 128; 128]; [226; 128; 129]; [226; 128; 130]; [226; 128; 131];
      [226; 128; 132]; [226; 128; 133]; [226; 128; 134]; [226; 128; 135];
      [226; 128; 136]; [226; 128; 137]; [226; 128; 138];   (* U+2000 .. U+200A *)
      [226; 128; 168]; [226; 128; 169];             (* U+2028 U+2029 *)
      [226; 128; 175];                              (* U+202F *)
      [226; 129; 159];                              (* U+205F *)
      [227; 128; 128];                              (* U+3000 *)
      [239; 187; 191] ].                            (* U+FEFF *)

(** [drop_prefix w l] is what follows [w] at the front of [l]. *)
Fixpoint drop_prefix (w l : list ascii) : option (list ascii) :=
  match w, l with
  | [], _ => Some l
  | a :: w', b :: l' => if Ascii.eqb a b then drop_prefix w' l' else None
  | _ :: _, [] => None
  end.

Fixpoint drop_first (ws : list (list ascii)) (l : list ascii) : option (list ascii) :=
  match ws with
  | [] => None
  | w :: rest =>
      match drop_prefix w l with
      | Some r => Some r
      | None => drop_first rest l
      end
  end.

Fixpoint drop_while (ws : list (list ascii)) (fuel : nat) (l : list ascii) : list ascii :=
  match fuel with
  | 0 => l
  | S n =>
      match drop_first ws l with
      | Some r => drop_while ws n r
      | None => l
      end
  end.

Definition trimStart (l : list ascii) : list ascii :=
  drop_while WhiteSpace (length l) l.

Definition trimEnd (l : list ascii) : list ascii :=
  rev (drop_while (map (@rev ascii) WhiteSpace) (length l) (rev l)).

Definition trim (s : string) : string :=
  string_of_list_ascii (trimEnd (trimStart (list_ascii_of_string s))).

(** A text made of white space only (the empty text included). *)
Inductive blank : list ascii -> Prop :=
| blank_nil : blank []
| blank_cons w l : w ∈ WhiteSpace -> blank l -> blank (w ++ l).

End Trim.

(** *** [ChatWindow.js] *)
Module ChatWindow.
Import Trim.

Definition CHAT_HISTORY_KEY : string := "instalily_chat_history".
Definition CURRENT_SESSION_KEY : string := "instalily_current_session".

(** Work queued with [setTimeout]. *)
Inductive task : Type :=
| StartNewChat.

(** The state of the component (its [useState] cells), the browser's
    [localStorage], the timer queue, and the requests handed to [fetch]
    so far (a log, oldest first). *)
Record state : Type := State {
  messages : list jsval;
  input : string;
  isLoading : bool;
  chatHistory : list jsval;
  currentSessionId : jsval;
  showHistory : bool;
  localStorage : gmap string string;
  timers : list task;
  outbox : list request
}.

Definition setMessages (v : list jsval) (s : state) : state :=
  State v (input s) (isLoading s) (chatHistory s) (currentSessionId s)
        (showHistory s) (localStorage s) (timers s) (outbox s).
Definition setInput (v : string) (s : state) : state :=
  State (messages s) v (isLoading s) (chatHistory s) (currentSessionId s)
        (showHistory s) (localStorage s) (timers s) (outbox s).
Definition setIsLoading (v : bool) (s : state) : state :=
  State (messages s) (input s) v (chatHistory s) (currentSessionId s)
        (showHistory s) (localStorage s) (timers s) (outbox s).
Definition setChatHistory (v : list jsval) (s : state) : state :=
  State (messages s) (input s) (isLoading s) v (currentSessionId s)
        (showHistory s) (localStorage s) (timers s) (outbox s).
Definition setCurrentSessionId (v : jsval) (s : state) : state :=
  State (messages s) (input s) (isLoading s) (chatHistory s) v
        (showHistory s) (localStorage s) (timers s) (outbox s).
Definition setItem (key value : string) (s : state) : state :=
  State (messages s) (input s) (isLoading s) (chatHistory s) (currentSessionId s)
        (showHistory s) (<[ key := value ]> (localStorage s)) (timers s) (outbox s).
Definition setTimeout (t : task) (s : state) : state :=
  State (messages s) (input s) (isLoading s) (chatHistory s) (currentSessionId s)
        (showHistory s) (localStorage s) (timers s ++ [t]) (outbox s).
Definition fetch_called (r : request) (s : state) : state :=
  State (messages s) (input s) (isLoading s) (chatHistory s) (currentSessionId s)
        (showHistory s) (localStorage s) (timers s) (outbox s ++ [r]).

(** [{ role: "assistant", isLoading: true }], the placeholder shown while
    a request is in flight. *)
Definition loadingMessage : jsval :=
  JObj [("role", JStr "assistant"); ("isLoading", JBool true)].

(** [msg => !msg.isLoading] *)
Definition notLoading (msg : jsval) : result bool :=
  flag ← get msg "isLoading"; Ok (negb (truthy flag)).

(** [setMessages(prevMessages => [...prevMessages.filter(msg => !msg.isLoading), last])].
    The updater runs on the list the state holds when it is applied; a
    throw inside it is not caught by the handler and takes the component
    down. *)
Definition replaceLoading (last : jsval) (s : state) : result state :=
  kept ← filterM notLoading (messages s);
  Ok (setMessages (kept ++ [last]) s).

(** What the rest of [handleSend] still holds after its [await]: the
    text of the user's message and the history it sent. *)
Record pending : Type := Pending {
  userContent : string;
  updatedMessages : list jsval
}.

(** [handleSend] up to its [await]: the guard on the input, the user's
    message, the placeholder, and the call of [getAIMessage], which runs
    until it has called [fetch]; the call it makes goes on the log.
    [None] is the early [return]. *)
Definition handleSend_begin (h : host) (now : string) (s : state)
  : option (state * pending) :=
  if String.eqb (trim (input s)) "" then None
  else
    let userMessage :=
      JObj [("role", JStr "user"); ("content", JStr (input s)); ("timestamp", JStr now)] in
    let updatedMessages := messages s ++ [userMessage] in
    let s1 := setMessages updatedMessages s in
    let s2 := setInput "" s1 in
    let s3 := setIsLoading true s2 in
    let messagesWithLoading := updatedMessages ++ [loadingMessage] in
    let s4 := setMessages messagesWithLoading s3 in
    let s5 :=
      match Api.getAIMessage h (input s) (JArr updatedMessages) with
      | Fetch r _ => fetch_called r s4
      | Settled _ => s4
      end in
    Some (s5, Pending (input s) updatedMessages).

(** [handleSend] from the [await] on: the answer (or, in the [catch]
    branch, a local error message) replaces the placeholder, and the
    [finally] clause clears the loading flag. *)
Definition handleSend_end (now : string) (answer : result jsval) (s : state)
  : result state :=
  match answer with
  | Ok aiResponse =>
      s' ← replaceLoading aiResponse s;
      Ok (setIsLoading false s')
  | Throw _ =>
      s' ← replaceLoading
             (Api.message "assistant"
                (JStr "Sorry, I encountered an error. Please try again later.") now) s;
      Ok (setIsLoading false s')
  end.

(** One whole turn of [handleSend].  [now] is the clock when the form is
    submitted, [later] when the answer arrives; [meanwhile] is what the
    other handlers and effects of the component ([startNewChat],
    [loadSession], [deleteSession], the saving of the session) do to the
    state while the request is in flight. *)
Definition handleSend (h : host) (now later : string) (fetch : request -> fetch_outcome)
    (meanwhile : state -> state) (s : state) : result state :=
  match handleSend_begin h now s with
  | None => Ok s
  | Some (s', p) =>
      handleSend_end later
        (settle fetch (Api.getAIMessage h (userContent p) (JArr (updatedMessages p))) later)
        (meanwhile s')
  end.

(** The [disabled] attribute of the send button:
    [isLoading || !input.trim()]. *)
Definition send_disabled (s : state) : bool :=
  isLoading s || negb (truthy (JStr (trim (input s)))).

(** [deleteSession(e, sessionId)].  Session ids are the strings
    [generateSessionId] makes.  Switching to a session whose [messages] is
    not an array, or whose [id] cannot be written as a string, throws (at
    once or at the next render). *)
Definition deleteSession (h : host) (sessionId : string) (s : state) : result state :=
  updatedHistory ←
    filterM (fun session =>
               sid ← get session "id"; Ok (negb (strict_eq sid (JStr sessionId))))
            (chatHistory s);
  let s1 := setItem CHAT_HISTORY_KEY (JSON_stringify h (JArr updatedHistory)) s in
  s2 ← (if strict_eq (JStr sessionId) (currentSessionId s) then
          match updatedHistory with
          | first :: _ =>
              msgs ← get first "messages";
              id ← get first "id";
              key ← toString id;
              match msgs with
              | JArr items =>
                  Ok (setItem CURRENT_SESSION_KEY key
                        (setCurrentSessionId id (setMessages items s1)))
              | _ => Throw (no_method msgs "map")
              end
          | [] => Ok (setTimeout StartNewChat s1)
          end
        else Ok s1);
  Ok (setChatHistory updatedHistory s2).

(** The characters a string literal cannot hold. *)
Definition dq : string := String (ascii_of_nat 34) EmptyString.
Definition nl : string := String (ascii_of_nat 10) EmptyString.

(** [name="value"] *)
Definition attr (name value : string) : string :=
  name +:+ "=" +:+ dq +:+ value +:+ dq.

(** [product.key ? `...${product.key}...` : ''], the interpolated text
    standing between [before] and [after]. *)
Definition optional (product : jsval) (key before after : string) : result string :=
  v ← get product key;
  if truthy v then text ← toString v; Ok (before +:+ text +:+ after)
  else Ok "".

(** [renderProductCard(product)] *)
Definition renderProductCard (product : jsval) : result string :=
  part_name ← get product "part_name";
  name ← get product "name";
  title ← toString (or_else (or_else part_name name) (JStr "Product"));
  price ← (p ← get product "price"; toString (or_else p (JStr "")));
  image ← (image_url ← get product "image_url";
           if truthy image_url then
             src ← toString image_url;
             alt ← toString (or_else part_name (JStr "Product"));
             Ok ("<img " +:+ attr "src" src +:+ " " +:+ attr "alt" alt +:+ " "
                 +:+ attr "class" "product-image" +:+ " />")
           else Ok "");
  manufacturer ← optional product "manufacturer_number"
                   "<p><strong>Manufacturer #:</strong> " "</p>";
  partselect ← optional product "partselect_number"
                 "<p><strong>PartSelect #:</strong> " "</p>";
  description ← optional product "description" "<p>" "</p>";
  link ← optional product "url"
           ("<a href=" +:+ dq)
           (dq +:+ " " +:+ attr "target" "_blank" +:+ " " +:+ attr "class" "product-link"
            +:+ ">View Details</a>");
  Ok (String.concat ""
        [ nl; "      <div "; attr "class" "product-card"; ">";
          nl; "        <div "; attr "class" "product-header"; ">";
          nl; "          <h3>"; title; "</h3>";
          nl; "          <span "; attr "class" "product-price"; ">"; price; "</span>";
          nl; "        </div>";
          nl; "        "; image;
          nl; "        <div "; attr "class" "product-details"; ">";
          nl; "          "; manufacturer;
          nl; "          "; partselect;
          nl; "          "; description;
          nl; "          "; link;
          nl; "        </div>";
          nl; "      </div>";
          nl; "    " ]).

(** [renderProductList(products)] *)
Definition renderProductList (products : list jsval) : result string :=
  if Nat.eqb (length products) 0 then Ok "<p>No products found</p>"
  else
    cards ← mapM_result renderProductCard products;
    Ok (String.concat ""
          [ nl; "      <div "; attr "class" "product-list"; ">";
            nl; "        "; String.concat "" cards;
            nl; "      </div>";
            nl; "    " ]).

(** [renderer.code = function(code, language) { ... }].  An absent info
    string behaves like any tag other than the two below. *)
Definition renderer_code (h : host) (code language : string) : result string :=
  if String.eqb language "json-to-render"
     || String.eqb language "dictionary-list-to-render"
  then
    try_catch
      (jsonData ← match JSON_parse h code with
                  | Some v => Ok v
                  | None => Throw SyntaxError
                  end;
       match jsonData with
       | JArr products => renderProductList products
       | _ => renderProductCard jsonData
       end)
      (fun e => Ok (originalCodeRenderer h code language))
  else Ok (originalCodeRenderer h code language).

End ChatWindow.

(** *** Catalog ingestion

    The ingestion batch and the Catalog Store live in the backend, which
    is not among the client sources; this module follows the
    specification (data model of section 3, contracts of sections 4.1
    and 4.2). *)
Module Ingestion.

(** Modelled from the spec: the [stock_status] enumeration of a Part (the
    backend's data model is missing). *)
Inductive stock_status : Type :=
| in_stock
| out_of_stock
| unknown.

(** Modelled from the spec: one normalized catalog record as Ingestion
    delivers it, the fields of a Part without its identity (the scraper
    and its record type are missing). *)
Record source_part : Type := SourcePart {
  name : string;
  manufacturer_number : string;
  partselect_number : string;
  price : string;
  image_url : string;
  description : string;
  detail_url : string;
  stock : stock_status;
  appliance_type : string;
  compatible_model_numbers : list string
}.

(** Modelled from the spec: the Part of the Catalog Store (missing), a
    catalog record under the identity [part_id] the store gave it. *)
Record Part : Type := MkPart {
  part_id : nat;
  record : source_part
}.

(** Modelled from the spec: the key of an upsert (the backend's upsert
    is missing): the manufacturer number, else the PartSelect number,
    else the derived [hash] of name and appliance type.  The key is a
    text with a one-letter tag for its kind, so that two kinds never
    meet. *)
Definition upsert_key (hash : string -> string -> string) (p : source_part) : string :=
  if negb (String.eqb (manufacturer_number p) "") then "M:" +:+ manufacturer_number p
  else if negb (String.eqb (partselect_number p) "") then "P:" +:+ partselect_number p
  else "H:" +:+ hash (name p) (appliance_type p).

(** Modelled from the spec: the Parts of the Catalog Store (missing), by
    upsert key, and the next free identity. *)
Record catalog : Type := Catalog {
  parts : gmap string Part;
  next_id : nat
}.

(** Modelled from the spec: [upsert_part] of the Catalog Store
    (missing), insert-or-update by key.  A Part that is already stored
    keeps its [part_id] and has its other fields replaced; a new one
    takes the next identity. *)
Definition upsert_part (hash : string -> string -> string) (c : catalog)
    (p : source_part) : catalog :=
  let key := upsert_key hash p in
  match parts c !! key with
  | Some old => Catalog (<[ key := MkPart (part_id old) p ]> (parts c)) (next_id c)
  | None => Catalog (<[ key := MkPart (next_id c) p ]> (parts c)) (S (next_id c))
  end.

(** Modelled from the spec: one Ingestion run (the batch is missing)
    over the source data, the records that were fetched, in order. *)
Definition ingest (hash : string -> string -> string) (source : list source_part)
    (c : catalog) : catalog :=
  foldl (upsert_part hash) c source.

(** Modelled from the spec: the total number of Parts in the store. *)
Definition part_count (c : catalog) : nat := size (parts c).

End Ingestion.

(** *** A host to run the client on

    [stringify] prints a value the way [JSON.stringify] does (which, for
    [undefined] itself, returns no text at all: storing that result puts
    the text [undefined] in the store).  The reader
    of the sample host knows the documents of [library]: it reads the text
    of each of them back as that document and rejects every other text.
    Its dates are the two the examples use, and the whole numbers of at
    most fifteen digits. *)
Module Sample.

Definition hex_digit (n : nat) : ascii :=
  ascii_of_nat (if Nat.ltb n 10 then 48 + n else 87 + n).

(** One character inside a JSON string. *)
Definition quote_char (c : ascii) : string :=
  let n := nat_of_ascii c in
  if Nat.eqb n 34 then "\" +:+ ChatWindow.dq
  else if Nat.eqb n 92 then "\\"
  else if Nat.eqb n 8 then "\b"
  else if Nat.eqb n 12 then "\f"
  else if Nat.eqb n 10 then "\n"
  else if Nat.eqb n 13 then "\r"
  else if Nat.eqb n 9 then "\t"
  else if Nat.ltb n 32 then
    "\u00" +:+ String (hex_digit (n / 16)) (String (hex_digit (n mod 16)) EmptyString)
  else String c EmptyString.

Definition quote (s : string) : string :=
  ChatWindow.dq
  +:+ String.concat "" (map quote_char (list_ascii_of_string s))
  +:+ ChatWindow.dq.

Fixpoint stringify (v : jsval) : string :=
  match v with
  | JUndefined => "undefined"
  | JNull => "null"
  | JBool true => "true"
  | JBool false => "false"
  | JNum repr =>
      if String.eqb repr "NaN" || String.eqb repr "Infinity" || String.eqb repr "-Infinity"
      then "null" else repr
  | JStr s => quote s
  | JArr items =>
      "[" +:+ String.concat ","
                (map (fun x => match x with
                               | JUndefined => "null"
                               | _ => stringify x
                               end) items)
      +:+ "]"
  | JObj fields =>
      "{" +:+ String.concat ","
                ((fix members (l : list (string * jsval)) : list string :=
                    match l with
                    | [] => []
                    | (k, JUndefined) :: rest => members rest
                    | (k, x) :: rest => (quote k +:+ ":" +:+ stringify x) :: members rest
                    end) fields)
      +:+ "}"
  end.

(** Messages and sessions of the examples. *)
Definition greeting : jsval :=
  Api.message "assistant" (JStr "Hi, how can I help you today?")
    "2026-11-02T08:59:00.000Z".

Definition question : jsval :=
  JObj [("role", JStr "user"); ("content", JStr "Is PS11752778 in stock?");
        ("timestamp", JStr "2026-11-02T09:00:00.000Z")].

(** A session written by [saveChatSession] in 2020. *)
Definition session_a : jsval :=
  JObj [("id", JStr "a"); ("title", JStr "Fridge filter"); ("messages", JArr [greeting]);
        ("lastUpdated", JStr "2020-01-01T00:00:00.000Z")].

(** A session written by the chat window: its date is under
    [timestamp]. *)
Definition session_b : jsval :=
  JObj [("id", JStr "b"); ("title", JStr "New Conversation");
        ("messages", JArr [greeting]); ("timestamp", JStr "2021-06-01T00:00:00.000Z")].

Definition session_b' : jsval :=
  JObj [("id", JStr "b2"); ("title", JStr "New Conversation");
        ("messages", JArr [greeting]); ("timestamp", JStr "2021-07-01T00:00:00.000Z")].

Definition library : list jsval :=
  [ JArr []; JObj []; JArr [session_a]; JArr [session_a; session_b];
    JArr [session_a; session_b; session_b'] ].

Definition read (text : string) : option jsval :=
  find (fun doc => String.eqb (stringify doc) text) library.

Definition date (s : string) : option Z :=
  if String.eqb s "2020-01-01T00:00:00.000Z" then Some 1577836800000%Z
  else if String.eqb s "2026-11-02T09:00:00.000Z" then Some 1793610000000%Z
  else None.

(** [new Date(n)] for a whole number of at most fifteen digits. *)
Definition whole_number (repr : string) : option Z :=
  let digits := list_ascii_of_string repr in
  if forallb (fun c => Nat.leb 48 (nat_of_ascii c) && Nat.leb (nat_of_ascii c) 57) digits
     && Nat.leb 1 (length digits) && Nat.leb (length digits) 15
  then Some (fold_left (fun acc c => (10 * acc + Z.of_nat (nat_of_ascii c - 48))%Z) digits 0%Z)
  else None.

(** The wording of one engine (V8), which names the receiver of a failed
    call as the source does. *)
Definition wording (what : failure) : string :=
  match what with
  | Reading JNull key => "Cannot read properties of null (reading '" +:+ key +:+ "')"
  | Reading _ key => "Cannot read properties of undefined (reading '" +:+ key +:+ "')"
  | Calling _ method =>
      (if String.eqb method "filter" then "conversationHistory." else "")
      +:+ method +:+ " is not a function"
  | Spreading _ => "history is not iterable"
  | Converting _ => "Cannot convert object to primitive value"
  end.

Definition sample_host : host :=
  {| JSON_parse := read;
     JSON_stringify := stringify;
     Date_parse := date;
     Number_time := whole_number;
     Array_sort := JSArray.sortM;
     type_error_message := wording;
     syntax_error_message := "Unexpected token";
     originalCodeRenderer := fun code language => "<pre><code>" +:+ code +:+ "</code></pre>";
     API_BASE_URL := "http://localhost:5000" |}.

End Sample.

(** *** Vocabulary of the properties *)
Module Props.

(** [v.key] where the read cannot throw. *)
Definition field (v : jsval) (key : string) : jsval :=
  match get v key with
  | Ok x => x
  | Throw _ => JUndefined
  end.

(** The [isLoading] flag of a message is set. *)
Definition is_loading (msg : jsval) : bool := truthy (field msg "isLoading").

(** The names of the own properties of an object. *)
Definition keys (v : jsval) : list string :=
  match v with
  | JObj fields => map fst fields
  | _ => []
  end.

Definition is_nonempty_string (v : jsval) : bool :=
  match v with
  | JStr s => negb (String.eqb s "")
  | _ => false
  end.

(** Every element can be asked for a property. *)
Definition readable (l : list jsval) : Prop :=
  Forall (fun v => nullish v = false) l.

(** The session carries this id ([session.id === id]). *)
Definition has_id (id : jsval) (session : jsval) : bool :=
  strict_eq (field session "id") id.

(** The first position that passes a test. *)
Fixpoint findIndex {A} (q : A -> bool) (l : list A) : option nat :=
  match l with
  | [] => None
  | x :: rest => if q x then Some 0 else option_map S (findIndex q rest)
  end.

(** The time value of a session's [lastUpdated], when it is a valid
    date. *)
Definition time_of (h : host) (session : jsval) : option Z :=
  match Date_value h (field session "lastUpdated") with
  | Ok (Some t) => Some t
  | _ => None
  end.

(** Most recent first: of two sessions that both carry a valid date, the
    one listed first is not the older one. *)
Definition not_older (h : host) (a b : jsval) : Prop :=
  forall ta tb, time_of h a = Some ta -> time_of h b = Some tb -> (tb <= ta)%Z.

Definition newest_first (h : host) (l : list jsval) : Prop :=
  StronglySorted (not_older h) l.

(** The sessions that do not carry this id, in order. *)
Definition others (id : jsval) (l : list jsval) : list jsval :=
  List.filter (fun session => negb (has_id id session)) l.

(** A session as the component makes them: an object whose [id] is a
    string and whose [messages] is an array. *)
Definition is_session (v : jsval) : bool :=
  match v with
  | JObj _ =>
      match field v "id", field v "messages" with
      | JStr _, JArr _ => true
      | _, _ => false
      end
  | _ => false
  end.

(** What [getAIMessage] makes of one history entry. *)
Definition role_and_content (msg : jsval) : jsval :=
  JObj [("role", field msg "role"); ("content", field msg "content")].

(** The two texts [getAIMessage] answers with on its own. *)
Definition apology (h : host) (error : thrown) : jsval :=
  JStr ("Sorry, I encountered an error while processing your request: "
        +:+ message_of h error +:+ ". Please try again later.").

Definition fallback : jsval := JStr "Sorry, I couldn't process your request.".

(** The error a response with a status outside 200..299 ends in: the
    [Error] thrown by the client, unless reading the body failed first. *)
Definition http_error (status : Z) (text : result string) : thrown :=
  match text with
  | Ok _ => Error ("HTTP error! Status: " +:+ pretty status)
  | Throw e => e
  end.

(** One of the two tags the renderer looks for. *)
Definition render_tag (language : string) : Prop :=
  language = "json-to-render" \/ language = "dictionary-list-to-render".

(** The product fragment for a payload: a list for an array, a card for
    anything else. *)
Definition product_fragment (jsonData : jsval) : result string :=
  match jsonData with
  | JArr products => ChatWindow.renderProductList products
  | _ => ChatWindow.renderProductCard jsonData
  end.

(** The message [handleSend] builds from the input. *)
Definition userMessage (now text : string) : jsval :=
  JObj [("role", JStr "user"); ("content", JStr text); ("timestamp", JStr now)].

(** The messages whose [isLoading] flag is not set, in order. *)
Definition settled (l : list jsval) : list jsval :=
  List.filter (fun msg => negb (is_loading msg)) l.

(** The comparator of [saveChatSession] on sessions that all carry a
    valid date. *)
Definition dated (h : host) (l : list jsval) : Prop :=
  Forall (fun session => is_Some (time_of h session)) l.

Definition time_key (h : host) (session : jsval) : Z := default 0%Z (time_of h session).

(** What [saveChatSession] sorts: the stored list with the session put in
    place of the first one that has its id, or added at the end. *)
Definition upserted (now : string) (chatSession : jsval) (histories : list jsval)
  : list jsval :=
  match findIndex (has_id (field chatSession "id")) histories with
  | Some i =>
      <[ i := ChatHistory.merged_session now (default JUndefined (histories !! i))
                chatSession ]> histories
  | None => histories ++ [ChatHistory.fresh_session now chatSession]
  end.

(** On these elements the comparator returns [key b - key a]. *)
Definition keyed {A} (cmp : A -> A -> result (option Z)) (key : A -> Z) (l : list A)
  : Prop :=
  forall a b, a ∈ l -> b ∈ l -> cmp a b = Ok (Some (key b - key a)%Z).

Definition ascending {A} (key : A -> Z) : list A -> Prop :=
  StronglySorted (fun a b => (key a <= key b)%Z).

Definition descending {A} (key : A -> Z) : list A -> Prop :=
  StronglySorted (fun a b => (key b <= key a)%Z).

End Props.

(** *** The chat-history helpers, the rest of the file *)
Module ChatHistoryRest.
Import ChatHistory.

(** [clearAllChatHistories()] *)
Definition clearAllChatHistories (localStorage : gmap string string)
  : bool * gmap string string :=
  (true, delete CHAT_HISTORY_KEY localStorage).

(** [v.toString(16)] for an integer [v]. *)
Fixpoint hex_digits (fuel : nat) (n : N) (acc : string) : string :=
  match fuel with
  | 0 => acc
  | S fuel' =>
      let acc' := String (Sample.hex_digit (N.to_nat (n mod 16))) acc in
      if (n <? 16)%N then acc' else hex_digits fuel' (n / 16) acc'
  end.

Definition toString16 (v : Z) : string :=
  if (v <? 0)%Z then "-" +:+ hex_digits (S (N.size_nat (Z.to_N (- v)))) (Z.to_N (- v)) ""
  else hex_digits (S (N.size_nat (Z.to_N v))) (Z.to_N v) "".

(** [template.replace(/[xy]/g, c => ...)]: the callback runs once for
    each [x] and [y], from the left.  [random i] is the value of
    [Math.random() * 16 | 0] in the call number [i]. *)
Fixpoint fill (random : nat -> Z) (i : nat) (template : list ascii) : string :=
  match template with
  | [] => ""
  | c :: rest =>
      if Ascii.eqb c "x" then toString16 (random i) +:+ fill random (S i) rest
      else if Ascii.eqb c "y" then
        toString16 (Z.lor (Z.land (random i) 3) 8) +:+ fill random (S i) rest
      else String c (fill random i rest)
  end.

(** [generateSessionId()] *)
Definition generateSessionId (random : nat -> Z) : string :=
  fill random 0 (list_ascii_of_string "xxxxxxxx-xxxx-4xxx-yxxx-xxxxxxxxxxxx").

(** [createWelcomeMessage()] *)
Definition createWelcomeMessage (random : nat -> Z) (now : string) : jsval :=
  JObj [("id", JStr (generateSessionId random));
        ("role", JStr "assistant");
        ("content",
         JStr "Hello! I'm your appliance parts assistant. How can I help you today?");
        ("timestamp", JStr now)].

End ChatHistoryRest.

(** *** Further vocabulary *)
Module Terms.
Import Props.

(** A text made of the given pieces only. *)
Inductive made_of (ws : list (list ascii)) : list ascii -> Prop :=
| made_nil : made_of ws []
| made_cons w l : w ∈ ws -> made_of ws l -> made_of ws (w ++ l).

(** A value that converts to a string without calling into an object. *)
Definition primitive (v : jsval) : bool :=
  match v with
  | JArr _ | JObj _ => false
  | _ => true
  end.

(** An object all of whose properties hold primitive values. *)
Definition flat (v : jsval) : bool :=
  match v with
  | JObj fields => forallb (fun kv => primitive kv.2) fields
  | _ => false
  end.

(** A lower-case hexadecimal digit. *)
Definition is_hex (c : ascii) : bool :=
  let n := nat_of_ascii c in
  (Nat.leb 48 n && Nat.leb n 57) || (Nat.leb 97 n && Nat.leb n 102).

(** The shape of a version 4 UUID: 36 characters, hyphens after the
    groups of 8, 4, 4 and 4, the digit 4 opening the third group, one of
    8, 9, a, b opening the fourth, hexadecimal digits everywhere
    else. *)
Definition uuid_v4 (id : string) : bool :=
  let cs := list_ascii_of_string id in
  Nat.eqb (length cs) 36
  && forallb (fun ic =>
                let i := ic.1 in
                let c := ic.2 in
                if Nat.eqb i 8 || Nat.eqb i 13 || Nat.eqb i 18 || Nat.eqb i 23
                then Ascii.eqb c "-"
                else if Nat.eqb i 14 then Ascii.eqb c "4"
                else if Nat.eqb i 19
                     then Ascii.eqb c "8" || Ascii.eqb c "9"
                          || Ascii.eqb c "a" || Ascii.eqb c "b"
                else is_hex c)
             (imap (fun i c => (i, c)) cs).

(** A plain object, and one in which no key occurs twice. *)
Definition is_object (v : jsval) : bool :=
  match v with
  | JObj _ => true
  | _ => false
  end.

Definition well_formed (v : jsval) : Prop :=
  match v with
  | JObj fields => NoDup (map fst fields)
  | _ => False
  end.

(** A value that [===] finds equal to itself: a primitive other than
    [NaN].  Two such values pass [===] exactly when they are the same. *)
Definition comparable (v : jsval) : Prop := strict_eq v v = true.

(** The ids of the sessions of a list, in order. *)
Definition ids (l : list jsval) : list jsval :=
  map (fun session => field session "id") l.

(** The host reads the text it prints for this list back as the list. *)
Definition reads_back (h : host) (l : list jsval) : Prop :=
  JSON_stringify h (JArr l) <> ""
  /\ JSON_parse h (JSON_stringify h (JArr l)) = Some (JArr l).

(** On these elements the comparator always returns. *)
Definition answering {A} (cmp : A -> A -> result (option Z)) (l : list A) : Prop :=
  forall a b, a ∈ l -> b ∈ l -> exists c, cmp a b = Ok c.

(** What the language requires of [Array.prototype.sort], whatever the
    algorithm.  With a consistent comparator the result is the stable
    sort, which is the one the insertion sort gives; whenever the
    comparator answers, the result is a rearrangement of the list; an
    element on which the comparator always throws is compared, and the
    throw passed on, as soon as there are two elements to compare; a
    single element is returned without a call of the comparator.  The
    order with an inconsistent comparator is left open. *)
Definition standard_sort (h : host) : Prop :=
  (forall cmp key l,
     Forall (fun v => JSArray.is_undefined v = false) l ->
     keyed cmp key l -> Array_sort h cmp l = JSArray.sortM cmp l)
  /\ (forall cmp l, answering cmp l -> exists r, Array_sort h cmp l = Ok r /\ r ≡ₚ l)
  /\ (forall cmp l bad,
        (forall y, exists e, cmp bad y = Throw e) ->
        (forall x, exists e, cmp x bad = Throw e) ->
        bad ∈ l -> JSArray.is_undefined bad = false ->
        2 <= length (List.filter (fun v => negb (JSArray.is_undefined v)) l) ->
        exists e, Array_sort h cmp l = Throw e)
  /\ (forall cmp x, Array_sort h cmp [x] = Ok [x]).

(** Converting a session's [lastUpdated] to a date does not throw. *)
Definition datable (h : host) (l : list jsval) : Prop :=
  Forall (fun session => exists t, Date_value h (field session "lastUpdated") = Ok t) l.

(** A conversation history [getAIMessage] cannot format: a value that is
    neither [undefined] nor an array, or an array with an entry that is
    [null] or [undefined]. *)
Definition unreadable_history (conversationHistory : jsval) : Prop :=
  match conversationHistory with
  | JUndefined => False
  | JArr items => Exists (fun msg => nullish msg = true) items
  | _ => True
  end.

(** What the store keeps true of its list: plain objects without a
    repeated key, whose ids are comparable and all different, and dates
    that convert. *)
Definition store_invariant (h : host) (l : list jsval) : Prop :=
  Forall well_formed l
  /\ Forall comparable (ids l)
  /\ NoDup (ids l)
  /\ datable h l.

(** The stored value cannot be worked on: it is not an array, or it is
    an array with a [null] entry. *)
Definition blocked (h : host) (localStorage : gmap string string) : Prop :=
  isArray (ChatHistory.getAllChatHistories h localStorage) = false
  \/ exists histories,
       ChatHistory.getAllChatHistories h localStorage = JArr histories
       /\ JNull ∈ histories.

End Terms.

(** *** Hosts that read other documents

    The sample host with another library: [JSON.parse] reads the text of
    each of [docs] back as that document and rejects every other text. *)
Module Hosts.

Definition reading (docs : list jsval) : host :=
  {| JSON_parse := fun text => find (fun doc => String.eqb (Sample.stringify doc) text) docs;
     JSON_stringify := Sample.stringify;
     Date_parse := Sample.date;
     Number_time := Sample.whole_number;
     Array_sort := JSArray.sortM;
     type_error_message := Sample.wording;
     syntax_error_message := "Unexpected token";
     originalCodeRenderer := fun code language => "<pre><code>" +:+ code +:+ "</code></pre>";
     API_BASE_URL := "http://localhost:5000" |}.

End Hosts.

(** *** The chat window: its sessions

    What [ChatWindow] does with the list of sessions: the effect that
    runs when the component mounts, the effect that saves the open
    session, [startNewChat] and [loadSession].  The component's own
    [generateSessionId] draws on the clock and on [Math.random]; the id
    it returns is the argument [newSessionId].  [mounted] is the clock
    reading taken when [defaultMessage] was made. *)
Module Sessions.
Import JSArray ChatWindow.

Definition setShowHistory (v : bool) (s : state) : state :=
  State (messages s) (input s) (isLoading s) (chatHistory s) (currentSessionId s)
        v (localStorage s) (timers s) (outbox s).
Definition setTimers (v : list task) (s : state) : state :=
  State (messages s) (input s) (isLoading s) (chatHistory s) (currentSessionId s)
        (showHistory s) (localStorage s) v (outbox s).

(** [l.some(p)] and [l.find(p)]; [None] is the source's [undefined]. *)
Fixpoint someM {A} (p : A -> result bool) (l : list A) : result bool :=
  match l with
  | [] => Ok false
  | x :: rest => b ← p x; if b : bool then Ok true else someM p rest
  end.

Fixpoint findM {A} (p : A -> result bool) (l : list A) : result (option A) :=
  match l with
  | [] => Ok None
  | x :: rest => b ← p x; if b : bool then Ok (Some x) else findM p rest
  end.

(** [session => session.id === id] *)
Definition carries (id : jsval) (session : jsval) : result bool :=
  sid ← get session "id"; Ok (strict_eq sid id).

(** [defaultMessage] *)
Definition defaultMessage (mounted : string) : list jsval :=
  [ JObj [("role", JStr "assistant");
          ("content",
           JStr "Hi, I'm your appliance parts and repair assistant. How can I help you today?");
          ("timestamp", JStr mounted)] ].

(** The state the component starts in. *)
Definition initial (mounted : string) (store : gmap string string) : state :=
  State (defaultMessage mounted) "" false [] JNull false store [] [].

(** [{ id: newSessionId, title: "New Conversation", messages: defaultMessage,
      timestamp: new Date().toISOString() }] *)
Definition newSession (newSessionId now mounted : string) : jsval :=
  JObj [("id", JStr newSessionId); ("title", JStr "New Conversation");
        ("messages", JArr (defaultMessage mounted)); ("timestamp", JStr now)].

(** [startNewChat()].  The updater handed to [setChatHistory] runs on the
    list the state holds. *)
Definition startNewChat (h : host) (newSessionId now mounted : string) (s : state)
  : state :=
  let updatedHistory := newSession newSessionId now mounted :: chatHistory s in
  let s1 :=
    setChatHistory updatedHistory
      (setItem CHAT_HISTORY_KEY (JSON_stringify h (JArr updatedHistory)) s) in
  let s2 := setCurrentSessionId (JStr newSessionId) s1 in
  let s3 := setItem CURRENT_SESSION_KEY newSessionId s2 in
  let s4 := setMessages (defaultMessage mounted) s3 in
  setShowHistory false s4.

(** The first task of the timer queue runs. *)
Definition run_timer (h : host) (newSessionId now mounted : string) (s : state)
  : option state :=
  match timers s with
  | StartNewChat :: rest => Some (startNewChat h newSessionId now mounted (setTimers rest s))
  | [] => None
  end.

(** [loadSession(sessionId)], for the string ids the list is keyed by.
    A session whose [messages] is not an array cannot be shown: the
    render that follows throws. *)
Definition loadSession (sessionId : string) (s : state) : result state :=
  session ← findM (carries (JStr sessionId)) (chatHistory s);
  match session with
  | Some session =>
      if truthy session then
        msgs ← get session "messages";
        match msgs with
        | JArr items =>
            Ok (setShowHistory false
                  (setItem CURRENT_SESSION_KEY sessionId
                     (setCurrentSessionId (JStr sessionId) (setMessages items s))))
        | _ => Throw (no_method msgs "map")
        end
      else Ok s
  | None => Ok s
  end.

(** [storedData ? JSON.parse(storedData) : []], outside any [try]. *)
Definition read_history (h : host) (store : gmap string string) : result jsval :=
  match store !! CHAT_HISTORY_KEY with
  | Some storedData =>
      if String.eqb storedData "" then Ok (JArr [])
      else match JSON_parse h storedData with
           | Some history => Ok history
           | None => Throw SyntaxError
           end
  | None => Ok (JArr [])
  end.

(** [...v] in an array literal: the elements of an array, the characters
    of a string; nothing else the store can hold is iterable. *)
Definition iterate (v : jsval) : result (list jsval) :=
  match v with
  | JArr items => Ok items
  | JStr text =>
      Ok (map (fun group => JStr (string_of_list_ascii group))
              (characters (list_ascii_of_string text)))
  | _ => Throw (TypeError (Spreading v))
  end.

(** The effect that runs when the component mounts. *)
Definition mount (h : host) (newSessionId now mounted : string) (s : state)
  : result state :=
  history ← read_history h (localStorage s);
  known ← match localStorage s !! CURRENT_SESSION_KEY with
          | Some storedSessionId =>
              if String.eqb storedSessionId "" then Ok None
              else match history with
                   | JArr sessions =>
                       b ← someM (carries (JStr storedSessionId)) sessions;
                       Ok (if b : bool then Some (storedSessionId, sessions) else None)
                   | _ => Throw (no_method history "some")
                   end
          | None => Ok None
          end;
  match known with
  | Some (storedSessionId, sessions) =>
      session ← findM (carries (JStr storedSessionId)) sessions;
      msgs ← get (default JUndefined session) "messages";
      match msgs with
      | JArr items =>
          Ok (setCurrentSessionId (JStr storedSessionId)
                (setMessages items (setChatHistory sessions s)))
      | _ => Throw (no_method msgs "map")
      end
  | None =>
      rest ← iterate history;
      let updatedHistory := newSession newSessionId now mounted :: rest in
      Ok (setItem CURRENT_SESSION_KEY newSessionId
            (setItem CHAT_HISTORY_KEY (JSON_stringify h (JArr updatedHistory))
               (setChatHistory updatedHistory
                  (setCurrentSessionId (JStr newSessionId) s))))
  end.

(** [text.split(" ")] *)
Fixpoint split (text : string) : list string :=
  match text with
  | EmptyString => [EmptyString]
  | String c rest =>
      if Ascii.eqb c " " then EmptyString :: split rest
      else match split rest with
           | word :: words => String c word :: words
           | [] => [String c EmptyString]
           end
  end.

(** [content.split(" ").slice(0, 4).join(" ") + "..."] *)
Definition auto_title (content : string) : string :=
  String.concat " " (take 4 (split content)) +:+ "...".

(** The title [updateSessionInStorage] settles on: [None] when it keeps
    [currentSession.title], [Some title] when it makes one from the first
    user message (whose [content] must then have a [split] method: be a
    string). *)
Definition new_title (title : jsval) (messages : list jsval) : result (option string) :=
  if strict_eq title (JStr "New Conversation") then
    firstUserMessage ←
      findM (fun m => role ← get m "role"; Ok (strict_eq role (JStr "user"))) messages;
    match firstUserMessage with
    | Some m =>
        if truthy m then
          content ← get m "content";
          match content with
          | JStr text => Ok (Some (auto_title text))
          | _ => Throw (no_method content "split")
          end
        else Ok None
    | None => Ok None
    end
  else Ok None.

(** [currentSession.title === title]: a value kept is the same value,
    and only [NaN] differs from itself. *)
Definition same_title (title : jsval) (made : option string) : bool :=
  match made with
  | Some text => strict_eq title (JStr text)
  | None =>
      match title with
      | JNum repr => negb (String.eqb repr "NaN")
      | _ => true
      end
  end.

(** [JSON.stringify(stored) === JSON.stringify(messages)];
    [JSON.stringify(undefined)] is [undefined], not a text. *)
Definition same_json (h : host) (stored : jsval) (messages : list jsval) : bool :=
  match stored with
  | JUndefined => false
  | _ => String.eqb (JSON_stringify h stored) (JSON_stringify h (JArr messages))
  end.

(** [{ ...currentSession, title, messages, timestamp: now }] *)
Definition updatedSession (now : string) (currentSession title : jsval)
    (messages : list jsval) : jsval :=
  JObj (obj_set "timestamp" (JStr now)
          (obj_set "messages" (JArr messages)
             (obj_set "title" title (assign [] (spread currentSession))))).

(** [updateSessionInStorage()] *)
Definition updateSessionInStorage (h : host) (now : string) (s : state) : result state :=
  storedHistory ← read_history h (localStorage s);
  match storedHistory with
  | JArr sessions =>
      sessionIndex ← findIndexM (carries (currentSessionId s)) sessions;
      match sessionIndex with
      | None => Ok s
      | Some i =>
          let currentSession := default JUndefined (sessions !! i) in
          title ← get currentSession "title";
          made ← new_title title (messages s);
          stored ← get currentSession "messages";
          if same_json h stored (messages s) && same_title title made then Ok s
          else
            let title' := match made with Some text => JStr text | None => title end in
            let storedHistory' :=
              <[ i := updatedSession now currentSession title' (messages s) ]> sessions in
            let text := JSON_stringify h (JArr storedHistory') in
            let s1 := setItem CHAT_HISTORY_KEY text s in
            Ok (if String.eqb (JSON_stringify h (JArr (chatHistory s))) text then s1
                else setChatHistory storedHistory' s1)
      end
  | _ => Throw (no_method storedHistory "findIndex")
  end.

(** The effect on [messages] and [currentSessionId], once it is past the
    comparison with the values it saw last. *)
Definition save_effect (h : host) (now : string) (s : state) : result state :=
  if negb (truthy (currentSessionId s)) || Nat.eqb (length (messages s)) 0 then Ok s
  else updateSessionInStorage h now s.

End Sessions.

(** *** The chat window, the revision without sessions

    The older [ChatWindow] keeps the messages only; its [handleSend]
    works with updaters throughout and asks [getAIMessage] of
    [frontend/src/api/api.js], which sends the query alone. *)
Module Legacy.
Import Trim ChatWindow.

(** [{ role: "assistant", content: "Thinking...", isLoading: true }] *)
Definition loadingMessage : jsval :=
  JObj [("role", JStr "assistant"); ("content", JStr "Thinking...");
        ("isLoading", JBool true)].

(** [handleSend] up to its [await]; with the state it returns the text
    of the user's message, which the rest still holds. *)
Definition handleSend_begin (h : host) (s : state) : option (state * string) :=
  if String.eqb (trim (input s)) "" then None
  else
    let userMessage := JObj [("role", JStr "user"); ("content", JStr (input s))] in
    let s1 := setMessages (messages s ++ [userMessage]) s in
    let s2 := setInput "" s1 in
    let s3 := setIsLoading true s2 in
    let s4 := setMessages (messages s3 ++ [loadingMessage]) s3 in
    let s5 :=
      match FrontendApi.getAIMessage h (input s) with
      | Fetch r _ => fetch_called r s4
      | Settled _ => s4
      end in
    Some (s5, input s).

(** [handleSend] from the [await] on. *)
Definition handleSend_end (answer : result jsval) (s : state) : result state :=
  match answer with
  | Ok aiResponse =>
      s' ← replaceLoading aiResponse s;
      Ok (setIsLoading false s')
  | Throw _ =>
      s' ← replaceLoading
             (JObj [("role", JStr "assistant");
                    ("content",
                     JStr "Sorry, I encountered an error. Please try again later.")]) s;
      Ok (setIsLoading false s')
  end.

(** One whole turn, no other handler running meanwhile. *)
Definition handleSend (h : host) (fetch : request -> fetch_outcome) (s : state)
  : result state :=
  match handleSend_begin h s with
  | None => Ok s
  | Some (s', content) =>
      handleSend_end (settle fetch (FrontendApi.getAIMessage h content)) s'
  end.

End Legacy.

(** *** Vocabulary for the sessions *)
Module SessionTerms.
Import Props Terms ChatWindow Sessions.

(** The store holds the text of the list the state holds, and the host
    reads that text back. *)
Definition history_saved (h : host) (s : state) : Prop :=
  localStorage s !! CHAT_HISTORY_KEY = Some (JSON_stringify h (JArr (chatHistory s)))
  /\ reads_back h (chatHistory s)
  /\ readable (chatHistory s).

(** The state shows the session [id] of its list: the store names it as
    the current one, and the first session of the list that carries the
    id holds the messages on screen. *)
Definition shown (id : string) (s : state) : Prop :=
  id <> ""
  /\ localStorage s !! CURRENT_SESSION_KEY = Some id
  /\ currentSessionId s = JStr id
  /\ exists i session,
       findIndex (has_id (JStr id)) (chatHistory s) = Some i
       /\ chatHistory s !! i = Some session
       /\ field session "messages" = JArr (messages s).

Definition saved (h : host) (s : state) : Prop :=
  history_saved h s /\ exists id, shown id s.

(** The number of spaces in a text. *)
Fixpoint spaces (text : string) : nat :=
  match text with
  | EmptyString => 0
  | String c rest => (if Ascii.eqb c " " then 1 else 0) + spaces rest
  end.

(** The title a save settles on. *)
Definition kept_or_made (title : jsval) (made : option string) : jsval :=
  match made with
  | Some text => JStr text
  | None => title
  end.

(** The last character of a text. *)
Fixpoint last_character (text : string) : option ascii :=
  match text with
  | EmptyString => None
  | String c EmptyString => Some c
  | String _ rest => last_character rest
  end.

(** The stored text is there and is not the text of a list: it does not
    parse, or it parses to something that is neither an array nor a
    string. *)
Definition unusable (h : host) (store : gmap string string) : Prop :=
  exists text,
    store !! CHAT_HISTORY_KEY = Some text
    /\ text <> ""
    /\ match JSON_parse h text with
       | None => True
       | Some (JArr _) | Some (JStr _) => False
       | Some _ => True
       end.

(** The store names no session of the list as the current one. *)
Definition no_current (store : gmap string string) (sessions : list jsval) : Prop :=
  match store !! CURRENT_SESSION_KEY with
  | None => True
  | Some id => id = "" \/ findIndex (has_id (JStr id)) sessions = None
  end.

End SessionTerms.

(** *** Sample sessions *)
Module SessionSamples.
Import ChatWindow Sessions.

(** The session made by a first visit at eight o'clock, and a second
    one started at ten. *)
Definition first : jsval :=
  newSession "m2x1k9" "2026-11-02T08:00:00.000Z" "2026-11-02T08:00:00.000Z".

Definition second : jsval :=
  newSession "m2x5p3" "2026-11-02T10:00:00.000Z" "2026-11-02T08:00:00.000Z".

(** The first session after a question and its answer. *)
Definition answered : list jsval :=
  defaultMessage "2026-11-02T08:00:00.000Z"
  ++ [ Sample.question;
       Api.message "assistant" (JStr "Yes, it ships today.") "2026-11-02T09:00:05.000Z" ].

Definition first_titled : jsval :=
  JObj [("id", JStr "m2x1k9"); ("title", JStr "Is PS11752778 in stock?...");
        ("messages", JArr answered); ("timestamp", JStr "2026-11-02T09:00:06.000Z")].

Definition browser : host :=
  Hosts.reading
    [ JArr []; JArr [first]; JArr [second; first]; JArr [first_titled];
      JArr [second; first_titled]; JObj []; JStr "ab" ].

(** The state after the first visit, and after [+ New Chat] at ten. *)
Definition visited : state :=
  startNewChat browser "m2x1k9" "2026-11-02T08:00:00.000Z" "2026-11-02T08:00:00.000Z"
    (initial "2026-11-02T08:00:00.000Z" ∅).

Definition restarted : state :=
  startNewChat browser "m2x5p3" "2026-11-02T10:00:00.000Z" "2026-11-02T08:00:00.000Z"
    visited.

End SessionSamples.

(** ** Part II. The properties *)

(** *** Callbacks that do not throw *)
Module Facts.
Import Props.

Lemma get_field v key : nullish v = false -> get v key = Ok (field v key).
Proof. unfold field. destruct v; simpl; intros; congruence. Qed.

Lemma filterM_pure {A} (p : A -> result bool) (q : A -> bool) (l : list A) :
  Forall (fun x => p x = Ok (q x)) l -> filterM p l = Ok (List.filter q l).
Proof.
  induction 1 as [|x l Hx _ IH]; simpl; [reflexivity|].
  rewrite Hx. simpl. rewrite IH. simpl. destruct (q x); reflexivity.
Qed.

Lemma mapM_pure {A B} (f : A -> result B) (g : A -> B) (l : list A) :
  Forall (fun x => f x = Ok (g x)) l -> mapM_result f l = Ok (map g l).
Proof.
  induction 1 as [|x l Hx _ IH]; simpl; [reflexivity|].
  rewrite Hx. simpl. rewrite IH. reflexivity.
Qed.

Lemma readable_filter (q : jsval -> bool) l : readable l -> readable (List.filter q l).
Proof.
  unfold readable. induction 1 as [|x l Hx _ IH]; simpl; [constructor|].
  destruct (q x); [constructor|]; assumption.
Qed.

Lemma sublist_filter {A} (q : A -> bool) (l : list A) : sublist (List.filter q l) l.
Proof.
  induction l as [|x l IH]; simpl; [constructor|].
  destruct (q x); [apply sublist_skip|apply sublist_cons]; assumption.
Qed.

Lemma notLoading_pure l :
  readable l ->
  Forall (fun msg => ChatWindow.notLoading msg = Ok (negb (is_loading msg))) l.
Proof.
  unfold readable. intros Hl. eapply Forall_impl; [exact Hl|].
  intros msg Hmsg. simpl in Hmsg.
  unfold ChatWindow.notLoading, is_loading. rewrite (get_field _ _ Hmsg). reflexivity.
Qed.

Lemma own_app (a b : list (string * jsval)) (k : string) :
  own (a ++ b) k = match own a k with Some v => Some v | None => own b k end.
Proof.
  induction a as [|[k' w] a IH]; simpl; [reflexivity|].
  destruct (String.eqb k' k); [reflexivity|exact IH].
Qed.

Lemma own_None (fields : list (string * jsval)) (k : string) :
  k ∉ map fst fields -> own fields k = None.
Proof.
  induction fields as [|[k' w] rest IH]; simpl; [reflexivity|].
  intros Hk. apply not_elem_of_cons in Hk as [Hne Hk].
  destruct (String.eqb k' k) eqn:Heq; [|apply IH, Hk].
  apply String.eqb_eq in Heq. congruence.
Qed.

Lemma own_Some_key (fields : list (string * jsval)) (k : string) :
  own fields k <> None -> k ∈ map fst fields.
Proof.
  induction fields as [|[k' w] rest IH]; simpl; [congruence|].
  destruct (String.eqb k' k) eqn:Heq.
  - apply String.eqb_eq in Heq as ->. intros _. apply list_elem_of_here.
  - intros Hk. apply list_elem_of_further, IH, Hk.
Qed.

Lemma own_Some_key_inv (fields : list (string * jsval)) (k : string) :
  k ∈ map fst fields -> own fields k <> None.
Proof.
  intros Hin Hnone. induction fields as [|[k' w] rest IH]; simpl in *.
  - apply elem_of_nil in Hin as [].
  - destruct (String.eqb k' k) eqn:Heq; [discriminate|].
    apply elem_of_cons in Hin as [->|Hin]; [|exact (IH Hin Hnone)].
    rewrite String.eqb_refl in Heq. discriminate.
Qed.

Lemma replace_value_own (key k : string) (v : jsval) (fields : list (string * jsval)) :
  own fields key <> None ->
  own (replace_value key v fields) k = if String.eqb key k then Some v else own fields k.
Proof.
  induction fields as [|[k' w] rest IH]; simpl; [congruence|].
  destruct (String.eqb k' key) eqn:Hk'; simpl.
  - apply String.eqb_eq in Hk' as ->. intros _.
    destruct (String.eqb key k); reflexivity.
  - intros Hrest. rewrite (IH Hrest).
    destruct (String.eqb k' k) eqn:Hk; [|reflexivity].
    apply String.eqb_eq in Hk as ->. rewrite String.eqb_sym, Hk'. reflexivity.
Qed.

Lemma insert_index_own (n : N) (key k : string) (v : jsval)
    (fields : list (string * jsval)) :
  own fields key = None ->
  own (insert_index n key v fields) k = if String.eqb key k then Some v else own fields k.
Proof.
  induction fields as [|[k' w] rest IH]; simpl; [reflexivity|].
  destruct (String.eqb k' key) eqn:Hk'; [discriminate|]. intros Hrest.
  destruct (array_index k') as [m|]; [|reflexivity].
  destruct (m <? n)%N; [|reflexivity]. simpl. rewrite (IH Hrest).
  destruct (String.eqb k' k) eqn:Hk; [|reflexivity].
  apply String.eqb_eq in Hk as ->. rewrite String.eqb_sym, Hk'. reflexivity.
Qed.

(** Reading an object after an assignment. *)
Lemma own_obj_set_any (key k : string) (v : jsval) (fields : list (string * jsval)) :
  own (obj_set key v fields) k = if String.eqb key k then Some v else own fields k.
Proof.
  unfold obj_set. destruct (own fields key) eqn:Hown.
  - apply replace_value_own. congruence.
  - destruct (array_index key) as [n|]; [apply insert_index_own, Hown|].
    rewrite own_app. simpl. destruct (String.eqb key k) eqn:Hk.
    + apply String.eqb_eq in Hk as <-. rewrite Hown. reflexivity.
    + destruct (own fields k); reflexivity.
Qed.

Lemma replace_value_keys (key : string) (v : jsval) (fields : list (string * jsval)) :
  map fst (replace_value key v fields) = map fst fields.
Proof.
  induction fields as [|[k' w] rest IH]; simpl; [reflexivity|].
  destruct (String.eqb k' key); simpl; [reflexivity|]. rewrite IH. reflexivity.
Qed.

Lemma insert_index_keys (n : N) (key : string) (v : jsval)
    (fields : list (string * jsval)) :
  map fst (insert_index n key v fields) ≡ₚ key :: map fst fields.
Proof.
  induction fields as [|[k' w] rest IH]; simpl; [reflexivity|].
  destruct (array_index k') as [m|]; [|reflexivity].
  destruct (m <? n)%N; [|reflexivity]. simpl. rewrite IH. apply Permutation_swap.
Qed.

(** The keys of an object after an assignment. *)
Lemma obj_set_keys (key : string) (v : jsval) (fields : list (string * jsval)) :
  map fst (obj_set key v fields)
  ≡ₚ match own fields key with
     | Some _ => map fst fields
     | None => key :: map fst fields
     end.
Proof.
  unfold obj_set. destruct (own fields key).
  - rewrite replace_value_keys. reflexivity.
  - destruct (array_index key) as [n|]; [apply insert_index_keys|].
    rewrite map_app. simpl. rewrite Permutation_app_comm. reflexivity.
Qed.

End Facts.

(** *** [getAIMessage] *)
Module ApiProps.
Import Props Facts.

Lemma formatHistory_readable (history : list jsval) :
  readable history ->
  Api.formatHistory (JArr history)
  = Ok (map role_and_content (List.filter (fun msg => negb (is_loading msg)) history)).
Proof.
  intros Hr. unfold Api.formatHistory.
  rewrite (filterM_pure _ (fun msg => negb (is_loading msg))).
  - simpl. apply mapM_pure.
    eapply Forall_impl; [apply readable_filter, Hr|].
    intros msg Hmsg. simpl in Hmsg.
    rewrite !(get_field _ _ Hmsg). reflexivity.
  - eapply Forall_impl; [exact Hr|]. intros msg Hmsg. simpl in Hmsg.
    unfold is_loading. rewrite (get_field _ _ Hmsg). reflexivity.
Qed.

Lemma filterM_Ok {A} (p : A -> result bool) (l k : list A) :
  filterM p l = Ok k -> Forall (fun x => exists b, p x = Ok b) l.
Proof.
  revert k. induction l as [|x l IH]; intros k; simpl; [constructor|].
  destruct (p x) as [b|e] eqn:Hx; simpl; [|discriminate].
  destruct (filterM p l) as [k'|e] eqn:Hl; simpl; [|discriminate].
  intros _. constructor; [exists b; exact Hx|]. apply (IH k'). reflexivity.
Qed.

(** A history that has an unreadable entry is never sent. *)
Lemma formatHistory_Ok (history sent : list jsval) :
  Api.formatHistory (JArr history) = Ok sent -> readable history.
Proof.
  unfold Api.formatHistory.
  destruct (filterM _ history) as [kept|e] eqn:Hkept; simpl; [|discriminate].
  intros _. eapply Forall_impl; [apply (filterM_Ok _ _ _ Hkept)|].
  intros msg [b Hb]. destruct msg; simpl in *; congruence.
Qed.

(** What goes over the wire for one entry that is sent: a field of the
    message that is [undefined] is left out by [JSON.stringify]. *)
Lemma entry_on_the_wire (msg : jsval) :
  let wire := as_json (role_and_content msg) in
  keys wire
  = List.filter (fun key => negb (JSArray.is_undefined (field msg key))) ["role"; "content"]
  /\ field wire "role" = as_json (field msg "role")
  /\ field wire "content" = as_json (field msg "content")
  /\ is_loading wire = false.
Proof.
  unfold role_and_content.
  destruct (field msg "role") eqn:Hrole, (field msg "content") eqn:Hcontent;
    cbn -[String.eqb]; rewrite ?Hrole, ?Hcontent; cbn -[String.eqb];
    repeat split; reflexivity.
Qed.

Lemma sent_entries_on_the_wire (kept : list jsval) :
  as_json (JArr (map role_and_content kept))
  = JArr (map as_json (map role_and_content kept)).
Proof.
  cbn [as_json]. f_equal. rewrite !map_map. apply map_ext. intros msg. reflexivity.
Qed.

(** C1.  Whenever [getAIMessage] calls [fetch] for a history list, the
    entries of the list can all be read and the request carries, under
    [conversation_history], the entries whose [isLoading] flag is not
    set, in their original order ([kept] is a sublist of the history),
    each reduced to an object with the properties [role] and [content]
    and no other.  Over the wire every such entry has [role] and
    [content] of the message as its only fields, without the field whose
    value in the message is [undefined], and no [isLoading].  [fetch] is
    called, with this request, for every history list whose entries can
    all be read, and the answer is computed from what it gives back. *)
Theorem getAIMessage_history_sent (h : host) (userQuery : string) (history : list jsval) :
  (forall (req : request) (resume : fetch_outcome -> string -> result jsval),
     Api.getAIMessage h userQuery (JArr history) = Fetch req resume ->
     readable history
     /\ requests (Api.getAIMessage h userQuery (JArr history)) = [req]
     /\ (forall fetch now,
           settle fetch (Api.getAIMessage h userQuery (JArr history)) now
           = resume (fetch req) now)
     /\ exists kept sent : list jsval,
          req = {| url := API_BASE_URL h +:+ "/api/query";
                   body := JObj [("query", JStr userQuery);
                                 ("conversation_history", JArr sent)] |}
          /\ kept = List.filter (fun msg => negb (is_loading msg)) history
          /\ sublist kept history
          /\ Forall (fun msg => is_loading msg = false) kept
          /\ Forall2 (fun msg out =>
                        out = JObj [("role", field msg "role");
                                    ("content", field msg "content")]) kept sent
          /\ as_json (body req)
             = JObj [("query", JStr userQuery);
                     ("conversation_history", JArr (map as_json sent))]
          /\ Forall2 (fun msg wire =>
                        keys wire
                        = List.filter
                            (fun key => negb (JSArray.is_undefined (field msg key)))
                            ["role"; "content"]
                        /\ field wire "role" = as_json (field msg "role")
                        /\ field wire "content" = as_json (field msg "content")
                        /\ is_loading wire = false)
                     kept (map as_json sent))
  /\ (readable history ->
      exists req resume, Api.getAIMessage h userQuery (JArr history) = Fetch req resume).
Proof.
  split.
  2:{ intros Hr. unfold Api.getAIMessage, Api.getAIMessage_request.
      rewrite (formatHistory_readable _ Hr). cbn [mbind result_bind].
      eexists. eexists. reflexivity. }
  intros req resume Hcall.
  split.
  { revert Hcall. unfold Api.getAIMessage, Api.getAIMessage_request.
    destruct (Api.formatHistory (JArr history)) as [out|e] eqn:Hout;
      cbn [mbind result_bind]; [|discriminate].
    intros _. exact (formatHistory_Ok _ _ Hout). }
  split; [rewrite Hcall; reflexivity|].
  split; [intros fetch now; rewrite Hcall; reflexivity|].
  revert Hcall. unfold Api.getAIMessage, Api.getAIMessage_request.
  destruct (Api.formatHistory (JArr history)) as [out|e] eqn:Hout;
    cbn [mbind result_bind]; [|discriminate].
  pose proof (formatHistory_Ok _ _ Hout) as Hr.
  rewrite (formatHistory_readable _ Hr) in Hout. injection Hout as <-.
  intros [= <- _].
  exists (List.filter (fun msg => negb (is_loading msg)) history).
  exists (map role_and_content (List.filter (fun msg => negb (is_loading msg)) history)).
  split; [reflexivity|].
  split; [reflexivity|].
  split; [apply sublist_filter|].
  split.
  { apply Forall_forall. intros msg Hin.
    apply list_elem_of_In, filter_In in Hin. destruct Hin as [_ Hin].
    destruct (is_loading msg); [discriminate|reflexivity]. }
  split.
  { induction (List.filter _ history) as [|msg l IH]; simpl; constructor; auto. }
  split.
  { cbn [body]. change (as_json (JObj ?l)) with (as_json (JObj l)).
    pose proof (sent_entries_on_the_wire
                  (List.filter (fun msg => negb (is_loading msg)) history)) as Hwire.
    cbn [as_json] in Hwire |- *. injection Hwire as Hwire. rewrite Hwire. reflexivity. }
  induction (List.filter _ history) as [|msg l IH]; cbn [map]; constructor; [|exact IH].
  apply entry_on_the_wire.
Qed.

(** A history as [handleSend] passes it: the greeting, a question, and a
    stale placeholder in between. *)
Lemma getAIMessage_history_sent_witness :
  exists (req : request) (resume : fetch_outcome -> string -> result jsval)
         (kept sent : list jsval),
    Api.getAIMessage Sample.sample_host "Is PS11752778 in stock?"
      (JArr [ Sample.greeting; ChatWindow.loadingMessage; Sample.question ])
    = Fetch req resume
    /\ req = {| url := "http://localhost:5000/api/query";
                body := JObj [("query", JStr "Is PS11752778 in stock?");
                              ("conversation_history", JArr sent)] |}
    /\ kept = [ Sample.greeting; Sample.question ]
    /\ sent = [ JObj [("role", JStr "assistant");
                      ("content", JStr "Hi, how can I help you today?")];
                JObj [("role", JStr "user");
                      ("content", JStr "Is PS11752778 in stock?")] ]
    /\ as_json (body req) = body req.
Proof.
  destruct (getAIMessage_history_sent Sample.sample_host "Is PS11752778 in stock?"
              [ Sample.greeting; ChatWindow.loadingMessage; Sample.question ])
    as [Hsent _].
  eexists. eexists.
  destruct (Hsent _ _ eq_refl) as (_ & _ & _ & kept & sent & Hreq & Hkept & _).
  exists kept, sent. split; [reflexivity|].
  vm_compute in Hreq. injection Hreq as <-.
  split; [reflexivity|]. split; [exact Hkept|]. split; reflexivity.
Defined.

(** C1 as stated fails for a message that has no [content], as a session
    read back from the store may hold one: the message is sent, and over
    the wire its entry has the one field [role]. *)
Lemma getAIMessage_entry_without_content :
  exists (req : request) (resume : fetch_outcome -> string -> result jsval),
    Api.getAIMessage Sample.sample_host "Is PS11752778 in stock?"
      (JArr [ Sample.greeting; JObj [("role", JStr "user")] ])
    = Fetch req resume
    /\ as_json (body req)
       = JObj [("query", JStr "Is PS11752778 in stock?");
               ("conversation_history",
                JArr [ JObj [("role", JStr "assistant");
                             ("content", JStr "Hi, how can I help you today?")];
                       JObj [("role", JStr "user")] ])].
Proof. eexists. eexists. split; reflexivity. Defined.

Lemma apology_nonempty h error : is_nonempty_string (apology h error) = true.
Proof. reflexivity. Qed.

(** The content of the answer, by cases on what the network did. *)
Lemma getAIMessage_cases (h : host) (now : string) (fetch : request -> fetch_outcome)
    (userQuery : string) (conversationHistory : jsval) :
  exists content,
    settle fetch (Api.getAIMessage h userQuery conversationHistory) now
    = Ok (Api.message "assistant" content now)
    /\ match Api.getAIMessage_request h userQuery conversationHistory with
       | Throw e => content = apology h e
       | Ok req =>
           match fetch req with
           | Rejected reason => content = apology h (Error reason)
           | Responded status text json =>
               if ok_status status then
                 match json with
                 | Throw e => content = apology h e
                 | Ok data =>
                     if nullish data then content = apology h (TypeError (Reading data "response"))
                     else content = or_else (field data "response") fallback
                 end
               else content = apology h (http_error status text)
           end
       end.
Proof.
  unfold Api.getAIMessage.
  destruct (Api.getAIMessage_request h userQuery conversationHistory) as [req|e]; simpl.
  2:{ eexists; split; reflexivity. }
  destruct (fetch req) as [reason|status text json]; simpl.
  { eexists; split; reflexivity. }
  destruct (ok_status status); simpl.
  - destruct json as [data|e]; simpl; [|eexists; split; reflexivity].
    destruct (nullish data) eqn:Hn.
    + destruct data; try discriminate; simpl; eexists; split; reflexivity.
    + rewrite (get_field _ _ Hn). simpl. eexists; split; reflexivity.
  - destruct text as [errorText|e]; simpl; eexists; split; reflexivity.
Qed.

Lemma frontend_getAIMessage_cases (h : host) (fetch : request -> fetch_outcome)
    (userQuery : string) :
  exists content,
    settle fetch (FrontendApi.getAIMessage h userQuery)
    = Ok (JObj [("role", JStr "assistant"); ("content", content)])
    /\ match fetch (FrontendApi.getAIMessage_request h userQuery) with
       | Rejected reason => content = apology h (Error reason)
       | Responded status text json =>
           if ok_status status then
             match json with
             | Throw e => content = apology h e
             | Ok data =>
                 if nullish data then content = apology h (TypeError (Reading data "response"))
                 else content = or_else (field data "response") fallback
             end
           else content = apology h (http_error status text)
       end.
Proof.
  unfold FrontendApi.getAIMessage, settle.
  destruct (fetch _) as [reason|status text json]; simpl.
  { eexists; split; reflexivity. }
  destruct (ok_status status); simpl.
  - destruct json as [data|e]; simpl; [|eexists; split; reflexivity].
    destruct (nullish data) eqn:Hn.
    + destruct data; try discriminate; simpl; eexists; split; reflexivity.
    + rewrite (get_field _ _ Hn). simpl. eexists; split; reflexivity.
  - destruct text as [errorText|e]; simpl; eexists; split; reflexivity.
Qed.

Lemma or_else_fallback v :
  is_nonempty_string (or_else v fallback) = true
  \/ (or_else v fallback = v /\ truthy v = true /\ is_nonempty_string v = false).
Proof.
  unfold or_else. destruct (truthy v) eqn:Ht; [|left; reflexivity].
  destruct (is_nonempty_string v) eqn:Hs; [left; reflexivity|right; auto].
Qed.

(** C4, as the code has it.  Whatever the history and whatever the
    network does, both revisions of [getAIMessage] return (they never
    throw) an object whose [role] is [assistant].  On a response with a
    status outside 200..299 the content is the local apology; on a 2xx
    response whose body is not [null] and has no (or a falsy) [response]
    field it is the fallback text; on a 2xx response whose body is
    [null] it is the apology again.  The content is a non-empty string
    in every case but one: a 2xx response whose [response] field is
    truthy and not a string is passed on as it is. *)
Theorem getAIMessage_always_answers (h : host) (now : string)
    (fetch : request -> fetch_outcome) (userQuery : string) (conversationHistory : jsval) :
  (exists content,
     settle fetch (Api.getAIMessage h userQuery conversationHistory) now
     = Ok (Api.message "assistant" content now)
     /\ (forall req status text json,
           Api.getAIMessage_request h userQuery conversationHistory = Ok req ->
           fetch req = Responded status text json ->
           ok_status status = false ->
           content = apology h (http_error status text))
     /\ (forall req status text data,
           Api.getAIMessage_request h userQuery conversationHistory = Ok req ->
           fetch req = Responded status text (Ok data) ->
           ok_status status = true ->
           (nullish data = false ->
            truthy (field data "response") = false ->
            content = fallback)
           /\ (nullish data = true -> content = apology h (TypeError (Reading data "response"))))
     /\ (is_nonempty_string content = true
         \/ exists req status text data,
              Api.getAIMessage_request h userQuery conversationHistory = Ok req
              /\ fetch req = Responded status text (Ok data)
              /\ ok_status status = true
              /\ content = field data "response"
              /\ truthy content = true
              /\ is_nonempty_string content = false))
  /\ (exists content,
       settle fetch (FrontendApi.getAIMessage h userQuery)
       = Ok (JObj [("role", JStr "assistant"); ("content", content)])
       /\ (forall status text json,
             fetch (FrontendApi.getAIMessage_request h userQuery)
             = Responded status text json ->
             ok_status status = false ->
             content = apology h (http_error status text))
       /\ (forall status text data,
             fetch (FrontendApi.getAIMessage_request h userQuery)
             = Responded status text (Ok data) ->
             ok_status status = true ->
             (nullish data = false ->
              truthy (field data "response") = false ->
              content = fallback)
             /\ (nullish data = true -> content = apology h (TypeError (Reading data "response"))))
       /\ (is_nonempty_string content = true
           \/ exists status text data,
                fetch (FrontendApi.getAIMessage_request h userQuery)
                = Responded status text (Ok data)
                /\ ok_status status = true
                /\ content = field data "response"
                /\ truthy content = true
                /\ is_nonempty_string content = false)).
Proof.
  split.
  - destruct (getAIMessage_cases h now fetch userQuery conversationHistory)
      as (content & Hret & Hcases).
    exists content. split; [exact Hret|].
    destruct (Api.getAIMessage_request h userQuery conversationHistory) as [req|e];
      [|subst content; repeat split; try (intros; congruence);
        left; apply apology_nonempty].
    destruct (fetch req) as [reason|status text json] eqn:Hfetch;
      [subst content; repeat split; try (intros; congruence);
       left; apply apology_nonempty|].
    destruct (ok_status status) eqn:Hok;
      [|subst content; repeat split; try (intros; congruence);
        left; apply apology_nonempty].
    destruct json as [data|e];
      [|subst content; repeat split; try (intros; congruence);
        left; apply apology_nonempty].
    destruct (nullish data) eqn:Hn.
    { subst content. repeat split; try (intros; congruence).
      left. apply apology_nonempty. }
    split; [intros; congruence|]. split.
    + intros req' status' text' data' Hreq Hf _.
      assert (data' = data) as -> by congruence.
      split; [|congruence]. intros _ Hfalsy.
      subst content. unfold or_else. rewrite Hfalsy. reflexivity.
    + destruct (or_else_fallback (field data "response")) as [Hs|(Heq & Ht & Hs)].
      { left. congruence. }
      right. exists req, status, text, data.
      subst content. rewrite Heq. repeat split; assumption || reflexivity.
  - destruct (frontend_getAIMessage_cases h fetch userQuery) as (content & Hret & Hcases).
    exists content. split; [exact Hret|].
    destruct (fetch _) as [reason|status text json] eqn:Hfetch;
      [subst content; repeat split; try (intros; congruence);
       left; apply apology_nonempty|].
    destruct (ok_status status) eqn:Hok;
      [|subst content; repeat split; try (intros; congruence);
        left; apply apology_nonempty].
    destruct json as [data|e];
      [|subst content; repeat split; try (intros; congruence);
        left; apply apology_nonempty].
    destruct (nullish data) eqn:Hn.
    { subst content. repeat split; try (intros; congruence).
      left. apply apology_nonempty. }
    split; [intros; congruence|]. split.
    + intros status' text' data' Hf _.
      assert (data' = data) as -> by congruence.
      split; [|congruence]. intros _ Hfalsy.
      subst content. unfold or_else. rewrite Hfalsy. reflexivity.
    + destruct (or_else_fallback (field data "response")) as [Hs|(Heq & Ht & Hs)].
      { left. congruence. }
      right. exists status, text, data.
      subst content. rewrite Heq. repeat split; assumption || reflexivity.
Qed.

(** The backend answers 500: the user reads the local apology. *)
Lemma getAIMessage_always_answers_witness :
  settle (fun _ => Responded 500 (Ok "Internal Server Error") (Throw SyntaxError))
    (Api.getAIMessage Sample.sample_host "Is PS11752778 in stock?" (JArr []))
    "2026-11-02T09:00:00.000Z"
  = Ok (Api.message "assistant"
          (JStr ("Sorry, I encountered an error while processing your request: "
                 +:+ "HTTP error! Status: 500" +:+ ". Please try again later."))
          "2026-11-02T09:00:00.000Z").
Proof.
  destruct (getAIMessage_always_answers Sample.sample_host "2026-11-02T09:00:00.000Z"
              (fun _ => Responded 500 (Ok "Internal Server Error") (Throw SyntaxError))
              "Is PS11752778 in stock?" (JArr []))
    as [(content & Hret & H500 & _) _].
  rewrite Hret.
  rewrite (H500 _ 500%Z (Ok "Internal Server Error") (Throw SyntaxError) eq_refl eq_refl eq_refl).
  vm_compute. reflexivity.
Defined.

(** C4 as stated fails: a 2xx body whose [response] field is an object
    (here [{"response": {"text": "In stock"}}]) comes back as the
    content, which is then not a string.  Both revisions behave so. *)
Lemma getAIMessage_content_not_a_string :
  settle (fun _ => Responded 200 (Ok "")
                     (Ok (JObj [("response", JObj [("text", JStr "In stock")])])))
    (Api.getAIMessage Sample.sample_host "Is PS11752778 in stock?" (JArr []))
    "2026-11-02T09:00:00.000Z"
  = Ok (Api.message "assistant" (JObj [("text", JStr "In stock")])
          "2026-11-02T09:00:00.000Z")
  /\ settle (fun _ => Responded 200 (Ok "")
                        (Ok (JObj [("response", JObj [("text", JStr "In stock")])])))
       (FrontendApi.getAIMessage Sample.sample_host "Is PS11752778 in stock?")
     = Ok (JObj [("role", JStr "assistant");
                 ("content", JObj [("text", JStr "In stock")])])
  /\ is_nonempty_string (JObj [("text", JStr "In stock")]) = false.
Proof. repeat split. Qed.

End ApiProps.

(** *** The renderer of fenced blocks *)
Module RendererProps.
Import Props Facts ChatWindow.

Lemma render_tag_test language :
  render_tag language ->
  String.eqb language "json-to-render" || String.eqb language "dictionary-list-to-render"
  = true.
Proof. intros [-> | ->]; reflexivity. Qed.

(** The renderer by cases; in none of them does it throw. *)
Lemma renderer_code_cases (h : host) (code language : string) :
  renderer_code h code language
  = Ok (if String.eqb language "json-to-render"
           || String.eqb language "dictionary-list-to-render"
        then match JSON_parse h code with
             | Some jsonData =>
                 match product_fragment jsonData with
                 | Ok html => html
                 | Throw _ => originalCodeRenderer h code language
                 end
             | None => originalCodeRenderer h code language
             end
        else originalCodeRenderer h code language).
Proof.
  unfold renderer_code.
  destruct (_ || _); [|reflexivity].
  destruct (JSON_parse h code) as [jsonData|]; simpl; [|reflexivity].
  fold (product_fragment jsonData).
  destruct (product_fragment jsonData); reflexivity.
Qed.

(** C2, as the code has it.  For a block under either tag whose body
    parses, the shape of the payload selects the fragment, and the tag
    plays no part in it: an array is rendered as a product list, anything
    else as a single product card; if building the fragment throws, the
    block is rendered as literal text. *)
Theorem renderer_code_by_payload (h : host) (code language : string) (jsonData : jsval) :
  render_tag language ->
  JSON_parse h code = Some jsonData ->
  renderer_code h code language
  = Ok (match product_fragment jsonData with
        | Ok html => html
        | Throw _ => originalCodeRenderer h code language
        end).
Proof.
  intros Htag Hparse.
  rewrite renderer_code_cases, (render_tag_test _ Htag), Hparse. reflexivity.
Qed.

(** An object under the list tag: a card. *)
Lemma renderer_code_by_payload_witness :
  renderer_code Sample.sample_host "{}" "dictionary-list-to-render"
  = renderProductCard (JObj []).
Proof.
  rewrite (renderer_code_by_payload Sample.sample_host "{}" "dictionary-list-to-render"
             (JObj []) (or_intror eq_refl) eq_refl).
  reflexivity.
Defined.

(** C2 as stated fails: under [json-to-render] the array payload [[]]
    gets the list rendering, not the card rendering of that payload. *)
Lemma json_to_render_array_is_a_list :
  renderer_code Sample.sample_host "[]" "json-to-render" = Ok "<p>No products found</p>"
  /\ renderProductList [] = Ok "<p>No products found</p>"
  /\ renderProductCard (JArr []) <> Ok "<p>No products found</p>".
Proof. repeat split. vm_compute. discriminate. Qed.

(** C3.  A block under either tag whose body [JSON.parse] rejects is
    rendered by the default code renderer, unchanged, and rendering
    returns. *)
Theorem renderer_code_malformed (h : host) (code language : string) :
  render_tag language ->
  JSON_parse h code = None ->
  renderer_code h code language = Ok (originalCodeRenderer h code language).
Proof.
  intros Htag Hparse.
  rewrite renderer_code_cases, (render_tag_test _ Htag), Hparse. reflexivity.
Qed.

Lemma renderer_code_malformed_witness :
  renderer_code Sample.sample_host "{part_name: Ice Maker" "json-to-render"
  = Ok "<pre><code>{part_name: Ice Maker</code></pre>".
Proof.
  rewrite (renderer_code_malformed Sample.sample_host "{part_name: Ice Maker"
             "json-to-render" (or_introl eq_refl) eq_refl).
  reflexivity.
Defined.

(** C5, as the code has it.  A [dictionary-list-to-render] block whose
    payload is the empty array is rendered as the paragraph
    [<p>No products found</p>]: a sentence, not a product list without
    cards. *)
Theorem renderer_code_empty_list (h : host) (code : string) :
  JSON_parse h code = Some (JArr []) ->
  renderer_code h code "dictionary-list-to-render" = Ok "<p>No products found</p>"
  /\ renderProductList [] = Ok "<p>No products found</p>".
Proof.
  intros Hparse. split; [|reflexivity].
  rewrite renderer_code_cases, Hparse. reflexivity.
Qed.

Lemma renderer_code_empty_list_witness :
  renderer_code Sample.sample_host "[]" "dictionary-list-to-render"
  = Ok "<p>No products found</p>".
Proof.
  exact (proj1 (renderer_code_empty_list Sample.sample_host "[]" eq_refl)).
Defined.

(** C5 as stated fails: the sentence is not the one the claim quotes. *)
Lemma empty_list_sentence :
  renderer_code Sample.sample_host "[]" "dictionary-list-to-render"
  = Ok "<p>No products found</p>"
  /\ renderer_code Sample.sample_host "[]" "dictionary-list-to-render"
     <> Ok "no replacement parts found".
Proof. split; [reflexivity|]. vm_compute. discriminate. Qed.

End RendererProps.

(** *** [trim] on blank text *)
Module TrimProps.
Import Trim.

Lemma WhiteSpace_first (w l : list ascii) :
  w ∈ WhiteSpace -> drop_first WhiteSpace (w ++ l) = Some l /\ 1 <= length w.
Proof.
  unfold WhiteSpace. simpl. intros Hw.
  repeat (apply elem_of_cons in Hw as [-> | Hw]; [split; [reflexivity|simpl; lia]|]).
  apply elem_of_nil in Hw. destruct Hw.
Qed.

Lemma drop_while_step ws fuel l r :
  drop_first ws l = Some r -> drop_while ws (S fuel) l = drop_while ws fuel r.
Proof. intros H. simpl. rewrite H. reflexivity. Qed.

Lemma drop_while_blank (l : list ascii) :
  blank l -> forall fuel, length l <= fuel -> drop_while WhiteSpace fuel l = [].
Proof.
  induction 1 as [|w l Hw Hl IH]; intros fuel Hfuel.
  - destruct fuel; reflexivity.
  - destruct (WhiteSpace_first w l Hw) as [Hfirst Hlen].
    rewrite length_app in Hfuel.
    destruct fuel as [|fuel]; [lia|].
    rewrite (drop_while_step _ _ _ _ Hfirst). apply IH. lia.
Qed.

Lemma trim_blank (s : string) : blank (list_ascii_of_string s) -> trim s = "".
Proof.
  intros Hs. unfold trim, trimStart.
  rewrite (drop_while_blank _ Hs) by lia. reflexivity.
Qed.

End TrimProps.

(** *** [handleSend] *)
Module HandleSendProps.
Import Props Facts Trim ChatWindow.

Lemma settled_app l k : settled (l ++ k) = settled l ++ settled k.
Proof. apply List.filter_app. Qed.

Lemma replaceLoading_readable (last : jsval) (s : state) :
  readable (messages s) ->
  replaceLoading last s = Ok (setMessages (settled (messages s) ++ [last]) s).
Proof.
  intros Hr. unfold replaceLoading.
  rewrite (filterM_pure _ (fun msg => negb (is_loading msg)) _ (notLoading_pure _ Hr)).
  reflexivity.
Qed.

(** The continuation of [handleSend] works on the list the state holds
    when the answer arrives, whatever happened in between: it drops the
    placeholders and adds the reply at the end. *)
Lemma handleSend_end_appends (now : string) (answer : result jsval) (s : state) :
  readable (messages s) ->
  exists reply,
    handleSend_end now answer s
    = Ok (setIsLoading false (setMessages (settled (messages s) ++ [reply]) s))
    /\ reply = match answer with
               | Ok aiResponse => aiResponse
               | Throw _ =>
                   Api.message "assistant"
                     (JStr "Sorry, I encountered an error. Please try again later.") now
               end.
Proof.
  intros Hr. unfold handleSend_end.
  destruct answer as [aiResponse|e]; rewrite (replaceLoading_readable _ _ Hr);
    eexists; split; reflexivity.
Qed.

(** C9.  When the input is empty or white space only, submitting the
    form does nothing: [handleSend] takes its early return, the state it
    leaves is the state it found (the messages are the same and no
    request went out), and the send button is disabled. *)
Theorem handleSend_blank_input (h : host) (now later : string)
    (fetch : request -> fetch_outcome) (meanwhile : state -> state) (s : state) :
  blank (list_ascii_of_string (input s)) ->
  handleSend_begin h now s = None
  /\ (exists s', handleSend h now later fetch meanwhile s = Ok s'
                 /\ s' = s
                 /\ messages s' = messages s
                 /\ outbox s' = outbox s)
  /\ send_disabled s = true.
Proof.
  intros Hblank. pose proof (TrimProps.trim_blank _ Hblank) as Htrim.
  unfold handleSend, handleSend_begin, send_disabled.
  rewrite Htrim. simpl. split; [reflexivity|]. split.
  - exists s. repeat split.
  - apply orb_true_r.
Qed.

(** Three spaces in the input box. *)
Lemma handleSend_blank_input_witness :
  handleSend Sample.sample_host "2026-11-02T09:00:00.000Z" "2026-11-02T09:00:01.000Z"
    (fun _ => Rejected "Failed to fetch") (fun st => st)
    (State [Sample.greeting] "   " false [] JNull false ∅ [] [])
  = Ok (State [Sample.greeting] "   " false [] JNull false ∅ [] []).
Proof.
  destruct (handleSend_blank_input Sample.sample_host
              "2026-11-02T09:00:00.000Z" "2026-11-02T09:00:01.000Z"
              (fun _ => Rejected "Failed to fetch") (fun st => st)
              (State [Sample.greeting] "   " false [] JNull false ∅ [] []))
    as (_ & (s' & Hsend & Hsame & _) & _).
  { simpl.
    apply (blank_cons [" "%char]); [unfold WhiteSpace; simpl; set_solver|].
    apply (blank_cons [" "%char]); [unfold WhiteSpace; simpl; set_solver|].
    apply (blank_cons [" "%char]); [unfold WhiteSpace; simpl; set_solver|].
    apply blank_nil. }
  rewrite Hsend, Hsame. reflexivity.
Defined.

Lemma handleSend_begin_messages (h : host) (now : string) (s : state) :
  trim (input s) <> "" ->
  exists s1,
    handleSend_begin h now s
    = Some (s1, Pending (input s) (messages s ++ [userMessage now (input s)]))
    /\ messages s1 = messages s ++ [userMessage now (input s); loadingMessage].
Proof.
  intros Hinput. unfold handleSend_begin.
  apply String.eqb_neq in Hinput. rewrite Hinput.
  cbv zeta. fold (userMessage now (input s)).
  eexists. split; [reflexivity|].
  destruct (Api.getAIMessage h (input s) _); cbn [messages fetch_called setMessages];
    rewrite <- app_assoc; reflexivity.
Qed.

(** C7.  One turn of [handleSend] on a non-blank input, the messages of
    the state all readable.  Up to the [await] the turn adds the user's
    message and the placeholder at the end of the list it found.  When
    the answer arrives the list the state then holds is the one that is
    continued, whatever the other handlers ([meanwhile]) made of it: the
    turn ends (it does not throw) and leaves that list without its
    placeholders, every other message unchanged and in its place,
    followed by the reply (the answer of [getAIMessage], whose role is
    [assistant]).  So in a turn in which the list is not replaced while
    the request is in flight, the list left is the list found without
    its placeholders, followed by exactly two new messages: the user's
    and the reply. *)
Theorem handleSend_only_appends (h : host) (now later : string)
    (fetch : request -> fetch_outcome) (meanwhile : state -> state) (s : state) :
  readable (messages s) ->
  trim (input s) <> "" ->
  exists s1 p,
    handleSend_begin h now s = Some (s1, p)
    /\ messages s1 = messages s ++ [userMessage now (input s); loadingMessage]
    /\ (readable (messages (meanwhile s1)) ->
        exists s' reply,
          handleSend h now later fetch meanwhile s = Ok s'
          /\ messages s' = settled (messages (meanwhile s1)) ++ [reply]
          /\ sublist (settled (messages (meanwhile s1))) (messages (meanwhile s1))
          /\ field reply "role" = JStr "assistant"
          /\ is_loading reply = false
          /\ (messages (meanwhile s1) = messages s1 ->
              messages s'
              = settled (messages s) ++ [userMessage now (input s); reply]
              /\ sublist (settled (messages s)) (messages s)
              /\ is_loading (userMessage now (input s)) = false)).
Proof.
  intros Hr Hinput.
  destruct (handleSend_begin_messages h now s Hinput) as (s1 & Hbegin & Hm).
  exists s1. eexists. split; [exact Hbegin|]. split; [exact Hm|].
  intros Hr'.
  destruct (ApiProps.getAIMessage_cases h later fetch (input s)
              (JArr (messages s ++ [userMessage now (input s)])))
    as (content & Hanswer & _).
  destruct (handleSend_end_appends later
              (Ok (Api.message "assistant" content later)) (meanwhile s1) Hr')
    as (reply & Hend & ->).
  eexists. exists (Api.message "assistant" content later).
  split.
  { unfold handleSend. rewrite Hbegin. cbn [userContent updatedMessages].
    rewrite Hanswer. exact Hend. }
  split; [reflexivity|].
  split; [apply sublist_filter|].
  split; [reflexivity|]. split; [reflexivity|].
  intros Hsame. split; [|split; [apply sublist_filter|reflexivity]].
  cbn [messages setIsLoading setMessages]. rewrite Hsame, Hm.
  change [userMessage now (input s); loadingMessage]
    with ([userMessage now (input s)] ++ [loadingMessage]).
  rewrite !settled_app, <- !app_assoc. reflexivity.
Qed.

(** The greeting and a stale placeholder on screen, a question in the
    box, and a backend that answers it; nothing else is done while the
    request is in flight. *)
Lemma handleSend_only_appends_witness :
  exists s',
    handleSend Sample.sample_host "2026-11-02T09:00:00.000Z" "2026-11-02T09:00:01.000Z"
      (fun _ => Responded 200 (Ok "")
                  (Ok (JObj [("response", JStr "Yes, PS11752778 is in stock.")])))
      (fun st => st)
      (State [Sample.greeting; loadingMessage]
             "Is PS11752778 in stock?" false [] JNull false ∅ [] [])
    = Ok s'
    /\ messages s'
       = [ Sample.greeting; Sample.question;
           Api.message "assistant" (JStr "Yes, PS11752778 is in stock.")
             "2026-11-02T09:00:01.000Z" ]
    /\ length (outbox s') = 1.
Proof.
  destruct (handleSend_only_appends Sample.sample_host
              "2026-11-02T09:00:00.000Z" "2026-11-02T09:00:01.000Z"
              (fun _ => Responded 200 (Ok "")
                          (Ok (JObj [("response", JStr "Yes, PS11752778 is in stock.")])))
              (fun st => st)
              (State [Sample.greeting; loadingMessage]
                     "Is PS11752778 in stock?" false [] JNull false ∅ [] []))
    as (s1 & p & Hbegin & Hm & Hturn).
  { repeat constructor. }
  { vm_compute. discriminate. }
  destruct Hturn as (s' & reply & Hsend & _).
  { rewrite Hm. repeat constructor. }
  exists s'. split; [exact Hsend|].
  vm_compute in Hsend. injection Hsend as <-. split; reflexivity.
Defined.

(** C7 as stated fails when [+ New Chat] is pressed while the request is
    in flight, which the component allows.  A session with a question and
    its answer; a second question is sent at ten past nine, a new chat is
    started two seconds later, the answer arrives after five.  The list
    the turn leaves is the welcome message of the new session and the
    reply: the first question, its answer, and the question just asked
    are gone. *)
Lemma handleSend_new_chat_in_flight :
  exists s',
    handleSend SessionSamples.browser "2026-11-02T09:10:00.000Z" "2026-11-02T09:10:05.000Z"
      (fun _ => Responded 200 (Ok "")
                  (Ok (JObj [("response", JStr "The upper rack is W10350375.")])))
      (Sessions.startNewChat SessionSamples.browser "m2x5p3" "2026-11-02T09:10:02.000Z"
         "2026-11-02T08:00:00.000Z")
      (setInput "Which rack fits WDT780SAEM1?"
         (setMessages SessionSamples.answered SessionSamples.visited))
    = Ok s'
    /\ settled SessionSamples.answered
       = Sessions.defaultMessage "2026-11-02T08:00:00.000Z"
         ++ [ Sample.question;
              Api.message "assistant" (JStr "Yes, it ships today.")
                "2026-11-02T09:00:05.000Z" ]
    /\ messages s'
       = Sessions.defaultMessage "2026-11-02T08:00:00.000Z"
         ++ [ Api.message "assistant" (JStr "The upper rack is W10350375.")
                "2026-11-02T09:10:05.000Z" ].
Proof. eexists. split; [vm_compute; reflexivity|]. split; reflexivity. Defined.

End HandleSendProps.

(** *** [sort] with a comparator that is a difference of keys *)
Module SortProps.
Import Props JSArray.

Section Keyed.
Context {A : Type} (cmp : A -> A -> result (option Z)) (key : A -> Z).

Lemma insert_from_right_sorted (x : A) (racc : list A) :
  keyed cmp key (x :: racc) ->
  ascending key racc ->
  exists r, insert_from_right cmp x racc = Ok r
            /\ r ≡ₚ x :: racc
            /\ ascending key r.
Proof.
  induction racc as [|y rest IH]; intros Hk Hs.
  - exists [x]. repeat split; [reflexivity|]. repeat constructor.
  - simpl. rewrite (Hk x y) by (rewrite !elem_of_cons; tauto). simpl.
    apply StronglySorted_inv in Hs as [Hrest Hy].
    destruct (key y - key x <? 0)%Z eqn:Hlt.
    + destruct IH as (r & Hr & Hperm & Hsorted).
      { intros a b Ha Hb.
        apply Hk; [revert Ha|revert Hb]; rewrite !elem_of_cons; tauto. }
      { exact Hrest. }
      rewrite Hr. simpl. exists (y :: r). split; [reflexivity|]. split.
      * rewrite Hperm. apply perm_swap.
      * constructor; [exact Hsorted|].
        rewrite Hperm. constructor; [|exact Hy].
        apply Z.ltb_lt in Hlt. lia.
    + exists (x :: y :: rest). split; [reflexivity|]. split; [reflexivity|].
      apply Z.ltb_ge in Hlt.
      constructor; [constructor; assumption|].
      constructor; [lia|].
      eapply Forall_impl; [exact Hy|]. simpl. intros; lia.
Qed.

Lemma insertion_pass_sorted (todo racc : list A) :
  keyed cmp key (racc ++ todo) ->
  ascending key racc ->
  exists r, insertion_pass cmp racc todo = Ok r
            /\ r ≡ₚ racc ++ todo
            /\ ascending key r.
Proof.
  revert racc. induction todo as [|x todo IH]; intros racc Hk Hs.
  - exists racc. rewrite app_nil_r. repeat split; [reflexivity|exact Hs].
  - simpl.
    destruct (insert_from_right_sorted x racc) as (r1 & Hr1 & Hp1 & Hs1).
    { intros a b Ha Hb.
      apply Hk; [revert Ha|revert Hb];
        rewrite elem_of_cons, elem_of_app, elem_of_cons; tauto. }
    { exact Hs. }
    rewrite Hr1. simpl.
    destruct (IH r1) as (r & Hr & Hp & Hsorted).
    { intros a b Ha Hb.
      apply Hk; [revert Ha|revert Hb];
        rewrite !elem_of_app, Hp1, !elem_of_cons; tauto. }
    { exact Hs1. }
    exists r. split; [exact Hr|]. split; [|exact Hsorted].
    rewrite Hp, Hp1. simpl. rewrite Permutation_middle. reflexivity.
Qed.

Lemma ascending_rev (l : list A) : ascending key l -> descending key (rev l).
Proof.
  unfold ascending, descending. induction 1 as [|a l Hl IH Ha]; simpl.
  - constructor.
  - apply StronglySorted_app. split; [|split; [exact IH|repeat constructor]].
    intros x1 x2 Hx1 Hx2. apply list_elem_of_singleton in Hx2 as ->.
    rewrite Forall_forall in Ha. apply Ha.
    apply list_elem_of_In. apply list_elem_of_In in Hx1.
    apply in_rev. exact Hx1.
Qed.

End Keyed.

Lemma sortM_sorted (cmp : jsval -> jsval -> result (option Z)) (key : jsval -> Z)
    (l : list jsval) :
  Forall (fun v => is_undefined v = false) l ->
  keyed cmp key l ->
  exists r, sortM cmp l = Ok r /\ r ≡ₚ l /\ descending key r.
Proof.
  intros Hdef Hk. unfold sortM.
  assert (List.filter (fun v => negb (is_undefined v)) l = l) as ->.
  { clear Hk. induction Hdef as [|v l Hv _ IH]; simpl; [reflexivity|].
    rewrite Hv. simpl. rewrite IH. reflexivity. }
  assert (List.filter is_undefined l = []) as ->.
  { clear Hk. induction Hdef as [|v l Hv _ IH]; simpl; [reflexivity|].
    rewrite Hv. exact IH. }
  destruct (insertion_pass_sorted cmp key l []) as (racc & Hpass & Hperm & Hsorted).
  { exact Hk. }
  { constructor. }
  rewrite Hpass. simpl. exists (rev racc). rewrite app_nil_r.
  split; [reflexivity|]. split.
  - rewrite <- Hperm. symmetry. apply Permutation_rev.
  - apply ascending_rev. exact Hsorted.
Qed.

End SortProps.

(** *** The session store *)
Module ChatHistoryProps.
Import Props Facts Terms JSArray ChatHistory.

Lemma findIndexM_pure {A} (p : A -> result bool) (q : A -> bool) (l : list A) :
  Forall (fun x => p x = Ok (q x)) l -> findIndexM p l = Ok (findIndex q l).
Proof.
  induction 1 as [|x l Hx _ IH]; simpl; [reflexivity|].
  rewrite Hx. simpl. destruct (q x); [reflexivity|].
  rewrite IH. reflexivity.
Qed.

Lemma findIndex_Some {A} (q : A -> bool) (l : list A) (i : nat) :
  findIndex q l = Some i ->
  exists x, l !! i = Some x /\ q x = true /\ Forall (fun y => q y = false) (take i l).
Proof.
  revert i. induction l as [|y l IH]; intros i; simpl; [discriminate|].
  destruct (q y) eqn:Hy.
  - intros [= <-]. exists y. repeat split; [exact Hy|constructor].
  - destruct (findIndex q l) as [j|]; [|discriminate].
    intros [= <-]. destruct (IH j eq_refl) as (x & Hx & Hq & Hbefore).
    exists x. repeat split; [exact Hx|exact Hq|].
    simpl. constructor; assumption.
Qed.

Lemma findIndex_None {A} (q : A -> bool) (l : list A) :
  findIndex q l = None -> Forall (fun y => q y = false) l.
Proof.
  induction l as [|y l IH]; simpl; [constructor|].
  destruct (q y) eqn:Hy; [discriminate|].
  destruct (findIndex q l); [discriminate|].
  intros _. constructor; [exact Hy|]. apply IH. reflexivity.
Qed.

Lemma own_obj_set key v fields : own (obj_set key v fields) key = Some v.
Proof. rewrite own_obj_set_any, String.eqb_refl. reflexivity. Qed.

Lemma lastUpdated_set now fields :
  field (JObj (obj_set "lastUpdated" (JStr now) fields)) "lastUpdated" = JStr now.
Proof. unfold field. simpl. rewrite own_obj_set. reflexivity. Qed.

Lemma by_lastUpdated_keyed (h : host) (l : list jsval) :
  readable l -> dated h l -> keyed (by_lastUpdated h) (time_key h) l.
Proof.
  unfold readable, dated. rewrite !Forall_forall. intros Hr Hd a b Ha Hb.
  unfold by_lastUpdated, time_key.
  rewrite (get_field b _ (Hr b Hb)), (get_field a _ (Hr a Ha)). simpl.
  destruct (Hd a Ha) as [ta Hta]. destruct (Hd b Hb) as [tb Htb].
  rewrite Hta, Htb. simpl.
  unfold time_of in Hta, Htb.
  destruct (Date_value h (field b "lastUpdated")) as [[?|]|]; try discriminate.
  destruct (Date_value h (field a "lastUpdated")) as [[?|]|]; try discriminate.
  simpl. congruence.
Qed.

Lemma descending_newest_first (h : host) (l : list jsval) :
  descending (time_key h) l -> newest_first h l.
Proof.
  unfold descending, newest_first.
  induction 1 as [|a l _ IH Ha]; constructor; [exact IH|].
  eapply Forall_impl; [exact Ha|]. intros b Hb ta tb Hta Htb.
  unfold time_key in Hb. rewrite Hta, Htb in Hb. exact Hb.
Qed.

Lemma saved_session_dated (h : host) (now : string) (t : Z) fields :
  Date_parse h now = Some t ->
  time_of h (JObj (obj_set "lastUpdated" (JStr now) fields)) = Some t.
Proof.
  intros Hnow. unfold time_of. rewrite lastUpdated_set. simpl. rewrite Hnow. reflexivity.
Qed.

Lemma readable_defined (l : list jsval) :
  readable l -> Forall (fun v => is_undefined v = false) l.
Proof.
  unfold readable. intros Hr. eapply Forall_impl; [exact Hr|].
  intros v. destruct v; simpl; congruence.
Qed.

Lemma saveChatSession_sorts (h : host) (now : string) (chatSession : jsval)
    (localStorage : gmap string string) (histories : list jsval) (t : Z) :
  standard_sort h ->
  getAllChatHistories h localStorage = JArr histories ->
  readable histories ->
  nullish chatSession = false ->
  dated h histories ->
  Date_parse h now = Some t ->
  exists stored,
    saveChatSession h now chatSession localStorage
    = (true, <[ CHAT_HISTORY_KEY := JSON_stringify h (JArr stored) ]> localStorage)
    /\ stored ≡ₚ upserted now chatSession histories
    /\ newest_first h stored.
Proof.
  intros Hstd Hget Hr Hsession Hd Hnow.
  unfold saveChatSession, saveChatSession_list. rewrite Hget.
  rewrite (findIndexM_pure _ (has_id (field chatSession "id"))).
  2:{ eapply Forall_impl; [exact Hr|]. intros session Hs. simpl in Hs.
      rewrite (get_field _ _ Hs), (get_field _ _ Hsession). reflexivity. }
  simpl. fold (upserted now chatSession histories).
  assert (readable (upserted now chatSession histories)) as Hr'.
  { unfold upserted, readable. destruct (findIndex _ _).
    - apply Forall_insert; [exact Hr|reflexivity].
    - apply Forall_app. split; [exact Hr|repeat constructor]. }
  assert (keyed (by_lastUpdated h) (time_key h) (upserted now chatSession histories))
    as Hkeyed.
  { apply by_lastUpdated_keyed; [exact Hr'|]. unfold upserted, dated.
    destruct (findIndex _ _).
    - apply Forall_insert; [exact Hd|].
      exists t. apply saved_session_dated, Hnow.
    - apply Forall_app. split; [exact Hd|]. repeat constructor.
      exists t. apply saved_session_dated, Hnow. }
  rewrite (proj1 Hstd _ (time_key h) _ (readable_defined _ Hr') Hkeyed).
  destruct (SortProps.sortM_sorted (by_lastUpdated h) (time_key h)
              (upserted now chatSession histories) (readable_defined _ Hr') Hkeyed)
    as (stored & Hsort & Hperm & Hdesc).
  rewrite Hsort. exists stored. split; [reflexivity|]. split; [exact Hperm|].
  apply descending_newest_first, Hdesc.
Qed.

(** C8.  Where [saveChatSession] leaves a list that is not sorted.  The
    store holds a session of 2020 and, after it, two sessions written by
    the chat window, which records its date under [timestamp] and leaves
    [lastUpdated] out.  Saving a new session adds it with the clock
    reading as its [lastUpdated] and leaves the four in this order: the
    session of 2020 stays ahead of the one just saved, against the
    comment [most recent first] above the call of [sort].  (The
    comparator answers [NaN] for every pair that is compared; insertion
    sort, merge sort and a sort that first looks for runs all leave the
    list as it is.) *)
Lemma saveChatSession_not_sorted :
  saveChatSession_list Sample.sample_host "2026-11-02T09:00:00.000Z"
    (JObj [("id", JStr "c"); ("title", JStr "Dishwasher rack")])
    {[ CHAT_HISTORY_KEY :=
         Sample.stringify
           (JArr [Sample.session_a; Sample.session_b; Sample.session_b']) ]}
  = Ok [ Sample.session_a; Sample.session_b; Sample.session_b';
         JObj [("id", JStr "c"); ("title", JStr "Dishwasher rack");
               ("lastUpdated", JStr "2026-11-02T09:00:00.000Z")] ]
  /\ time_of Sample.sample_host Sample.session_a = Some 1577836800000%Z
  /\ time_of Sample.sample_host
       (JObj [("id", JStr "c"); ("title", JStr "Dishwasher rack");
              ("lastUpdated", JStr "2026-11-02T09:00:00.000Z")])
     = Some 1793610000000%Z
  /\ ~ newest_first Sample.sample_host
        [ Sample.session_a; Sample.session_b; Sample.session_b';
          JObj [("id", JStr "c"); ("title", JStr "Dishwasher rack");
                ("lastUpdated", JStr "2026-11-02T09:00:00.000Z")] ].
Proof.
  split; [vm_compute; reflexivity|].
  split; [reflexivity|]. split; [reflexivity|].
  intros Hsorted. apply StronglySorted_inv in Hsorted as [_ Hfirst].
  apply Forall_cons in Hfirst as [_ Hfirst]. apply Forall_cons in Hfirst as [_ Hfirst].
  apply Forall_cons in Hfirst as [Hac _].
  specialize (Hac 1577836800000%Z 1793610000000%Z eq_refl eq_refl). lia.
Qed.

End ChatHistoryProps.

(** *** Deleting a session *)
Module DeleteProps.
Import Props Facts.

Lemma without_session_readable (id : jsval) (l : list jsval) :
  readable l -> ChatHistory.without_session id l = Ok (others id l).
Proof.
  intros Hr. unfold ChatHistory.without_session, others.
  apply filterM_pure. eapply Forall_impl; [exact Hr|].
  intros session Hs. simpl in Hs. rewrite (get_field _ _ Hs). reflexivity.
Qed.

Lemma is_session_readable (l : list jsval) :
  Forall (fun v => is_session v = true) l -> readable l.
Proof.
  intros Hl. eapply Forall_impl; [exact Hl|].
  intros v. destruct v; simpl; congruence.
Qed.

Lemma others_spec (id : jsval) (l : list jsval) :
  sublist (others id l) l
  /\ (forall session,
        session ∈ others id l <-> session ∈ l /\ has_id id session = false)
  /\ (Forall (fun session => has_id id session = false) l -> others id l = l).
Proof.
  split; [apply sublist_filter|]. split.
  - intros session. unfold others.
    rewrite !list_elem_of_In, filter_In, negb_true_iff. reflexivity.
  - unfold others. induction 1 as [|session l Hs _ IH]; simpl; [reflexivity|].
    rewrite Hs. simpl. rewrite IH. reflexivity.
Qed.




End DeleteProps.

(** *** Ingestion *)
Module IngestionProps.
Import Ingestion.

Lemma upsert_part_dom (hash : string -> string -> string) (c : catalog) (p : source_part) :
  dom (parts (upsert_part hash c p)) = {[ upsert_key hash p ]} ∪ dom (parts c).
Proof.
  unfold upsert_part. destruct (parts c !! upsert_key hash p); simpl;
    apply dom_insert_L.
Qed.

Lemma ingest_dom (hash : string -> string -> string) (source : list source_part)
    (c : catalog) :
  dom (parts (ingest hash source c))
  = list_to_set (map (upsert_key hash) source) ∪ dom (parts c).
Proof.
  unfold ingest. revert c. induction source as [|p source IH]; intros c; simpl.
  - set_solver.
  - rewrite IH, upsert_part_dom. set_solver.
Qed.

Lemma upsert_part_keeps_id (hash : string -> string -> string) (c : catalog)
    (q : source_part) (key : string) (p : Part) :
  parts c !! key = Some p ->
  exists p', parts (upsert_part hash c q) !! key = Some p' /\ part_id p' = part_id p.
Proof.
  intros Hp. unfold upsert_part.
  destruct (decide (upsert_key hash q = key)) as [<-|Hne].
  - rewrite Hp. simpl. rewrite lookup_insert_eq. eexists. split; reflexivity.
  - destruct (parts c !! upsert_key hash q); simpl;
      rewrite lookup_insert_ne by exact Hne; exists p; split; auto.
Qed.

Lemma ingest_keeps_id (hash : string -> string -> string) (source : list source_part)
    (c : catalog) (key : string) (p : Part) :
  parts c !! key = Some p ->
  exists p', parts (ingest hash source c) !! key = Some p' /\ part_id p' = part_id p.
Proof.
  unfold ingest. revert c p. induction source as [|q source IH]; intros c p Hp; simpl.
  - exists p. split; auto.
  - destruct (upsert_part_keeps_id hash c q key p Hp) as (p1 & Hp1 & Hid1).
    destruct (IH _ _ Hp1) as (p2 & Hp2 & Hid2).
    exists p2. split; [exact Hp2|congruence].
Qed.

(** Ingestion is idempotent on the keys and on the identities, for any
    source data. *)
Lemma ingest_twice (hash : string -> string -> string) (source : list source_part)
    (c : catalog) :
  dom (parts (ingest hash source (ingest hash source c)))
  = dom (parts (ingest hash source c))
  /\ forall key,
       part_id <$> parts (ingest hash source (ingest hash source c)) !! key
       = part_id <$> parts (ingest hash source c) !! key.
Proof.
  assert (dom (parts (ingest hash source (ingest hash source c)))
          = dom (parts (ingest hash source c))) as Hdom.
  { rewrite !ingest_dom. set_solver. }
  split; [exact Hdom|]. intros key.
  destruct (parts (ingest hash source c) !! key) as [p|] eqn:Hp.
  - destruct (ingest_keeps_id hash source _ key p Hp) as (p' & Hp' & Hid).
    rewrite Hp'. simpl. congruence.
  - apply not_elem_of_dom in Hp. rewrite <- Hdom in Hp.
    apply not_elem_of_dom in Hp. rewrite Hp. reflexivity.
Qed.

(** C6.  Against the store of the specification: when every record of
    the source data has a manufacturer number, a second Ingestion run
    over the same data leaves the number of Parts as the first run left
    it, whatever the store held before; the store holds the same keys,
    and every Part keeps its identity. *)
Theorem ingest_twice_same_count (hash : string -> string -> string)
    (source : list source_part) (c : catalog) :
  Forall (fun p => manufacturer_number p <> "") source ->
  part_count (ingest hash source (ingest hash source c))
  = part_count (ingest hash source c)
  /\ dom (parts (ingest hash source (ingest hash source c)))
     = dom (parts (ingest hash source c))
  /\ (forall p, p ∈ source ->
        upsert_key hash p = "M:" +:+ manufacturer_number p)
  /\ (forall key,
        part_id <$> parts (ingest hash source (ingest hash source c)) !! key
        = part_id <$> parts (ingest hash source c) !! key).
Proof.
  intros Hm. destruct (ingest_twice hash source c) as [Hdom Hid].
  split; [|split; [exact Hdom|split; [|exact Hid]]].
  - unfold part_count. rewrite <- !size_dom, Hdom. reflexivity.
  - intros p Hp. rewrite Forall_forall in Hm. specialize (Hm p Hp).
    unfold upsert_key. apply String.eqb_neq in Hm. rewrite Hm. reflexivity.
Qed.

(** Two scraped records of the same part and one of another, into an
    empty store: two Parts after the first run and after the second. *)
Lemma ingest_twice_same_count_witness :
  part_count
    (ingest (fun name appliance => name +:+ "/" +:+ appliance)
       [ SourcePart "Ice Maker" "W10195416" "PS11752778" "$89.95" "" "" "" in_stock
           "refrigerator" [];
         SourcePart "Ice Maker Assembly" "W10195416" "PS11752778" "$92.10" "" "" ""
           in_stock "refrigerator" ["WRS325FDAM04"];
         SourcePart "Door Shelf Bin" "WPW10321304" "" "$36.18" "" "" "" unknown
           "refrigerator" [] ]
       (ingest (fun name appliance => name +:+ "/" +:+ appliance)
          [ SourcePart "Ice Maker" "W10195416" "PS11752778" "$89.95" "" "" "" in_stock
              "refrigerator" [];
            SourcePart "Ice Maker Assembly" "W10195416" "PS11752778" "$92.10" "" "" ""
              in_stock "refrigerator" ["WRS325FDAM04"];
            SourcePart "Door Shelf Bin" "WPW10321304" "" "$36.18" "" "" "" unknown
              "refrigerator" [] ]
          (Catalog ∅ 0)))
  = 2.
Proof.
  rewrite (proj1 (ingest_twice_same_count (fun name appliance => name +:+ "/" +:+ appliance)
                    [ SourcePart "Ice Maker" "W10195416" "PS11752778" "$89.95" "" "" ""
                        in_stock "refrigerator" [];
                      SourcePart "Ice Maker Assembly" "W10195416" "PS11752778" "$92.10"
                        "" "" "" in_stock "refrigerator" ["WRS325FDAM04"];
                      SourcePart "Door Shelf Bin" "WPW10321304" "" "$36.18" "" "" ""
                        unknown "refrigerator" [] ]
                    (Catalog ∅ 0)
                    ltac:(repeat constructor; discriminate))).
  vm_compute. reflexivity.
Defined.

End IngestionProps.

(** ** Part III. Further properties of the client *)

(** *** [trim] answers the empty text on blank text only *)
Module TrimMore.
Import Trim Terms.

Lemma blank_made_of (l : list ascii) : blank l <-> made_of WhiteSpace l.
Proof.
  split; induction 1; constructor; assumption.
Qed.

Lemma made_of_app ws (l k : list ascii) :
  made_of ws l -> made_of ws k -> made_of ws (l ++ k).
Proof.
  induction 1 as [|w l Hw _ IH]; intros Hk; [exact Hk|].
  rewrite <- app_assoc. constructor; [exact Hw|]. apply IH, Hk.
Qed.

Lemma drop_prefix_Some (w l r : list ascii) :
  drop_prefix w l = Some r -> l = w ++ r.
Proof.
  revert l. induction w as [|a w IH]; intros l; simpl.
  - intros [= ->]. reflexivity.
  - destruct l as [|b l]; [discriminate|].
    destruct (Ascii.eqb a b) eqn:Hab; [|discriminate].
    apply Ascii.eqb_eq in Hab as ->. intros H. rewrite (IH _ H). reflexivity.
Qed.

Lemma drop_first_Some ws (l r : list ascii) :
  drop_first ws l = Some r -> exists w, w ∈ ws /\ l = w ++ r.
Proof.
  induction ws as [|w ws IH]; simpl; [discriminate|].
  destruct (drop_prefix w l) as [r'|] eqn:Hw.
  - intros [= ->]. exists w. split; [apply list_elem_of_here|].
    apply drop_prefix_Some, Hw.
  - intros H. destruct (IH H) as (w' & Hin & ->).
    exists w'. split; [apply list_elem_of_further, Hin|reflexivity].
Qed.

(** What [drop_while] removes is made of the pieces. *)
Lemma drop_while_split ws (fuel : nat) (l : list ascii) :
  exists pre, made_of ws pre /\ l = pre ++ drop_while ws fuel l.
Proof.
  revert l. induction fuel as [|fuel IH]; intros l; simpl.
  - exists []. split; [constructor|reflexivity].
  - destruct (drop_first ws l) as [r|] eqn:Hr.
    + destruct (drop_first_Some _ _ _ Hr) as (w & Hw & ->).
      destruct (IH r) as (pre & Hpre & Heq).
      exists (w ++ pre). split; [constructor; assumption|].
      rewrite <- app_assoc, <- Heq. reflexivity.
    + exists []. split; [constructor|reflexivity].
Qed.

Lemma made_of_rev ws (l : list ascii) :
  made_of (map (@rev ascii) ws) l -> made_of ws (rev l).
Proof.
  induction 1 as [|w l Hw _ IH]; simpl; [constructor|].
  rewrite rev_app_distr. apply made_of_app; [exact IH|].
  apply list_elem_of_In, in_map_iff in Hw as (w' & <- & Hw').
  rewrite rev_involutive, <- (app_nil_r w'). constructor; [|constructor].
  apply list_elem_of_In, Hw'.
Qed.

Lemma string_of_list_ascii_nil (l : list ascii) :
  string_of_list_ascii l = "" -> l = [].
Proof. destruct l; [reflexivity|discriminate]. Qed.

Lemma trim_empty_blank (s : string) : trim s = "" -> blank (list_ascii_of_string s).
Proof.
  unfold trim. intros H. apply string_of_list_ascii_nil in H.
  set (l := list_ascii_of_string s) in *.
  destruct (drop_while_split WhiteSpace (length l) l) as (pre & Hpre & Hl).
  fold (trimStart l) in Hl.
  unfold trimEnd in H.
  destruct (drop_while_split (map (@rev ascii) WhiteSpace)
              (length (trimStart l)) (rev (trimStart l))) as (post & Hpost & Hrev).
  assert (drop_while (map (@rev ascii) WhiteSpace)
            (length (trimStart l)) (rev (trimStart l)) = []) as Hnil.
  { apply (f_equal (@rev ascii)) in H. rewrite rev_involutive in H. exact H. }
  rewrite Hnil, app_nil_r in Hrev. subst post.
  apply made_of_rev in Hpost. rewrite rev_involutive in Hpost.
  apply blank_made_of. rewrite Hl. apply made_of_app; assumption.
Qed.

End TrimMore.

(** *** More on [handleSend] *)
Module HandleSendMore.
Import Props Facts Trim Terms ChatWindow.

(** X1.  The guard of [handleSend] and the send button agree on the
    input: [handleSend] takes its early return exactly when the input is
    empty or white space only, and the button is disabled exactly when a
    request is in flight or the input is such a text. *)
Theorem handleSend_guard (h : host) (now : string) (s : state) :
  (handleSend_begin h now s = None <-> blank (list_ascii_of_string (input s)))
  /\ (send_disabled s = true
      <-> isLoading s = true \/ blank (list_ascii_of_string (input s))).
Proof.
  assert (trim (input s) = "" <-> blank (list_ascii_of_string (input s))) as Htrim.
  { split; [apply TrimMore.trim_empty_blank|apply TrimProps.trim_blank]. }
  split.
  - rewrite <- Htrim. unfold handleSend_begin.
    destruct (String.eqb (trim (input s)) "") eqn:Heq.
    + apply String.eqb_eq in Heq. tauto.
    + apply String.eqb_neq in Heq. split; [discriminate|tauto].
  - rewrite <- Htrim. unfold send_disabled. simpl.
    rewrite orb_true_iff, negb_true_iff, negb_false_iff, String.eqb_eq. reflexivity.
Qed.

(** X2.  One turn of [handleSend] calls [fetch] once.  On an input
    that is not blank and messages that can be read, [getAIMessage] gets
    as far as its call of [fetch], and makes that one call: the request
    carries the query and, as [conversation_history], the messages found
    without their placeholders followed by the user's new message, each
    reduced to role and content.  That call is the one entry the turn
    adds to the log of requests: the rest of [handleSend], on whatever
    state it resumes, adds none, and it clears the loading flag. *)
Theorem handleSend_sends_once (h : host) (now later : string) (s : state) :
  readable (messages s) ->
  ~ blank (list_ascii_of_string (input s)) ->
  exists s1 p req resume,
    handleSend_begin h now s = Some (s1, p)
    /\ Api.getAIMessage h (userContent p) (JArr (updatedMessages p)) = Fetch req resume
    /\ req
       = {| url := API_BASE_URL h +:+ "/api/query";
            body :=
              JObj [("query", JStr (input s));
                    ("conversation_history",
                     JArr (map role_and_content (settled (messages s))
                           ++ [JObj [("role", JStr "user");
                                     ("content", JStr (input s))]]))] |}
    /\ outbox s1 = outbox s ++ [req]
    /\ input s1 = ""
    /\ forall answer st st',
         handleSend_end later answer st = Ok st' ->
         outbox st' = outbox st /\ isLoading st' = false /\ input st' = input st.
Proof.
  intros Hr Hinput.
  assert (String.eqb (trim (input s)) "" = false) as Hguard.
  { apply String.eqb_neq. intros Ht. apply Hinput, TrimMore.trim_empty_blank, Ht. }
  assert (readable (messages s ++ [userMessage now (input s)])) as Hr'.
  { apply Forall_app. split; [exact Hr|repeat constructor]. }
  unfold handleSend_begin. rewrite Hguard. cbv zeta.
  fold (userMessage now (input s)).
  unfold Api.getAIMessage, Api.getAIMessage_request.
  rewrite (ApiProps.formatHistory_readable _ Hr'). cbn [mbind result_bind].
  eexists. eexists. eexists. eexists. split; [reflexivity|].
  cbn [userContent updatedMessages].
  unfold Api.getAIMessage, Api.getAIMessage_request.
  rewrite (ApiProps.formatHistory_readable _ Hr'). cbn [mbind result_bind].
  split; [reflexivity|]. split.
  { rewrite HandleSendProps.settled_app, map_app. reflexivity. }
  split; [reflexivity|]. split; [reflexivity|].
  intros answer st st'. unfold handleSend_end, replaceLoading.
  destruct answer as [aiResponse|e];
    destruct (filterM notLoading (messages st)) as [kept|e']; cbn [mbind result_bind];
    intros [= <-]; repeat split.
Qed.

(** A question typed after the greeting. *)
Lemma handleSend_sends_once_witness :
  exists s1 p,
    handleSend_begin Sample.sample_host "2026-11-02T09:00:00.000Z"
      (State [Sample.greeting] "Is PS11752778 in stock?" false [] JNull false ∅ [] [])
    = Some (s1, p)
    /\ requests (Api.getAIMessage Sample.sample_host (userContent p)
                   (JArr (updatedMessages p)))
       = outbox s1
    /\ length (outbox s1) = 1.
Proof.
  destruct (handleSend_sends_once Sample.sample_host "2026-11-02T09:00:00.000Z"
              "2026-11-02T09:00:05.000Z"
              (State [Sample.greeting] "Is PS11752778 in stock?" false [] JNull
                 false ∅ [] []))
    as (s1 & p & req & resume & Hbegin & Hcall & _ & Hout & _).
  { repeat constructor. }
  { intros Hb. apply TrimProps.trim_blank in Hb. vm_compute in Hb. discriminate. }
  exists s1, p. split; [exact Hbegin|]. rewrite Hcall, Hout. split; reflexivity.
Defined.

(** X3.  While a request is in flight.  Once [handleSend] has started a
    turn, the screen shows the messages it found, then the user's
    message, then one placeholder; the loading flag is set and the input
    box is empty, so the send button is disabled and a second submission
    takes the early return: no second request can start before the user
    types again. *)
Theorem handleSend_in_flight (h : host) (now : string) (s s1 : state) (p : pending) :
  handleSend_begin h now s = Some (s1, p) ->
  messages s1 = messages s ++ [userMessage now (input s); loadingMessage]
  /\ userContent p = input s
  /\ updatedMessages p = messages s ++ [userMessage now (input s)]
  /\ isLoading s1 = true
  /\ input s1 = ""
  /\ send_disabled s1 = true
  /\ (forall now', handleSend_begin h now' s1 = None)
  /\ length (outbox s1) <= S (length (outbox s)).
Proof.
  unfold handleSend_begin.
  destruct (String.eqb (trim (input s)) ""); [discriminate|].
  cbv zeta. fold (userMessage now (input s)). intros [= <- <-].
  destruct (Api.getAIMessage h (input s) _) as [answer|req resume];
    cbn; rewrite <- ?app_assoc; repeat split; rewrite ?length_app; simpl; lia.
Qed.

Lemma handleSend_in_flight_witness :
  exists s1 p,
    handleSend_begin Sample.sample_host "2026-11-02T09:00:00.000Z"
      (State [Sample.greeting] "Is PS11752778 in stock?" false [] JNull false ∅ [] [])
    = Some (s1, p)
    /\ messages s1 = [Sample.greeting; Sample.question; loadingMessage]
    /\ handleSend_begin Sample.sample_host "2026-11-02T09:00:05.000Z" s1 = None.
Proof.
  eexists. eexists. split; [vm_compute; reflexivity|].
  destruct (handleSend_in_flight Sample.sample_host "2026-11-02T09:00:00.000Z"
              (State [Sample.greeting] "Is PS11752778 in stock?" false [] JNull
                 false ∅ [] [])
              _ _ eq_refl)
    as (Hm & _ & _ & _ & _ & _ & Hagain & _).
  split; [exact Hm|apply Hagain].
Defined.

End HandleSendMore.

(** *** More on the renderer of fenced blocks *)
Module RendererMore.
Import Props Facts Terms ChatWindow.

Lemma mapM_result_throws {A B} (f : A -> result B) (l : list A) (x : A) (e : thrown) :
  x ∈ l -> f x = Throw e -> exists e', mapM_result f l = Throw e'.
Proof.
  induction l as [|y l IH]; intros Hx Hf; [apply elem_of_nil in Hx; destruct Hx|].
  simpl. destruct (f y) as [b|e1] eqn:Hy; simpl; [|eexists; reflexivity].
  apply elem_of_cons in Hx as [->|Hx]; [congruence|].
  destruct (IH Hx Hf) as [e' ->]. simpl. eexists; reflexivity.
Qed.

(** X4.  A payload that parses but cannot be rendered.  Under either
    tag, the payload [null], and an array payload that has a [null]
    among its elements, are rendered as literal text by the default code
    renderer: the [TypeError] raised while the card is built is caught
    with the parse errors. *)
Theorem renderer_code_null_payload (h : host) (code language : string) (jsonData : jsval) :
  render_tag language ->
  JSON_parse h code = Some jsonData ->
  jsonData = JNull \/ (exists products, jsonData = JArr products /\ JNull ∈ products) ->
  renderer_code h code language = Ok (originalCodeRenderer h code language).
Proof.
  intros Htag Hparse Hnull.
  rewrite RendererProps.renderer_code_cases, (RendererProps.render_tag_test _ Htag), Hparse.
  destruct Hnull as [->|(products & -> & Hin)]; [reflexivity|].
  unfold product_fragment, renderProductList.
  destruct products as [|p products]; [apply elem_of_nil in Hin; destruct Hin|].
  cbn [length Nat.eqb].
  destruct (mapM_result_throws renderProductCard (p :: products) JNull
              (TypeError (Reading JNull "part_name")) Hin eq_refl)
    as [e' ->].
  reflexivity.
Qed.

Lemma renderer_code_null_payload_witness :
  renderer_code (Hosts.reading [JArr [JNull]]) "[null]" "dictionary-list-to-render"
  = Ok "<pre><code>[null]</code></pre>".
Proof.
  rewrite (renderer_code_null_payload (Hosts.reading [JArr [JNull]]) "[null]"
             "dictionary-list-to-render" (JArr [JNull]) (or_intror eq_refl) eq_refl).
  - reflexivity.
  - right. exists [JNull]. split; [reflexivity|apply list_elem_of_here].
Defined.

(** X5.  The sentence for an empty list and nothing else: when
    [renderProductList] returns, what it returns is the paragraph
    [<p>No products found</p>] exactly when the list is empty. *)
Theorem renderProductList_not_found (products : list jsval) (html : string) :
  renderProductList products = Ok html ->
  (html = "<p>No products found</p>" <-> products = []).
Proof.
  unfold renderProductList. destruct products as [|p products]; cbn [length Nat.eqb].
  - intros [= <-]. split; reflexivity.
  - destruct (mapM_result renderProductCard (p :: products)) as [cards|e];
      cbn [mbind result_bind]; [|discriminate].
    intros [= <-]. split; [|discriminate].
    unfold nl. simpl. discriminate.
Qed.

Lemma renderProductList_not_found_witness :
  renderProductList [] = Ok "<p>No products found</p>"
  /\ exists html, renderProductList [JObj [("name", JStr "Ice Maker")]] = Ok html
                  /\ html <> "<p>No products found</p>".
Proof.
  split; [reflexivity|]. eexists. split; [reflexivity|].
  intros H.
  pose proof (proj1 (renderProductList_not_found
                       [JObj [("name", JStr "Ice Maker")]] _ eq_refl) H) as Hnil.
  discriminate Hnil.
Defined.

Lemma toString_primitive (v : jsval) :
  primitive v = true -> exists text, toString v = Ok text.
Proof.
  destruct v as [| |[|]| | | |]; simpl; intros; try discriminate; eexists; reflexivity.
Qed.

Lemma primitive_or_else (a b : jsval) :
  primitive a = true -> primitive b = true -> primitive (or_else a b) = true.
Proof. unfold or_else. destruct (truthy a); auto. Qed.

Lemma own_flat (fields : list (string * jsval)) (key : string) :
  flat (JObj fields) = true -> primitive (default JUndefined (own fields key)) = true.
Proof.
  simpl. induction fields as [|[k v] rest IH]; simpl; [reflexivity|].
  intros H. apply andb_true_iff in H as [Hv Hrest].
  destruct (String.eqb k key); [exact Hv|apply IH, Hrest].
Qed.

Lemma optional_flat (fields : list (string * jsval)) (key before after : string) :
  flat (JObj fields) = true -> exists text, optional (JObj fields) key before after = Ok text.
Proof.
  intros Hflat. unfold optional. cbn [get mbind result_bind].
  destruct (truthy _); [|eexists; reflexivity].
  destruct (toString_primitive _ (own_flat fields key Hflat)) as [text ->].
  eexists; reflexivity.
Qed.

Lemma renderProductCard_flat (product : jsval) :
  flat product = true -> exists html, renderProductCard product = Ok html.
Proof.
  destruct product as [| | | | | |fields]; try discriminate. intros Hflat.
  unfold renderProductCard. cbn [get mbind result_bind].
  destruct (toString_primitive
              (or_else (or_else (default JUndefined (own fields "part_name"))
                                (default JUndefined (own fields "name")))
                       (JStr "Product"))) as [title ->].
  { repeat apply primitive_or_else; try apply own_flat; auto. }
  cbn [mbind result_bind].
  destruct (toString_primitive
              (or_else (default JUndefined (own fields "price")) (JStr ""))) as [price ->].
  { apply primitive_or_else; [apply own_flat; auto|reflexivity]. }
  cbn [mbind result_bind].
  assert (exists image,
            (if truthy (default JUndefined (own fields "image_url"))
             then src ← toString (default JUndefined (own fields "image_url"));
                  alt ← toString (or_else (default JUndefined (own fields "part_name"))
                                          (JStr "Product"));
                  Ok ("<img " +:+ attr "src" src +:+ " " +:+ attr "alt" alt +:+ " "
                      +:+ attr "class" "product-image" +:+ " />")
             else Ok "") = Ok image) as [image ->].
  { destruct (truthy _); [|eexists; reflexivity].
    destruct (toString_primitive _ (own_flat fields "image_url" Hflat)) as [src ->].
    destruct (toString_primitive
                (or_else (default JUndefined (own fields "part_name")) (JStr "Product")))
      as [alt ->].
    { apply primitive_or_else; [apply own_flat; auto|reflexivity]. }
    eexists; reflexivity. }
  cbn [mbind result_bind].
  destruct (optional_flat fields "manufacturer_number"
              "<p><strong>Manufacturer #:</strong> " "</p>" Hflat) as [m ->].
  cbn [mbind result_bind].
  destruct (optional_flat fields "partselect_number"
              "<p><strong>PartSelect #:</strong> " "</p>" Hflat) as [ps ->].
  cbn [mbind result_bind].
  destruct (optional_flat fields "description" "<p>" "</p>" Hflat) as [d ->].
  cbn [mbind result_bind].
  destruct (optional_flat fields "url" ("<a href=" +:+ dq)
              (dq +:+ " " +:+ attr "target" "_blank" +:+ " "
               +:+ attr "class" "product-link" +:+ ">View Details</a>") Hflat) as [u ->].
  eexists; reflexivity.
Qed.

Lemma mapM_result_Ok {A B} (f : A -> result B) (l : list A) :
  Forall (fun x => exists y, f x = Ok y) l -> exists ys, mapM_result f l = Ok ys.
Proof.
  induction 1 as [|x l [y Hy] _ [ys IH]]; simpl; [eexists; reflexivity|].
  rewrite Hy. simpl. rewrite IH. eexists; reflexivity.
Qed.

(** X6.  Flat payloads are always rendered as products.  Under either
    tag, for a payload that is an object whose properties hold strings,
    numbers, booleans or [null], or an array of such objects, building
    the fragment succeeds and the renderer returns the fragment: it never
    falls back to literal text for such a payload. *)
Theorem renderer_code_flat (h : host) (code language : string) (jsonData : jsval) :
  render_tag language ->
  JSON_parse h code = Some jsonData ->
  flat jsonData = true
  \/ (exists products, jsonData = JArr products
                       /\ Forall (fun product => flat product = true) products) ->
  exists html,
    product_fragment jsonData = Ok html
    /\ renderer_code h code language = Ok html.
Proof.
  intros Htag Hparse Hflat.
  rewrite RendererProps.renderer_code_cases, (RendererProps.render_tag_test _ Htag), Hparse.
  assert (exists html, product_fragment jsonData = Ok html) as [html Hhtml].
  { destruct Hflat as [Hflat|(products & -> & Hflat)].
    - destruct (renderProductCard_flat _ Hflat) as [html Hhtml].
      exists html. destruct jsonData; try discriminate. exact Hhtml.
    - unfold product_fragment, renderProductList.
      destruct (Nat.eqb (length products) 0); [eexists; reflexivity|].
      destruct (mapM_result_Ok renderProductCard products) as [cards ->].
      + eapply Forall_impl; [exact Hflat|]. intros product. apply renderProductCard_flat.
      + eexists; reflexivity. }
  exists html. rewrite Hhtml. split; reflexivity.
Qed.

Lemma renderer_code_flat_witness :
  exists html,
    renderer_code
      (Hosts.reading
         [JArr [JObj [("part_name", JStr "Ice Maker"); ("price", JNum "89.95");
                      ("manufacturer_number", JStr "W10195416"); ("in_stock", JBool true);
                      ("image_url", JNull)]]])
      (Sample.stringify
         (JArr [JObj [("part_name", JStr "Ice Maker"); ("price", JNum "89.95");
                      ("manufacturer_number", JStr "W10195416"); ("in_stock", JBool true);
                      ("image_url", JNull)]]))
      "dictionary-list-to-render"
    = Ok html
    /\ renderProductList
         [JObj [("part_name", JStr "Ice Maker"); ("price", JNum "89.95");
                ("manufacturer_number", JStr "W10195416"); ("in_stock", JBool true);
                ("image_url", JNull)]]
       = Ok html.
Proof.
  destruct (renderer_code_flat
              (Hosts.reading
                 [JArr [JObj [("part_name", JStr "Ice Maker"); ("price", JNum "89.95");
                              ("manufacturer_number", JStr "W10195416");
                              ("in_stock", JBool true); ("image_url", JNull)]]])
              (Sample.stringify
                 (JArr [JObj [("part_name", JStr "Ice Maker"); ("price", JNum "89.95");
                              ("manufacturer_number", JStr "W10195416");
                              ("in_stock", JBool true); ("image_url", JNull)]]))
              "dictionary-list-to-render"
              (JArr [JObj [("part_name", JStr "Ice Maker"); ("price", JNum "89.95");
                           ("manufacturer_number", JStr "W10195416");
                           ("in_stock", JBool true); ("image_url", JNull)]])
              (or_intror eq_refl) eq_refl)
    as (html & Hfragment & Hcode).
  { right. eexists. split; [reflexivity|]. repeat constructor. }
  exists html. split; [exact Hcode|exact Hfragment].
Defined.

(** X7.  A payload that is no object at all.  A bare string, number or
    boolean has none of the product fields, so it is rendered as the
    card of the empty object: the title [Product] and nothing else. *)
Theorem renderProductCard_bare (product : jsval) :
  primitive product = true ->
  nullish product = false ->
  renderProductCard product = renderProductCard (JObj []).
Proof.
  destruct product; simpl; intros; try discriminate; reflexivity.
Qed.

Lemma renderProductCard_bare_witness :
  renderProductCard (JStr "Ice Maker W10195416") = renderProductCard (JObj [])
  /\ exists html, renderProductCard (JObj []) = Ok html.
Proof.
  split; [apply renderProductCard_bare; reflexivity|].
  eexists. reflexivity.
Defined.

End RendererMore.

(** *** Session ids *)
Module SessionIdProps.
Import Terms ChatHistoryRest.

Lemma nibble (r : Z) :
  (0 <= r < 16)%Z -> exists c, toString16 r = String c "" /\ is_hex c = true.
Proof.
  intros Hr.
  assert (r = 0 \/ r = 1 \/ r = 2 \/ r = 3 \/ r = 4 \/ r = 5 \/ r = 6 \/ r = 7 \/ r = 8
          \/ r = 9 \/ r = 10 \/ r = 11 \/ r = 12 \/ r = 13 \/ r = 14 \/ r = 15)%Z
    as Hcases by lia.
  repeat (destruct Hcases as [->|Hcases]; [eexists; split; reflexivity|]).
  subst r. eexists; split; reflexivity.
Qed.

Lemma variant (r : Z) :
  (0 <= r < 16)%Z ->
  toString16 (Z.lor (Z.land r 3) 8) = "8" \/ toString16 (Z.lor (Z.land r 3) 8) = "9"
  \/ toString16 (Z.lor (Z.land r 3) 8) = "a" \/ toString16 (Z.lor (Z.land r 3) 8) = "b".
Proof.
  intros Hr.
  assert (r = 0 \/ r = 1 \/ r = 2 \/ r = 3 \/ r = 4 \/ r = 5 \/ r = 6 \/ r = 7 \/ r = 8
          \/ r = 9 \/ r = 10 \/ r = 11 \/ r = 12 \/ r = 13 \/ r = 14 \/ r = 15)%Z
    as Hcases by lia.
  repeat (destruct Hcases as [->|Hcases]; [vm_compute; tauto|]).
  subst r. vm_compute; tauto.
Qed.

(** X8.  [generateSessionId] always returns a text of the shape of a
    version 4 UUID, whatever [Math.random] answers (each call counts for
    a whole number from 0 to 15). *)
Theorem generateSessionId_uuid (random : nat -> Z) :
  (forall i, 0 <= random i < 16)%Z ->
  uuid_v4 (generateSessionId random) = true.
Proof.
  intros Hrandom. unfold generateSessionId.
  cbn -[toString16 Z.lor Z.land].
  repeat match goal with
         | |- context [toString16 (random ?i)] =>
             let c := fresh "c" in
             let Hc := fresh "Hc" in
             destruct (nibble (random i) (Hrandom i)) as (c & -> & Hc)
         end.
  destruct (variant (random 15) (Hrandom 15)) as [-> | [-> | [-> | ->]]];
    cbv -[is_hex];
    repeat match goal with
           | H : is_hex _ = true |- _ => rewrite H; clear H
           end;
    reflexivity.
Qed.

Lemma generateSessionId_uuid_witness :
  generateSessionId (fun i => Z.of_nat (i mod 16)) = "01234567-89ab-4cde-b012-3456789abcde"
  /\ uuid_v4 (generateSessionId (fun i => Z.of_nat (i mod 16))) = true.
Proof.
  split; [reflexivity|].
  apply generateSessionId_uuid.
  intros i. pose proof (Nat.mod_upper_bound i 16). lia.
Defined.

End SessionIdProps.

(** *** [sort] with a comparator that does not throw *)
Module SortMore.
Import Props Terms JSArray.

Section Answering.
Context {A : Type} (cmp : A -> A -> result (option Z)).

Lemma insert_from_right_perm (x : A) (racc : list A) :
  answering cmp (x :: racc) ->
  exists r, insert_from_right cmp x racc = Ok r /\ r ≡ₚ x :: racc.
Proof.
  induction racc as [|y rest IH]; intros Ha.
  - exists [x]. split; reflexivity.
  - simpl. destruct (Ha x y) as [c ->]; [rewrite !elem_of_cons; tauto ..|]. simpl.
    destruct (before c).
    + destruct IH as (r & -> & Hperm).
      { intros a b Hin Hin'.
        apply Ha; [revert Hin|revert Hin']; rewrite !elem_of_cons; tauto. }
      simpl. exists (y :: r). split; [reflexivity|].
      rewrite Hperm. apply perm_swap.
    + exists (x :: y :: rest). split; reflexivity.
Qed.

Lemma insertion_pass_perm (todo racc : list A) :
  answering cmp (racc ++ todo) ->
  exists r, insertion_pass cmp racc todo = Ok r /\ r ≡ₚ racc ++ todo.
Proof.
  revert racc. induction todo as [|x todo IH]; intros racc Ha.
  - exists racc. rewrite app_nil_r. split; reflexivity.
  - simpl. destruct (insert_from_right_perm x racc) as (r1 & -> & Hp1).
    { intros a b Hin Hin'.
      apply Ha; [revert Hin|revert Hin'];
        rewrite elem_of_cons, elem_of_app, elem_of_cons; tauto. }
    simpl. destruct (IH r1) as (r & Hr & Hp).
    { intros a b Hin Hin'.
      apply Ha; [revert Hin|revert Hin'];
        rewrite !elem_of_app, Hp1, !elem_of_cons; tauto. }
    exists r. split; [exact Hr|].
    rewrite Hp, Hp1. simpl. rewrite Permutation_middle. reflexivity.
Qed.

End Answering.

Lemma filter_split {A} (q : A -> bool) (l : list A) :
  List.filter (fun x => negb (q x)) l ++ List.filter q l ≡ₚ l.
Proof.
  induction l as [|x l IH]; simpl; [reflexivity|].
  destruct (q x); simpl.
  - rewrite <- Permutation_middle. constructor. exact IH.
  - constructor. exact IH.
Qed.

Lemma sortM_perm (cmp : jsval -> jsval -> result (option Z)) (l : list jsval) :
  answering cmp l -> exists r, sortM cmp l = Ok r /\ r ≡ₚ l.
Proof.
  intros Ha. unfold sortM.
  destruct (insertion_pass_perm cmp
              (List.filter (fun v => negb (is_undefined v)) l) [])
    as (racc & -> & Hperm).
  { intros a b Hin Hin'. simpl in Hin, Hin'.
    apply list_elem_of_In, filter_In in Hin as [Hin _].
    apply list_elem_of_In, filter_In in Hin' as [Hin' _].
    apply Ha; apply list_elem_of_In; assumption. }
  simpl. eexists. split; [reflexivity|].
  rewrite <- (Permutation_rev racc), Hperm. simpl. apply filter_split.
Qed.

Lemma filter_length_perm {A} (q : A -> bool) (l k : list A) :
  l ≡ₚ k -> length (List.filter q l) = length (List.filter q k).
Proof.
  induction 1 as [|x l k _ IH|x y l|l k m _ IH1 _ IH2]; simpl.
  - reflexivity.
  - destruct (q x); simpl; congruence.
  - destruct (q x), (q y); reflexivity.
  - congruence.
Qed.

Lemma filter_perm {A} (q : A -> bool) (l k : list A) :
  l ≡ₚ k -> List.filter q l ≡ₚ List.filter q k.
Proof.
  induction 1 as [|x l k _ IH|x y l|l k m _ IH1 _ IH2]; simpl.
  - reflexivity.
  - destruct (q x); [constructor|]; exact IH.
  - destruct (q x), (q y); try reflexivity. apply perm_swap.
  - etransitivity; eassumption.
Qed.

Section Refusing.
Context {A : Type} (cmp : A -> A -> result (option Z)) (bad : A).
Hypothesis refuses_left : forall y, exists e, cmp bad y = Throw e.
Hypothesis refuses_right : forall x, exists e, cmp x bad = Throw e.

Lemma insert_from_right_nonempty (x : A) (racc r : list A) :
  insert_from_right cmp x racc = Ok r -> r <> [].
Proof.
  destruct racc as [|y rest]; simpl.
  - intros [= <-]. discriminate.
  - destruct (cmp x y) as [c|e]; simpl; [|discriminate].
    destruct (before c).
    + destruct (insert_from_right cmp x rest); simpl; [|discriminate].
      intros [= <-]. discriminate.
    + intros [= <-]. discriminate.
Qed.

Lemma insertion_pass_refuses (todo racc : list A) :
  racc <> [] -> bad ∈ todo -> exists e, insertion_pass cmp racc todo = Throw e.
Proof.
  revert racc. induction todo as [|x rest IH]; intros racc Hracc Hin.
  - apply elem_of_nil in Hin as [].
  - simpl. apply elem_of_cons in Hin as [<-|Hin].
    + destruct racc as [|y racc]; [congruence|]. simpl.
      destruct (refuses_left y) as [e ->]. simpl. eexists. reflexivity.
    + destruct (insert_from_right cmp x racc) as [racc'|e] eqn:Hins; simpl; [|eexists; reflexivity].
      apply IH; [|exact Hin]. eapply insert_from_right_nonempty, Hins.
Qed.

Lemma insertion_pass_refuses_first (todo : list A) :
  bad ∈ todo -> 2 <= length todo -> exists e, insertion_pass cmp [] todo = Throw e.
Proof.
  destruct todo as [|x [|y rest]]; simpl; try lia. intros Hin _.
  apply elem_of_cons in Hin as [<-|Hin].
  - destruct (refuses_right y) as [e ->]. simpl. eexists. reflexivity.
  - destruct (cmp y x) as [c|e] eqn:Hc; simpl; [|eexists; reflexivity].
    apply elem_of_cons in Hin as [<-|Hin].
    + destruct (refuses_left x) as [e He]. congruence.
    + destruct (before c); simpl;
        (apply insertion_pass_refuses; [discriminate|exact Hin]).
Qed.

End Refusing.

Lemma two_elements {A} (a b : A) (l : list A) :
  a ∈ l -> b ∈ l -> a <> b -> 2 <= length l.
Proof.
  destruct l as [|x [|y l]]; simpl; intros Ha Hb Hab; [| |lia].
  - apply elem_of_nil in Ha as [].
  - apply list_elem_of_singleton in Ha, Hb. congruence.
Qed.

(** The insertion sort meets the standard: a host that sorts with it is
    a standard host. *)
Lemma sortM_standard (h : host) : Array_sort h = sortM -> standard_sort h.
Proof.
  intros Hsort. unfold standard_sort. rewrite Hsort. split; [|split; [|split]].
  - reflexivity.
  - apply sortM_perm.
  - intros cmp l bad Hleft Hright Hin Hdef Hlen. unfold sortM.
    destruct (insertion_pass_refuses_first cmp bad Hleft Hright
                (List.filter (fun v => negb (is_undefined v)) l)) as [e ->].
    + apply list_elem_of_In, filter_In. split; [apply list_elem_of_In, Hin|].
      rewrite Hdef. reflexivity.
    + exact Hlen.
    + simpl. eexists. reflexivity.
  - intros cmp x. destruct x; reflexivity.
Qed.

End SortMore.

(** *** More on the session store *)
Module ChatHistoryMore.
Import Props Facts Terms JSArray ChatHistory ChatHistoryRest.

Lemma by_lastUpdated_answering (h : host) (l : list jsval) :
  readable l -> datable h l -> answering (by_lastUpdated h) l.
Proof.
  unfold readable, datable. rewrite !Forall_forall. intros Hr Hd a b Ha Hb.
  unfold by_lastUpdated.
  rewrite (get_field b _ (Hr b Hb)), (get_field a _ (Hr a Ha)). simpl.
  destruct (Hd a Ha) as [ta ->]. destruct (Hd b Hb) as [tb ->]. simpl.
  eexists. reflexivity.
Qed.

Lemma upserted_readable now chatSession histories :
  readable histories -> readable (upserted now chatSession histories).
Proof.
  intros Hr. unfold upserted, readable. destruct (findIndex _ _).
  - apply Forall_insert; [exact Hr|reflexivity].
  - apply Forall_app. split; [exact Hr|repeat constructor].
Qed.

Lemma upserted_datable h now chatSession histories :
  datable h histories -> datable h (upserted now chatSession histories).
Proof.
  intros Hd. unfold upserted, datable.
  assert (forall fields,
            exists t, Date_value h
                        (field (JObj (obj_set "lastUpdated" (JStr now) fields))
                               "lastUpdated") = Ok t) as Hnew.
  { intros fields. rewrite ChatHistoryProps.lastUpdated_set. eexists. reflexivity. }
  destruct (findIndex _ _).
  - apply Forall_insert; [exact Hd|apply Hnew].
  - apply Forall_app. split; [exact Hd|]. repeat constructor. apply Hnew.
Qed.

(** The list [saveChatSession] writes, dates or no dates. *)
Lemma saveChatSession_list_perm (h : host) (now : string) (chatSession : jsval)
    (localStorage : gmap string string) (histories : list jsval) :
  standard_sort h ->
  getAllChatHistories h localStorage = JArr histories ->
  readable histories ->
  nullish chatSession = false ->
  datable h histories ->
  exists stored,
    saveChatSession_list h now chatSession localStorage = Ok stored
    /\ stored ≡ₚ upserted now chatSession histories.
Proof.
  intros Hstd Hget Hr Hsession Hd. unfold saveChatSession_list. rewrite Hget.
  rewrite (ChatHistoryProps.findIndexM_pure _ (has_id (field chatSession "id"))).
  2:{ eapply Forall_impl; [exact Hr|]. intros session Hs. simpl in Hs.
      rewrite (get_field _ _ Hs), (get_field _ _ Hsession). reflexivity. }
  simpl. fold (upserted now chatSession histories).
  apply (proj1 (proj2 Hstd)), by_lastUpdated_answering.
  - apply upserted_readable, Hr.
  - apply upserted_datable, Hd.
Qed.




Lemma filterM_throws {A} (p : A -> result bool) (l : list A) (x : A) :
  x ∈ l -> (exists e, p x = Throw e) -> exists e, filterM p l = Throw e.
Proof.
  intros Hin [e He]. induction Hin as [x l|x y l Hin IH]; simpl.
  - rewrite He. simpl. eexists. reflexivity.
  - destruct (p y) as [b|e']; simpl; [|eexists; reflexivity].
    destruct (IH He) as [e'' ->]. simpl. eexists. reflexivity.
Qed.

Lemma findIndexM_Ok {A} (p : A -> result bool) (l : list A) (r : option nat) :
  findIndexM p l = Ok r ->
  match r with
  | Some i => exists x, l !! i = Some x /\ p x = Ok true
  | None => Forall (fun x => p x = Ok false) l
  end.
Proof.
  revert r. induction l as [|y l IH]; intros r; simpl.
  - intros [= <-]. constructor.
  - destruct (p y) as [[|]|e] eqn:Hy; simpl; try discriminate.
    + intros [= <-]. exists y. split; [reflexivity|exact Hy].
    + destruct (findIndexM p l) as [j|e]; simpl; [|discriminate].
      intros [= <-]. specialize (IH j eq_refl). destruct j as [i|]; simpl.
      * exact IH.
      * constructor; assumption.
Qed.

Lemma by_lastUpdated_null (h : host) (v : jsval) :
  (exists e, by_lastUpdated h JNull v = Throw e)
  /\ (exists e, by_lastUpdated h v JNull = Throw e).
Proof.
  split; unfold by_lastUpdated; simpl; [|eexists; reflexivity].
  destruct (get v "lastUpdated") as [lb|e]; simpl; [|eexists; reflexivity].
  destruct (Date_value h lb); simpl; eexists; reflexivity.
Qed.

Lemma Array_sort_null (h : host) (l : list jsval) (other : jsval) :
  standard_sort h ->
  JNull ∈ l -> other ∈ l -> is_undefined other = false -> other <> JNull ->
  exists e, Array_sort h (by_lastUpdated h) l = Throw e.
Proof.
  intros Hstd Hnull Hother Hdef Hne.
  apply (proj1 (proj2 (proj2 Hstd)) (by_lastUpdated h) l JNull).
  - intros y. apply by_lastUpdated_null.
  - intros x. apply by_lastUpdated_null.
  - exact Hnull.
  - reflexivity.
  - apply (SortMore.two_elements JNull other); [| |congruence].
    + apply list_elem_of_In, filter_In. split; [apply list_elem_of_In, Hnull|reflexivity].
    + apply list_elem_of_In, filter_In. split; [apply list_elem_of_In, Hother|].
      rewrite Hdef. reflexivity.
Qed.

Lemma saveChatSession_list_null (h : host) (now : string) (chatSession : jsval)
    (localStorage : gmap string string) (histories : list jsval) :
  standard_sort h ->
  getAllChatHistories h localStorage = JArr histories ->
  JNull ∈ histories ->
  exists e, saveChatSession_list h now chatSession localStorage = Throw e.
Proof.
  intros Hstd Hget Hnull. unfold saveChatSession_list. rewrite Hget.
  destruct (findIndexM _ histories) as [[i|]|e] eqn:Hfind; simpl; [| |eexists; reflexivity].
  - apply findIndexM_Ok in Hfind as (x & Hx & Hpx).
    apply list_elem_of_lookup in Hnull as [j Hj].
    assert (i <> j) as Hij.
    { intros ->. rewrite Hj in Hx. injection Hx as <-. discriminate. }
    apply (Array_sort_null h _
             (merged_session now (default JUndefined (histories !! i)) chatSession)).
    + exact Hstd.
    + apply list_elem_of_lookup. exists j.
      rewrite list_lookup_insert_ne; [exact Hj|exact Hij].
    + apply list_elem_of_lookup. exists i.
      apply list_lookup_insert_eq. eapply lookup_lt_Some, Hx.
    + reflexivity.
    + discriminate.
  - apply findIndexM_Ok in Hfind. rewrite Forall_forall in Hfind.
    specialize (Hfind JNull Hnull). discriminate.
Qed.

(** X10.  A store that cannot be worked on stays as it is.  When the
    stored text parses to something that is not an array (a number, a
    string, an object, [null]), or to an array with a [null] entry,
    [saveChatSession] and [deleteChatSession] both catch the error,
    answer [false] and write nothing, for every session and every id:
    the helpers cannot repair such a store.  (Of the engine's [sort]
    only the standard guarantees are used.) *)
Theorem blocked_store_stays (h : host) (now : string) (chatSession sessionId : jsval)
    (localStorage : gmap string string) :
  standard_sort h ->
  blocked h localStorage ->
  saveChatSession h now chatSession localStorage = (false, localStorage)
  /\ deleteChatSession h sessionId localStorage = (false, localStorage).
Proof.
  intros Hstd [Hshape|(histories & Hget & Hnull)].
  - unfold saveChatSession, saveChatSession_list, deleteChatSession.
    destruct (getAllChatHistories h localStorage); try discriminate; split; reflexivity.
  - split.
    + unfold saveChatSession.
      destruct (saveChatSession_list_null h now chatSession localStorage histories
                  Hstd Hget Hnull) as [e ->]. reflexivity.
    + unfold deleteChatSession. rewrite Hget.
      destruct (filterM_throws
                  (fun session =>
                     sid ← get session "id"; Ok (negb (strict_eq sid sessionId)))
                  histories JNull Hnull) as [e He]; [simpl; eauto|].
      unfold without_session. rewrite He. reflexivity.
Qed.

(** A stored session followed by [null]. *)
Lemma blocked_store_stays_witness :
  blocked (Hosts.reading [JArr [Sample.session_a; JNull]])
    {[ CHAT_HISTORY_KEY := Sample.stringify (JArr [Sample.session_a; JNull]) ]}
  /\ saveChatSession (Hosts.reading [JArr [Sample.session_a; JNull]])
       "2026-11-02T09:00:00.000Z"
       (JObj [("id", JStr "a"); ("title", JStr "Fridge water filter")])
       {[ CHAT_HISTORY_KEY := Sample.stringify (JArr [Sample.session_a; JNull]) ]}
     = (false,
        {[ CHAT_HISTORY_KEY := Sample.stringify (JArr [Sample.session_a; JNull]) ]})
  /\ deleteChatSession (Hosts.reading [JArr [Sample.session_a; JNull]]) (JStr "a")
       {[ CHAT_HISTORY_KEY := Sample.stringify (JArr [Sample.session_a; JNull]) ]}
     = (false,
        {[ CHAT_HISTORY_KEY := Sample.stringify (JArr [Sample.session_a; JNull]) ]}).
Proof.
  assert (blocked (Hosts.reading [JArr [Sample.session_a; JNull]])
            {[ CHAT_HISTORY_KEY := Sample.stringify (JArr [Sample.session_a; JNull]) ]})
    as Hblocked.
  { right. exists [Sample.session_a; JNull]. split; [vm_compute; reflexivity|].
    apply list_elem_of_further, list_elem_of_here. }
  split; [exact Hblocked|].
  exact (blocked_store_stays (Hosts.reading [JArr [Sample.session_a; JNull]])
           "2026-11-02T09:00:00.000Z"
           (JObj [("id", JStr "a"); ("title", JStr "Fridge water filter")]) (JStr "a")
           {[ CHAT_HISTORY_KEY := Sample.stringify (JArr [Sample.session_a; JNull]) ]}
           (SortMore.sortM_standard (Hosts.reading [JArr [Sample.session_a; JNull]])
              eq_refl)
           Hblocked).
Defined.

(** X11.  [clearAllChatHistories] always brings the store back to
    work, whatever it held.  After it the store reads as the empty list;
    a save then succeeds for every argument (no callback and no
    comparator runs on an empty list, so nothing of the session is read)
    and stores the session alone, under the clock reading; a delete
    succeeds and stores the empty list.  (Of the engine's [sort] only
    the standard guarantees are used: a list of one is left as it
    is.) *)
Theorem clearAllChatHistories_recovers (h : host) (now : string)
    (chatSession sessionId : jsval) (localStorage : gmap string string) :
  standard_sort h ->
  (clearAllChatHistories localStorage).1 = true
  /\ getAllChatHistories h (clearAllChatHistories localStorage).2 = JArr []
  /\ saveChatSession h now chatSession (clearAllChatHistories localStorage).2
     = (true,
        <[ CHAT_HISTORY_KEY := JSON_stringify h (JArr [fresh_session now chatSession]) ]>
          localStorage)
  /\ deleteChatSession h sessionId (clearAllChatHistories localStorage).2
     = (true, <[ CHAT_HISTORY_KEY := JSON_stringify h (JArr []) ]> localStorage).
Proof.
  intros Hstd.
  assert (getAllChatHistories h (clearAllChatHistories localStorage).2 = JArr []) as Hget.
  { unfold getAllChatHistories, clearAllChatHistories. simpl.
    rewrite lookup_delete_eq. reflexivity. }
  split; [reflexivity|]. split; [exact Hget|]. split.
  - unfold saveChatSession, saveChatSession_list. rewrite Hget. simpl.
    rewrite (proj2 (proj2 (proj2 Hstd))), insert_delete_eq. reflexivity.
  - unfold deleteChatSession. rewrite Hget. simpl.
    rewrite insert_delete_eq. reflexivity.
Qed.

(** A store that holds the text of an object, cleared, and then a save
    of a session given as a text. *)
Lemma clearAllChatHistories_recovers_witness :
  saveChatSession Sample.sample_host "2026-11-02T09:00:00.000Z" (JStr "ab")
    (clearAllChatHistories {[ CHAT_HISTORY_KEY := "{}" ]}).2
  = (true,
     <[ CHAT_HISTORY_KEY :=
          Sample.stringify
            (JArr [JObj [("0", JStr "a"); ("1", JStr "b");
                         ("lastUpdated", JStr "2026-11-02T09:00:00.000Z")]]) ]>
       {[ CHAT_HISTORY_KEY := "{}" ]}).
Proof.
  apply (clearAllChatHistories_recovers Sample.sample_host "2026-11-02T09:00:00.000Z"
           (JStr "ab") JNull {[ CHAT_HISTORY_KEY := "{}" ]}
           (SortMore.sortM_standard Sample.sample_host eq_refl)).
Defined.

(** **** Objects under [obj_set] and spread *)

Lemma own_obj_set_ne (key k : string) (v : jsval) (fields : list (string * jsval)) :
  key <> k -> own (obj_set key v fields) k = own fields k.
Proof.
  intros Hne. rewrite own_obj_set_any. apply String.eqb_neq in Hne. rewrite Hne.
  reflexivity.
Qed.

Lemma own_rev (fields : list (string * jsval)) (k : string) :
  NoDup (map fst fields) -> own (rev fields) k = own fields k.
Proof.
  induction fields as [|[k' w] rest IH]; simpl; [reflexivity|].
  intros Hnd. apply NoDup_cons in Hnd as [Hk' Hnd].
  rewrite own_app, (IH Hnd). simpl.
  destruct (String.eqb k' k) eqn:Heq.
  - apply String.eqb_eq in Heq as ->. rewrite (own_None _ _ Hk'). reflexivity.
  - destruct (own rest k); reflexivity.
Qed.

(** What an object under construction holds after a spread: the last
    value the source gives the key, or else what it held. *)
Lemma own_assign (source target : list (string * jsval)) (k : string) :
  own (assign target source) k
  = match own (rev source) k with Some v => Some v | None => own target k end.
Proof.
  unfold assign. revert target.
  induction source as [|[k' w] rest IH]; intros target; simpl; [reflexivity|].
  rewrite IH, own_app. simpl.
  destruct (own (rev rest) k); [reflexivity|].
  rewrite own_obj_set_any. destruct (String.eqb k' k); reflexivity.
Qed.

Lemma keys_obj_set (key : string) (v : jsval) (fields : list (string * jsval)) :
  NoDup (map fst fields) -> NoDup (map fst (obj_set key v fields))
  /\ (forall k, k ∈ map fst (obj_set key v fields) <-> k = key \/ k ∈ map fst fields).
Proof.
  intros Hnd. pose proof (obj_set_keys key v fields) as Hkeys.
  destruct (own fields key) eqn:Hown.
  - split; [rewrite Hkeys; exact Hnd|]. intros k. rewrite Hkeys. split; [tauto|].
    intros [->|Hk]; [|exact Hk]. apply own_Some_key. rewrite Hown. discriminate.
  - split.
    + rewrite Hkeys. apply NoDup_cons. split; [|exact Hnd].
      intros Hin. apply own_Some_key_inv in Hin. congruence.
    + intros k. rewrite Hkeys, elem_of_cons. reflexivity.
Qed.

Lemma keys_assign (source target : list (string * jsval)) :
  NoDup (map fst target) -> NoDup (map fst (assign target source)).
Proof.
  unfold assign. revert target.
  induction source as [|[k' w] rest IH]; intros target Hnd; simpl; [exact Hnd|].
  apply IH, keys_obj_set, Hnd.
Qed.

Lemma strict_eq_eq (a b : jsval) : strict_eq a b = true -> a = b.
Proof.
  destruct a, b; simpl; try discriminate; try reflexivity.
  - intros Hb. apply Bool.eqb_prop in Hb. congruence.
  - intros Hb. apply andb_true_iff in Hb as [Hb _].
    apply String.eqb_eq in Hb. congruence.
  - intros Hb. apply String.eqb_eq in Hb. congruence.
Qed.

Lemma well_formed_readable (l : list jsval) : Forall well_formed l -> readable l.
Proof.
  intros Hl. eapply Forall_impl; [exact Hl|].
  intros v. destruct v; simpl; try contradiction. reflexivity.
Qed.

Lemma merged_session_well_formed now old chatSession :
  well_formed (merged_session now old chatSession).
Proof.
  unfold merged_session, well_formed.
  apply keys_obj_set, keys_assign, keys_assign. constructor.
Qed.

Lemma fresh_session_well_formed now chatSession :
  well_formed (fresh_session now chatSession).
Proof.
  unfold fresh_session, well_formed.
  apply keys_obj_set, keys_assign. constructor.
Qed.

(** The fields of a merged session. *)
Lemma merged_session_field now old chatSession (k : string) :
  well_formed old -> well_formed chatSession ->
  field (merged_session now old chatSession) k
  = if String.eqb "lastUpdated" k then JStr now
    else match chatSession with
         | JObj fields =>
             match own fields k with
             | Some v => v
             | None => field old k
             end
         | _ => field old k
         end.
Proof.
  destruct old as [| | | | | |old]; try contradiction.
  destruct chatSession as [| | | | | |fields]; try contradiction.
  cbn [well_formed]. intros Hold Hnew. unfold field, merged_session. cbn [get spread].
  rewrite own_obj_set_any. destruct (String.eqb "lastUpdated" k); [reflexivity|].
  rewrite !own_assign, !own_rev by assumption. cbn [own].
  destruct (own fields k); [reflexivity|]. destruct (own old k); reflexivity.
Qed.

Lemma fresh_session_field now chatSession (k : string) :
  well_formed chatSession ->
  field (fresh_session now chatSession) k
  = if String.eqb "lastUpdated" k then JStr now else field chatSession k.
Proof.
  destruct chatSession as [| | | | | |fields]; try contradiction.
  cbn [well_formed]. intros Hnew. unfold field, fresh_session. cbn [get spread].
  rewrite own_obj_set_any. destruct (String.eqb "lastUpdated" k); [reflexivity|].
  rewrite own_assign, own_rev by assumption. cbn [own].
  destruct (own fields k); reflexivity.
Qed.

(** X12.  Saving under an id the store knows is a merge, not a
    replacement.  The entry written for the session has the clock
    reading as [lastUpdated], every other property the saved session
    owns with the saved value, and every property it does not own with
    the value the stored entry had: a save that carries only a new
    [title] keeps the stored [messages].  This holds on every engine
    whose [sort] gives the standard guarantees. *)
Theorem saveChatSession_merges (h : host) (now : string)
    (fields : list (string * jsval)) (localStorage : gmap string string)
    (histories : list jsval) (i : nat) (old : jsval) :
  standard_sort h ->
  getAllChatHistories h localStorage = JArr histories ->
  Forall well_formed histories ->
  datable h histories ->
  NoDup (map fst fields) ->
  findIndex (has_id (field (JObj fields) "id")) histories = Some i ->
  histories !! i = Some old ->
  exists saved stored,
    saveChatSession_list h now (JObj fields) localStorage = Ok stored
    /\ saved ∈ stored
    /\ well_formed saved
    /\ forall k,
         field saved k
         = if String.eqb "lastUpdated" k then JStr now
           else match own fields k with
                | Some v => v
                | None => field old k
                end.
Proof.
  intros Hstd Hget Hwf Hd Hnd Hfind Hold.
  destruct (saveChatSession_list_perm h now (JObj fields) localStorage histories
              Hstd Hget (well_formed_readable _ Hwf) eq_refl Hd) as (stored & Hlist & Hperm).
  exists (merged_session now old (JObj fields)), stored.
  split; [exact Hlist|]. split; [|split].
  - rewrite Hperm. unfold upserted. rewrite Hfind, Hold. simpl.
    apply list_elem_of_lookup. exists i.
    apply list_lookup_insert_eq. eapply lookup_lt_Some, Hold.
  - apply merged_session_well_formed.
  - intros k. apply (merged_session_field now old (JObj fields) k); [|exact Hnd].
    rewrite Forall_forall in Hwf. apply Hwf. eapply list_elem_of_lookup_2, Hold.
Qed.

(** The session of 2020 saved again with a new title only. *)
Lemma saveChatSession_merges_witness :
  exists saved stored,
    saveChatSession_list Sample.sample_host "2026-11-02T09:00:00.000Z"
      (JObj [("id", JStr "a"); ("title", JStr "Fridge water filter")])
      {[ CHAT_HISTORY_KEY := Sample.stringify (JArr [Sample.session_a; Sample.session_b]) ]}
    = Ok stored
    /\ saved ∈ stored
    /\ field saved "title" = JStr "Fridge water filter"
    /\ field saved "messages" = JArr [Sample.greeting]
    /\ field saved "lastUpdated" = JStr "2026-11-02T09:00:00.000Z".
Proof.
  destruct (saveChatSession_merges Sample.sample_host "2026-11-02T09:00:00.000Z"
              [("id", JStr "a"); ("title", JStr "Fridge water filter")]
              {[ CHAT_HISTORY_KEY :=
                   Sample.stringify (JArr [Sample.session_a; Sample.session_b]) ]}
              [Sample.session_a; Sample.session_b] 0 Sample.session_a)
    as (saved & stored & Hlist & Hin & _ & Hfields).
  { apply SortMore.sortM_standard. reflexivity. }
  { vm_compute. reflexivity. }
  { repeat constructor; simpl; set_solver. }
  { repeat constructor; eexists; reflexivity. }
  { repeat constructor; simpl; set_solver. }
  { reflexivity. }
  { reflexivity. }
  exists saved, stored. split; [exact Hlist|]. split; [exact Hin|].
  rewrite !Hfields. repeat split; reflexivity.
Defined.

(** **** The invariant of the store *)

Lemma merged_session_id now old chatSession :
  well_formed old -> well_formed chatSession ->
  has_id (field chatSession "id") old = true ->
  field (merged_session now old chatSession) "id" = field old "id".
Proof.
  intros Hold Hnew Hid. rewrite merged_session_field by assumption.
  apply strict_eq_eq in Hid. cbn [String.eqb Ascii.eqb Bool.eqb].
  destruct chatSession as [| | | | | |fields]; try reflexivity.
  unfold field in Hid |- *. cbn [get] in Hid |- *.
  destruct (own fields "id"); [symmetry; exact Hid|reflexivity].
Qed.

Lemma filter_none {A} (q : A -> bool) (l : list A) :
  Forall (fun x => q x = false) l -> List.filter q l = [].
Proof.
  induction 1 as [|x l Hx _ IH]; simpl; [reflexivity|]. rewrite Hx. exact IH.
Qed.

(** The ids of the list a save sorts. *)
Lemma upserted_ids now chatSession histories :
  Forall well_formed histories -> well_formed chatSession ->
  ids (upserted now chatSession histories)
  = match findIndex (has_id (field chatSession "id")) histories with
    | Some _ => ids histories
    | None => ids histories ++ [field chatSession "id"]
    end.
Proof.
  intros Hwf Hnew. unfold upserted, ids.
  destruct (findIndex _ _) as [i|] eqn:Hfind.
  - destruct (ChatHistoryProps.findIndex_Some _ _ _ Hfind) as (old & Hold & Hq & _).
    rewrite Hold. simpl. rewrite list_fmap_insert, merged_session_id; [|  |exact Hnew|exact Hq].
    + apply list_insert_id. rewrite list_lookup_fmap, Hold. reflexivity.
    + rewrite Forall_forall in Hwf. apply Hwf. eapply list_elem_of_lookup_2, Hold.
  - rewrite map_app. simpl. rewrite fresh_session_field by exact Hnew. reflexivity.
Qed.

Lemma store_invariant_perm (h : host) (l k : list jsval) :
  l ≡ₚ k -> store_invariant h k -> store_invariant h l.
Proof.
  intros Hperm (Hwf & Hc & Hnd & Hd).
  assert (ids l ≡ₚ ids k) as Hids by (unfold ids; rewrite Hperm; reflexivity).
  unfold store_invariant, datable in *. rewrite Hids.
  split; [|split; [exact Hc|split; [exact Hnd|]]]; rewrite Forall_forall in *;
    intros x Hx; [apply Hwf|apply Hd]; rewrite <- Hperm; exact Hx.
Qed.

Lemma store_invariant_filter (h : host) (p : jsval -> bool) (l : list jsval) :
  store_invariant h l -> store_invariant h (List.filter p l).
Proof.
  intros (Hwf & Hc & Hnd & Hd).
  assert (sublist (ids (List.filter p l)) (ids l)) as Hsub.
  { unfold ids. apply (fmap_sublist (fun session => field session "id")), sublist_filter. }
  unfold store_invariant, datable in *.
  split; [|split; [|split; [exact (sublist_NoDup _ _ Hnd Hsub)|]]].
  - rewrite Forall_forall in *. intros x Hx. apply Hwf.
    apply list_elem_of_In, filter_In in Hx as [Hx _]. apply list_elem_of_In, Hx.
  - clear -Hc Hsub. induction Hsub as [|x a b _ IH|x a b _ IH]; [constructor| |].
    + apply Forall_cons in Hc as [Hx Hc]. constructor; [exact Hx|apply IH, Hc].
    + apply Forall_cons in Hc as [_ Hc]. apply IH, Hc.
  - rewrite Forall_forall in *. intros x Hx. apply Hd.
    apply list_elem_of_In, filter_In in Hx as [Hx _]. apply list_elem_of_In, Hx.
Qed.

Lemma upserted_well_formed now chatSession histories :
  Forall well_formed histories -> Forall well_formed (upserted now chatSession histories).
Proof.
  intros Hwf. unfold upserted. destruct (findIndex _ _).
  - apply Forall_insert; [exact Hwf|apply merged_session_well_formed].
  - apply Forall_app. split; [exact Hwf|].
    repeat constructor. apply fresh_session_well_formed.
Qed.

Lemma upserted_invariant (h : host) now chatSession histories :
  store_invariant h histories ->
  well_formed chatSession ->
  comparable (field chatSession "id") ->
  store_invariant h (upserted now chatSession histories).
Proof.
  intros (Hwf & Hc & Hnd & Hd) Hnew Hid. unfold store_invariant.
  rewrite (upserted_ids now chatSession histories Hwf Hnew).
  split; [apply upserted_well_formed, Hwf|].
  destruct (findIndex (has_id (field chatSession "id")) histories) as [i|] eqn:Hfind.
  - split; [exact Hc|]. split; [exact Hnd|]. apply upserted_datable, Hd.
  - split; [apply Forall_app; split; [exact Hc|repeat constructor; exact Hid]|].
    split; [|apply upserted_datable, Hd].
    apply NoDup_app. split; [exact Hnd|]. split; [|apply NoDup_singleton].
    intros id Hin Hsame. apply list_elem_of_singleton in Hsame. subst id.
    apply ChatHistoryProps.findIndex_None in Hfind. rewrite Forall_forall in Hfind.
    apply list_elem_of_fmap in Hin as (session & Heq & Hsession).
    specialize (Hfind session Hsession). unfold has_id in Hfind.
    rewrite <- Heq in Hfind. unfold comparable in Hid. congruence.
Qed.

(** X13.  What the store keeps true of its list.  If the stored
    sessions are plain objects whose ids are comparable (primitives other
    than [NaN]: what [===] can tell apart) and all different, and whose
    [lastUpdated] converts to a date without throwing, then a save of a
    plain object with a comparable id and a delete of any id both
    succeed, and the list they write is again such a list: no id occurs
    in the store twice.  The ids after a save are the ids before it,
    with the saved id added when it was not there.  This holds on every
    engine whose [sort] gives the standard guarantees. *)
Theorem store_invariant_kept (h : host) (now : string) (chatSession sessionId : jsval)
    (localStorage : gmap string string) (histories : list jsval) :
  standard_sort h ->
  getAllChatHistories h localStorage = JArr histories ->
  store_invariant h histories ->
  well_formed chatSession ->
  comparable (field chatSession "id") ->
  (exists stored,
     saveChatSession h now chatSession localStorage
     = (true, <[ CHAT_HISTORY_KEY := JSON_stringify h (JArr stored) ]> localStorage)
     /\ store_invariant h stored
     /\ NoDup (ids stored)
     /\ ids stored
        ≡ₚ match findIndex (has_id (field chatSession "id")) histories with
           | Some _ => ids histories
           | None => ids histories ++ [field chatSession "id"]
           end)
  /\ (exists kept,
        deleteChatSession h sessionId localStorage
        = (true, <[ CHAT_HISTORY_KEY := JSON_stringify h (JArr kept) ]> localStorage)
        /\ store_invariant h kept
        /\ NoDup (ids kept)).
Proof.
  intros Hstd Hget Hinv Hnew Hid. pose proof Hinv as (Hwf & Hc & Hnd & Hd). split.
  - destruct (saveChatSession_list_perm h now chatSession localStorage histories
                Hstd Hget)
      as (stored & Hlist & Hperm);
      [apply well_formed_readable, Hwf
      |destruct chatSession; try contradiction; reflexivity
      |exact Hd|].
    exists stored. unfold saveChatSession. rewrite Hlist. split; [reflexivity|].
    pose proof (store_invariant_perm h _ _ Hperm
                  (upserted_invariant h now chatSession histories Hinv Hnew Hid))
      as Hstored.
    split; [exact Hstored|]. split; [apply Hstored|].
    rewrite <- (upserted_ids now chatSession histories Hwf Hnew).
    unfold ids. rewrite Hperm. reflexivity.
  - exists (others sessionId histories). unfold deleteChatSession. rewrite Hget.
    rewrite DeleteProps.without_session_readable by apply well_formed_readable, Hwf.
    split; [reflexivity|].
    pose proof (store_invariant_filter h (fun session => negb (has_id sessionId session))
                  histories Hinv) as Hkept.
    split; [exact Hkept|apply Hkept].
Qed.

(** Two stored sessions; the first saved again, the second deleted. *)
Lemma store_invariant_kept_witness :
  (exists stored,
     saveChatSession Sample.sample_host "2026-11-02T09:00:00.000Z"
       (JObj [("id", JStr "a"); ("title", JStr "Fridge water filter")])
       {[ CHAT_HISTORY_KEY := Sample.stringify (JArr [Sample.session_a; Sample.session_b]) ]}
     = (true,
        <[ CHAT_HISTORY_KEY := Sample.stringify (JArr stored) ]>
          {[ CHAT_HISTORY_KEY :=
               Sample.stringify (JArr [Sample.session_a; Sample.session_b]) ]})
     /\ ids stored ≡ₚ [JStr "a"; JStr "b"])
  /\ (exists kept,
        deleteChatSession Sample.sample_host (JStr "b")
          {[ CHAT_HISTORY_KEY :=
               Sample.stringify (JArr [Sample.session_a; Sample.session_b]) ]}
        = (true,
           <[ CHAT_HISTORY_KEY := Sample.stringify (JArr kept) ]>
             {[ CHAT_HISTORY_KEY :=
                  Sample.stringify (JArr [Sample.session_a; Sample.session_b]) ]})
        /\ NoDup (ids kept)).
Proof.
  destruct (store_invariant_kept Sample.sample_host "2026-11-02T09:00:00.000Z"
              (JObj [("id", JStr "a"); ("title", JStr "Fridge water filter")]) (JStr "b")
              {[ CHAT_HISTORY_KEY :=
                   Sample.stringify (JArr [Sample.session_a; Sample.session_b]) ]}
              [Sample.session_a; Sample.session_b])
    as [(stored & Hsave & _ & _ & Hids) (kept & Hdelete & _ & Hnd)].
  { apply SortMore.sortM_standard. reflexivity. }
  { vm_compute. reflexivity. }
  { split; [|split; [|split]].
    - repeat constructor; simpl; set_solver.
    - repeat constructor.
    - repeat constructor; simpl; set_solver.
    - repeat constructor; eexists; reflexivity. }
  { simpl. repeat constructor; simpl; set_solver. }
  { reflexivity. }
  split; [exists stored|exists kept]; split; assumption.
Defined.

(** **** Round trips through the store *)

Lemma getAllChatHistories_written (h : host) (l : list jsval)
    (localStorage : gmap string string) :
  reads_back h l ->
  getAllChatHistories h (<[ CHAT_HISTORY_KEY := JSON_stringify h (JArr l) ]> localStorage)
  = JArr l.
Proof.
  intros [Htext Hparse]. unfold getAllChatHistories.
  rewrite lookup_insert_eq. apply String.eqb_neq in Htext. rewrite Htext, Hparse.
  reflexivity.
Qed.

Lemma others_others (id : jsval) (l : list jsval) : others id (others id l) = others id l.
Proof.
  unfold others. induction l as [|x l IH]; simpl; [reflexivity|].
  destruct (negb (has_id id x)) eqn:Hx; simpl; rewrite ?Hx, IH; reflexivity.
Qed.

(** X14.  Deleting twice is deleting once.  When the host reads back
    the list the first delete wrote, a second delete of the same id
    succeeds and leaves the store exactly as the first one left it. *)
Theorem deleteChatSession_twice (h : host) (sessionId : jsval)
    (localStorage : gmap string string) (histories : list jsval) :
  getAllChatHistories h localStorage = JArr histories ->
  readable histories ->
  reads_back h (others sessionId histories) ->
  deleteChatSession h sessionId (deleteChatSession h sessionId localStorage).2
  = deleteChatSession h sessionId localStorage.
Proof.
  intros Hget Hr Hback.
  assert (deleteChatSession h sessionId localStorage
          = (true,
             <[ CHAT_HISTORY_KEY := JSON_stringify h (JArr (others sessionId histories)) ]>
               localStorage)) as Hfirst.
  { unfold deleteChatSession. rewrite Hget.
    rewrite (DeleteProps.without_session_readable _ _ Hr). reflexivity. }
  rewrite Hfirst. cbn [snd]. unfold deleteChatSession at 1.
  rewrite (getAllChatHistories_written h _ localStorage Hback).
  rewrite DeleteProps.without_session_readable by apply readable_filter, Hr.
  rewrite others_others, insert_insert_eq. reflexivity.
Qed.

(** Two stored sessions, the second deleted twice. *)
Lemma deleteChatSession_twice_witness :
  deleteChatSession Sample.sample_host (JStr "b")
    (deleteChatSession Sample.sample_host (JStr "b")
       {[ CHAT_HISTORY_KEY :=
            Sample.stringify (JArr [Sample.session_a; Sample.session_b]) ]}).2
  = (true,
     <[ CHAT_HISTORY_KEY := Sample.stringify (JArr [Sample.session_a]) ]>
       {[ CHAT_HISTORY_KEY :=
            Sample.stringify (JArr [Sample.session_a; Sample.session_b]) ]}).
Proof.
  rewrite (deleteChatSession_twice Sample.sample_host (JStr "b")
             {[ CHAT_HISTORY_KEY :=
                  Sample.stringify (JArr [Sample.session_a; Sample.session_b]) ]}
             [Sample.session_a; Sample.session_b]).
  - vm_compute. reflexivity.
  - vm_compute. reflexivity.
  - repeat constructor.
  - split; [vm_compute; discriminate|vm_compute; reflexivity].
Defined.

(** **** Saving a new session and deleting it again *)

Section Sorted.
Context {A : Type} (cmp : A -> A -> result (option Z)) (key : A -> Z).

Lemma insertion_pass_descending (todo racc : list A) :
  keyed cmp key (rev racc ++ todo) ->
  descending key (rev racc ++ todo) ->
  insertion_pass cmp racc todo = Ok (rev todo ++ racc).
Proof.
  revert racc. induction todo as [|x rest IH]; intros racc Hkeyed Hdesc; [reflexivity|].
  cbn [insertion_pass].
  assert (insert_from_right cmp x racc = Ok (x :: racc)) as ->.
  { destruct racc as [|y racc]; [reflexivity|]. cbn [insert_from_right].
    rewrite Hkeyed by set_solver. simpl.
    assert (key x <= key y)%Z as Hxy.
    { apply (StronglySorted_app_1_elem_of _ _ _ y x Hdesc); set_solver. }
    destruct (key y - key x <? 0)%Z eqn:Hlt; [lia|reflexivity]. }
  simpl. rewrite IH.
  - rewrite <- app_assoc. reflexivity.
  - simpl. rewrite <- app_assoc. exact Hkeyed.
  - simpl. rewrite <- app_assoc. exact Hdesc.
Qed.

Lemma insert_from_right_split (x : A) (racc r : list A) :
  insert_from_right cmp x racc = Ok r ->
  exists a b, racc = a ++ b /\ r = a ++ x :: b.
Proof.
  revert r. induction racc as [|y rest IH]; intros r; simpl.
  - intros [= <-]. exists [], []. split; reflexivity.
  - destruct (cmp x y) as [c|e]; simpl; [|discriminate].
    destruct (before c).
    + destruct (insert_from_right cmp x rest) as [r'|e]; simpl; [|discriminate].
      intros [= <-]. destruct (IH r' eq_refl) as (a & b & -> & ->).
      exists (y :: a), b. split; reflexivity.
    + intros [= <-]. exists [], (y :: rest). split; reflexivity.
Qed.

Lemma insertion_pass_app (racc a b : list A) :
  insertion_pass cmp racc (a ++ b)
  = racc' ← insertion_pass cmp racc a; insertion_pass cmp racc' b.
Proof.
  revert racc. induction a as [|x a IH]; intros racc; simpl; [reflexivity|].
  destruct (insert_from_right cmp x racc); simpl; [apply IH|reflexivity].
Qed.

End Sorted.

Lemma newest_first_descending (h : host) (l : list jsval) :
  dated h l -> newest_first h l -> descending (time_key h) l.
Proof.
  unfold dated, newest_first, descending. intros Hd Hs.
  induction Hs as [|a l _ IH Ha]; constructor.
  - apply IH. apply Forall_cons in Hd as [_ Hd]. exact Hd.
  - apply Forall_cons in Hd as [[ta Hta] Hd].
    rewrite Forall_forall in *. intros b Hb.
    destruct (Hd b Hb) as [tb Htb]. specialize (Ha b Hb ta tb Hta Htb).
    unfold time_key. rewrite Hta, Htb. exact Ha.
Qed.

Lemma filter_all {A} (q : A -> bool) (l : list A) :
  Forall (fun x => q x = true) l -> List.filter q l = l.
Proof.
  induction 1 as [|x l Hx _ IH]; simpl; [reflexivity|]. rewrite Hx, IH. reflexivity.
Qed.

(** The list a save writes when the store is in order and the id is
    new: the stored list with the new session put in somewhere. *)
Lemma saveChatSession_list_new (h : host) (now : string) (chatSession : jsval)
    (localStorage : gmap string string) (histories : list jsval) :
  (standard_sort h /\ exists t, Date_parse h now = Some t)
  \/ Array_sort h = JSArray.sortM ->
  getAllChatHistories h localStorage = JArr histories ->
  readable histories ->
  nullish chatSession = false ->
  dated h histories ->
  newest_first h histories ->
  Forall (fun session => has_id (field chatSession "id") session = false) histories ->
  exists front back,
    histories = front ++ back
    /\ saveChatSession_list h now chatSession localStorage
       = Ok (front ++ fresh_session now chatSession :: back).
Proof.
  intros Hsorts Hget Hr Hsession Hd Hsorted Hnew.
  assert (standard_sort h) as Hstd.
  { destruct Hsorts as [[Hstd _]|Hsort]; [exact Hstd|].
    apply SortMore.sortM_standard, Hsort. }
  assert (datable h histories) as Hdatable.
  { eapply Forall_impl; [exact Hd|]. intros session [t' Ht]. unfold time_of in Ht.
    destruct (Date_value h (field session "lastUpdated")) as [d|]; [|discriminate].
    exists d. reflexivity. }
  destruct (saveChatSession_list_perm h now chatSession localStorage histories
              Hstd Hget Hr Hsession Hdatable) as (stored & Hlist & _).
  unfold saveChatSession_list in Hlist |- *. rewrite Hget in Hlist |- *.
  rewrite (ChatHistoryProps.findIndexM_pure _ (has_id (field chatSession "id")))
    in Hlist |- *.
  2,3: eapply Forall_impl; [exact Hr|]; intros session Hs; simpl in Hs;
       rewrite (get_field _ _ Hs), (get_field _ _ Hsession); reflexivity.
  assert (findIndex (has_id (field chatSession "id")) histories = None) as Hnone.
  { clear -Hnew. induction Hnew as [|x l Hx _ IH]; simpl; [reflexivity|].
    rewrite Hx, IH. reflexivity. }
  rewrite Hnone in Hlist |- *. cbn [mbind result_bind] in Hlist |- *.
  assert (Forall (fun v => is_undefined v = false)
            (histories ++ [fresh_session now chatSession])) as Hdef.
  { apply Forall_app. split; [apply ChatHistoryProps.readable_defined, Hr|].
    repeat constructor. }
  assert (Array_sort h (by_lastUpdated h) (histories ++ [fresh_session now chatSession])
          = sortM (by_lastUpdated h) (histories ++ [fresh_session now chatSession]))
    as Hsort.
  { destruct Hsorts as [[_ [t Hnow]]|Hsort]; [|rewrite Hsort; reflexivity].
    apply (proj1 Hstd _ (time_key h) _ Hdef).
    apply ChatHistoryProps.by_lastUpdated_keyed.
    - apply Forall_app. split; [exact Hr|repeat constructor].
    - apply Forall_app. split; [exact Hd|]. repeat constructor.
      exists t. apply ChatHistoryProps.saved_session_dated, Hnow. }
  rewrite Hsort in Hlist |- *.
  unfold sortM in Hlist |- *.
  rewrite (filter_none is_undefined _ Hdef) in Hlist |- *.
  rewrite filter_all in Hlist |- *.
  2,3: eapply Forall_impl; [exact Hdef|]; intros v Hv; simpl in Hv; rewrite Hv; reflexivity.
  rewrite insertion_pass_app in Hlist |- *.
  rewrite (insertion_pass_descending (by_lastUpdated h) (time_key h) histories [])
    in Hlist |- *.
  2,4: apply ChatHistoryProps.by_lastUpdated_keyed; assumption.
  2,3: apply newest_first_descending; assumption.
  rewrite app_nil_r in Hlist |- *. cbn [mbind result_bind insertion_pass] in Hlist |- *.
  destruct (insert_from_right (by_lastUpdated h) (fresh_session now chatSession)
              (rev histories)) as [r|e] eqn:Hins; [|discriminate].
  apply insert_from_right_split in Hins as (a & b & Hrev & ->).
  exists (rev b), (rev a). split.
  - rewrite <- rev_app_distr, <- Hrev, rev_involutive. reflexivity.
  - simpl. rewrite app_nil_r, rev_app_distr. simpl. rewrite <- app_assoc. reflexivity.
Qed.

(** X15.  Save and delete undo each other.  The store holds sessions
    in order, most recent first, each with a valid date, and none of
    them with the id of the session to be saved (a string).  Saving that
    session and then deleting it by its id leaves the stored list as it
    was, entry for entry, provided the host reads back the text the save
    wrote.  This holds on every engine whose [sort] gives the standard
    guarantees when the clock reading is a valid date (as
    [toISOString] gives), and under insertion sort whatever the clock
    reading is. *)
Theorem save_then_delete (h : host) (now : string) (id : string) (chatSession : jsval)
    (localStorage : gmap string string) (histories : list jsval) :
  (standard_sort h /\ exists t, Date_parse h now = Some t)
  \/ Array_sort h = JSArray.sortM ->
  getAllChatHistories h localStorage = JArr histories ->
  Forall well_formed histories ->
  dated h histories ->
  newest_first h histories ->
  well_formed chatSession ->
  field chatSession "id" = JStr id ->
  Forall (fun session => has_id (JStr id) session = false) histories ->
  (forall stored,
     saveChatSession_list h now chatSession localStorage = Ok stored ->
     reads_back h stored) ->
  (saveChatSession h now chatSession localStorage).1 = true
  /\ deleteChatSession h (JStr id) (saveChatSession h now chatSession localStorage).2
     = (true, <[ CHAT_HISTORY_KEY := JSON_stringify h (JArr histories) ]> localStorage).
Proof.
  intros Hsorts Hget Hwf Hd Hsorted Hnew Hid Hfresh Hback.
  pose proof (well_formed_readable _ Hwf) as Hr.
  destruct (saveChatSession_list_new h now chatSession localStorage histories)
    as (front & back & Hsplit & Hlist); try assumption.
  { destruct chatSession; try contradiction; reflexivity. }
  { rewrite Hid. exact Hfresh. }
  specialize (Hback _ Hlist).
  unfold saveChatSession. rewrite Hlist. cbn [fst snd]. split; [reflexivity|].
  unfold deleteChatSession.
  rewrite (getAllChatHistories_written h _ localStorage Hback).
  assert (readable (front ++ fresh_session now chatSession :: back)) as Hr'.
  { subst histories. apply Forall_app in Hr as [Hfront Hback'].
    apply Forall_app. split; [exact Hfront|]. constructor; [reflexivity|exact Hback']. }
  rewrite (DeleteProps.without_session_readable _ _ Hr').
  rewrite insert_insert_eq. do 3 f_equal.
  subst histories. apply Forall_app in Hfresh as [Hfront Hback'].
  unfold others. rewrite List.filter_app. simpl.
  assert (has_id (JStr id) (fresh_session now chatSession) = true) as ->.
  { unfold has_id. rewrite fresh_session_field by exact Hnew.
    cbn [String.eqb Ascii.eqb Bool.eqb]. rewrite Hid. simpl. apply String.eqb_refl. }
  simpl. rewrite !filter_all; [reflexivity| |].
  - eapply Forall_impl; [exact Hback'|]. intros v Hv. simpl in Hv. rewrite Hv. reflexivity.
  - eapply Forall_impl; [exact Hfront|]. intros v Hv. simpl in Hv. rewrite Hv. reflexivity.
Qed.

(** The session of 2020 in the store; a session saved in 2026 and
    deleted again. *)
Lemma save_then_delete_witness :
  deleteChatSession
    (Hosts.reading
       [ JArr [Sample.session_a];
         JArr [ JObj [("id", JStr "c"); ("title", JStr "Dishwasher rack");
                      ("lastUpdated", JStr "2026-11-02T09:00:00.000Z")];
                Sample.session_a ] ])
    (JStr "c")
    (saveChatSession
       (Hosts.reading
          [ JArr [Sample.session_a];
            JArr [ JObj [("id", JStr "c"); ("title", JStr "Dishwasher rack");
                         ("lastUpdated", JStr "2026-11-02T09:00:00.000Z")];
                   Sample.session_a ] ])
       "2026-11-02T09:00:00.000Z"
       (JObj [("id", JStr "c"); ("title", JStr "Dishwasher rack")])
       {[ CHAT_HISTORY_KEY := Sample.stringify (JArr [Sample.session_a]) ]}).2
  = (true,
     <[ CHAT_HISTORY_KEY := Sample.stringify (JArr [Sample.session_a]) ]>
       {[ CHAT_HISTORY_KEY := Sample.stringify (JArr [Sample.session_a]) ]}).
Proof.
  apply (save_then_delete
           (Hosts.reading
              [ JArr [Sample.session_a];
                JArr [ JObj [("id", JStr "c"); ("title", JStr "Dishwasher rack");
                             ("lastUpdated", JStr "2026-11-02T09:00:00.000Z")];
                       Sample.session_a ] ])
           "2026-11-02T09:00:00.000Z" "c"
           (JObj [("id", JStr "c"); ("title", JStr "Dishwasher rack")])
           {[ CHAT_HISTORY_KEY := Sample.stringify (JArr [Sample.session_a]) ]}
           [Sample.session_a]).
  - left. split; [apply SortMore.sortM_standard; reflexivity|].
    exists 1793610000000%Z. reflexivity.
  - vm_compute. reflexivity.
  - repeat constructor; simpl; set_solver.
  - repeat constructor. eexists. vm_compute. reflexivity.
  - repeat constructor.
  - simpl. repeat constructor; simpl; set_solver.
  - reflexivity.
  - repeat constructor.
  - intros stored Hstored. vm_compute in Hstored. injection Hstored as <-.
    split; [vm_compute; discriminate|vm_compute; reflexivity].
Defined.

End ChatHistoryMore.

(** *** The sessions of the chat window *)
Module SessionProps.
Import Props Facts Terms JSArray ChatWindow Sessions SessionTerms.

Lemma carries_pure (id : jsval) (l : list jsval) :
  readable l -> Forall (fun session => carries id session = Ok (has_id id session)) l.
Proof.
  intros Hr. eapply Forall_impl; [exact Hr|]. intros session Hs. simpl in Hs.
  unfold carries, has_id. rewrite (get_field _ _ Hs). reflexivity.
Qed.

Lemma find_pure {A} (p : A -> result bool) (q : A -> bool) (l : list A) :
  Forall (fun x => p x = Ok (q x)) l ->
  someM p l = Ok (bool_decide (is_Some (findIndex q l)))
  /\ findM p l = Ok (i ← findIndex q l; l !! i).
Proof.
  induction 1 as [|x l Hx _ [IHsome IHfind]]; simpl; [split; reflexivity|].
  rewrite Hx. simpl. destruct (q x); [split; reflexivity|].
  rewrite IHsome, IHfind. destruct (findIndex q l); split; reflexivity.
Qed.

Lemma read_history_saved (h : host) (s : state) :
  history_saved h s -> read_history h (localStorage s) = Ok (JArr (chatHistory s)).
Proof.
  intros (Htext & [Hne Hparse] & _). unfold read_history. rewrite Htext.
  apply String.eqb_neq in Hne. rewrite Hne, Hparse. reflexivity.
Qed.

(** X16.  What the component saved is what a reload shows.  When the
    store holds the text of the session list, names the open session,
    and that session holds the messages on screen, the effect that runs
    on the next mount brings back the same list, the same open session
    and the same messages, makes no new session and writes nothing. *)
Theorem mount_restores (h : host) (newSessionId now mounted : string) (s : state) :
  saved h s ->
  exists s',
    mount h newSessionId now mounted (initial mounted (localStorage s)) = Ok s'
    /\ chatHistory s' = chatHistory s
    /\ currentSessionId s' = currentSessionId s
    /\ messages s' = messages s
    /\ localStorage s' = localStorage s.
Proof.
  intros [Hhistory (id & Hid & Hcurrent & Hstate & i & session & Hfind & Hi & Hmsgs)].
  unfold mount. cbn [localStorage initial].
  rewrite (read_history_saved h s Hhistory), Hcurrent. cbn [mbind result_bind].
  apply String.eqb_neq in Hid. rewrite Hid.
  destruct Hhistory as (_ & _ & Hr).
  destruct (find_pure _ _ _ (carries_pure (JStr id) _ Hr)) as [Hsome Hfound].
  rewrite Hsome, Hfind. rewrite bool_decide_eq_true_2 by (eexists; reflexivity).
  cbn [mbind result_bind]. rewrite Hfound, Hfind.
  cbn [mbind result_bind option_bind]. rewrite Hi. cbn [default].
  assert (nullish session = false) as Hs.
  { unfold readable in Hr. rewrite Forall_forall in Hr.
    apply Hr. eapply list_elem_of_lookup_2, Hi. }
  rewrite (get_field _ _ Hs), Hmsgs. cbn [mbind result_bind].
  eexists. split; [reflexivity|]. rewrite Hstate. repeat split; reflexivity.
Qed.

(** A reload at noon after the second session was started at ten. *)
Lemma mount_restores_witness :
  exists s',
    mount SessionSamples.browser "m2x9zz" "2026-11-02T12:00:00.000Z"
      "2026-11-02T12:00:00.000Z"
      (initial "2026-11-02T12:00:00.000Z" (localStorage SessionSamples.restarted))
    = Ok s'
    /\ chatHistory s' = [SessionSamples.second; SessionSamples.first]
    /\ currentSessionId s' = JStr "m2x5p3"
    /\ messages s' = defaultMessage "2026-11-02T08:00:00.000Z".
Proof.
  destruct (mount_restores SessionSamples.browser "m2x9zz" "2026-11-02T12:00:00.000Z"
              "2026-11-02T12:00:00.000Z" SessionSamples.restarted)
    as (s' & Hmount & Hhistory & Hid & Hmessages & _).
  { split.
    - split; [vm_compute; reflexivity|]. split; [|repeat constructor].
      split; [vm_compute; discriminate|vm_compute; reflexivity].
    - exists "m2x5p3". split; [discriminate|]. split; [vm_compute; reflexivity|].
      split; [reflexivity|]. exists 0, SessionSamples.second.
      repeat split; reflexivity. }
  exists s'. split; [exact Hmount|]. repeat split; assumption.
Defined.

Lemma has_id_object (id : string) (session : jsval) :
  has_id (JStr id) session = true -> exists fields, session = JObj fields.
Proof.
  destruct session; unfold has_id, field; simpl; try discriminate.
  intros _. eexists. reflexivity.
Qed.

Lemma newSession_id (id now mounted : string) :
  has_id (JStr id) (newSession id now mounted) = true.
Proof. unfold has_id, field. simpl. apply String.eqb_refl. Qed.

(** The state [startNewChat] leaves. *)
Lemma startNewChat_state (h : host) (newSessionId now mounted : string) (s : state) :
  newSessionId <> "" ->
  readable (chatHistory s) ->
  reads_back h (newSession newSessionId now mounted :: chatHistory s) ->
  saved h (startNewChat h newSessionId now mounted s)
  /\ shown newSessionId (startNewChat h newSessionId now mounted s)
  /\ chatHistory (startNewChat h newSessionId now mounted s)
     = newSession newSessionId now mounted :: chatHistory s
  /\ messages (startNewChat h newSessionId now mounted s) = defaultMessage mounted
  /\ input (startNewChat h newSessionId now mounted s) = input s
  /\ isLoading (startNewChat h newSessionId now mounted s) = isLoading s
  /\ outbox (startNewChat h newSessionId now mounted s) = outbox s.
Proof.
  intros Hid Hr Hback.
  assert (shown newSessionId (startNewChat h newSessionId now mounted s)) as Hshown.
  { split; [exact Hid|]. split; [apply lookup_insert_eq|]. split; [reflexivity|].
    exists 0, (newSession newSessionId now mounted). cbn [chatHistory startNewChat
      setShowHistory setMessages setItem setCurrentSessionId setChatHistory].
    split; [|split; reflexivity].
    cbn [findIndex]. rewrite newSession_id. reflexivity. }
  split; [split; [|exists newSessionId; exact Hshown]|split; [exact Hshown|]].
  - split; [|split].
    + cbn [localStorage chatHistory startNewChat setShowHistory setMessages setItem
           setCurrentSessionId setChatHistory].
      rewrite lookup_insert_ne by discriminate. apply lookup_insert_eq.
    + exact Hback.
    + constructor; [reflexivity|exact Hr].
  - repeat split; reflexivity.
Qed.

(** X17.  [+ New Chat] leaves a state that is saved.  After
    [startNewChat] the new session heads the list, the screen shows the
    welcome message, and store and state agree: a reload would show this
    very session.  It does not touch a request in flight: the input, the
    loading flag and the request log are as before. *)
Theorem startNewChat_saved (h : host) (newSessionId now mounted : string) (s : state) :
  newSessionId <> "" ->
  readable (chatHistory s) ->
  reads_back h (newSession newSessionId now mounted :: chatHistory s) ->
  saved h (startNewChat h newSessionId now mounted s)
  /\ shown newSessionId (startNewChat h newSessionId now mounted s)
  /\ chatHistory (startNewChat h newSessionId now mounted s)
     = newSession newSessionId now mounted :: chatHistory s
  /\ messages (startNewChat h newSessionId now mounted s) = defaultMessage mounted
  /\ input (startNewChat h newSessionId now mounted s) = input s
  /\ isLoading (startNewChat h newSessionId now mounted s) = isLoading s
  /\ outbox (startNewChat h newSessionId now mounted s) = outbox s.
Proof.
  intros Hid Hr Hback.
  destruct (startNewChat_state h newSessionId now mounted s Hid Hr Hback)
    as (Hsaved & Hshown & Hrest).
  split; [exact Hsaved|]. split; [exact Hshown|exact Hrest].
Qed.

Lemma startNewChat_saved_witness :
  saved SessionSamples.browser SessionSamples.restarted
  /\ chatHistory SessionSamples.restarted = [SessionSamples.second; SessionSamples.first].
Proof.
  destruct (startNewChat_saved SessionSamples.browser "m2x5p3" "2026-11-02T10:00:00.000Z"
              "2026-11-02T08:00:00.000Z" SessionSamples.visited)
    as (Hsaved & _ & Hhistory & _).
  - discriminate.
  - repeat constructor.
  - split; [vm_compute; discriminate|vm_compute; reflexivity].
  - split; [exact Hsaved|exact Hhistory].
Defined.

(** X18.  [loadSession] by id.  On a list of readable sessions, an id
    no session carries changes nothing at all; an id some session
    carries puts the messages of the first such session on screen, makes
    it the current session in the state and in the store, and leaves the
    list, the stored list and a request in flight alone.  If the list
    was saved, the state is saved again. *)
Theorem loadSession_shows (h : host) (sessionId : string) (s : state) :
  readable (chatHistory s) ->
  (findIndex (has_id (JStr sessionId)) (chatHistory s) = None ->
   loadSession sessionId s = Ok s)
  /\ (forall i session items,
        findIndex (has_id (JStr sessionId)) (chatHistory s) = Some i ->
        chatHistory s !! i = Some session ->
        field session "messages" = JArr items ->
        exists s',
          loadSession sessionId s = Ok s'
          /\ messages s' = items
          /\ currentSessionId s' = JStr sessionId
          /\ chatHistory s' = chatHistory s
          /\ localStorage s' = <[ CURRENT_SESSION_KEY := sessionId ]> (localStorage s)
          /\ isLoading s' = isLoading s
          /\ outbox s' = outbox s
          /\ (history_saved h s -> sessionId <> "" -> saved h s')).
Proof.
  intros Hr. unfold loadSession.
  destruct (find_pure _ _ _ (carries_pure (JStr sessionId) _ Hr)) as [_ ->].
  split.
  - intros ->. reflexivity.
  - intros i session items Hfind Hi Hmsgs. rewrite Hfind.
    cbn [mbind result_bind option_bind]. rewrite Hi.
    destruct (ChatHistoryProps.findIndex_Some _ _ _ Hfind) as (x & Hx & Hq & _).
    assert (x = session) as -> by congruence.
    destruct (has_id_object _ _ Hq) as [fields ->]. cbn [truthy].
    rewrite (get_field (JObj fields) "messages" eq_refl), Hmsgs.
    eexists. split; [reflexivity|]. do 6 (split; [reflexivity|]).
    intros (Htext & Hback & _) Hne. split.
    + split; [|split; [exact Hback|exact Hr]].
      cbn [localStorage chatHistory setShowHistory setMessages setItem
           setCurrentSessionId].
      rewrite lookup_insert_ne by discriminate. exact Htext.
    + exists sessionId. split; [exact Hne|]. split; [apply lookup_insert_eq|].
      split; [reflexivity|]. exists i, (JObj fields).
      split; [exact Hfind|]. split; [exact Hi|exact Hmsgs].
Qed.

(** The second session is open; the first one is picked from the
    list. *)
Lemma loadSession_shows_witness :
  exists s',
    loadSession "m2x1k9" SessionSamples.restarted = Ok s'
    /\ messages s' = defaultMessage "2026-11-02T08:00:00.000Z"
    /\ currentSessionId s' = JStr "m2x1k9"
    /\ saved SessionSamples.browser s'
    /\ loadSession "m2x000" SessionSamples.restarted = Ok SessionSamples.restarted.
Proof.
  destruct (loadSession_shows SessionSamples.browser "m2x1k9" SessionSamples.restarted)
    as [_ Hknown]; [repeat constructor|].
  destruct (Hknown 1 SessionSamples.first (defaultMessage "2026-11-02T08:00:00.000Z"))
    as (s' & Hload & Hmessages & Hid & _ & _ & _ & _ & Hsaved); try reflexivity.
  exists s'. split; [exact Hload|]. split; [exact Hmessages|]. split; [exact Hid|].
  split.
  - apply Hsaved; [|discriminate].
    split; [vm_compute; reflexivity|]. split; [|repeat constructor].
    split; [vm_compute; discriminate|vm_compute; reflexivity].
  - apply (loadSession_shows SessionSamples.browser "m2x000" SessionSamples.restarted);
      [repeat constructor|reflexivity].
Defined.

(** X19.  A reply goes to the session that is open when it arrives.
    A question is asked, and [+ New Chat] is pressed before the answer is
    there: [startNewChat] neither waits for the request nor cancels it.
    When the answer arrives, the continuation of [handleSend] adds it to
    the messages of the new session: the screen shows the welcome message
    and the reply, and not the question the reply belongs to. *)
Theorem reply_after_new_chat (h : host) (now later clicked mounted newSessionId : string)
    (fetch : request -> fetch_outcome) (s s1 : state) (p : pending) :
  handleSend_begin h now s = Some (s1, p) ->
  exists content s3,
    handleSend_end later
      (settle fetch (Api.getAIMessage h (userContent p) (JArr (updatedMessages p))) later)
      (startNewChat h newSessionId clicked mounted s1)
    = Ok s3
    /\ messages s3 = defaultMessage mounted ++ [Api.message "assistant" content later]
    /\ userMessage now (input s) ∈ messages s1
    /\ ~ userMessage now (input s) ∈ messages s3
    /\ currentSessionId s3 = JStr newSessionId
    /\ isLoading s3 = false.
Proof.
  intros Hbegin.
  destruct (ApiProps.getAIMessage_cases h later fetch (userContent p)
              (JArr (updatedMessages p))) as (content & -> & _).
  destruct (HandleSendProps.handleSend_end_appends later
              (Ok (Api.message "assistant" content later))
              (startNewChat h newSessionId clicked mounted s1)) as (reply & -> & ->).
  { repeat constructor. }
  exists content. eexists. split; [reflexivity|]. split; [reflexivity|]. split; [|split].
  - unfold handleSend_begin in Hbegin.
    destruct (String.eqb (Trim.trim (input s)) ""); [discriminate|].
    cbv zeta in Hbegin. fold (userMessage now (input s)) in Hbegin.
    injection Hbegin as <- _.
    destruct (Api.getAIMessage h (input s) _); cbn; set_solver.
  - cbn. intros Hin. apply elem_of_cons in Hin as [Heq|Hin]; [discriminate|].
    apply list_elem_of_singleton in Hin. discriminate.
  - split; reflexivity.
Qed.

(** A question at nine; [+ New Chat] before the answer arrives. *)
Lemma reply_after_new_chat_witness :
  exists s1 p,
    handleSend_begin SessionSamples.browser "2026-11-02T09:00:00.000Z"
      (setInput "Is PS11752778 in stock?" SessionSamples.visited)
    = Some (s1, p)
    /\ exists content s3,
         handleSend_end "2026-11-02T09:00:05.000Z"
           (settle (fun _ => Responded 200 (Ok "")
                               (Ok (JObj [("response", JStr "Yes, it ships today.")])))
              (Api.getAIMessage SessionSamples.browser (userContent p)
                 (JArr (updatedMessages p)))
              "2026-11-02T09:00:05.000Z")
           (startNewChat SessionSamples.browser "m2x5p3" "2026-11-02T09:00:02.000Z"
              "2026-11-02T08:00:00.000Z" s1)
         = Ok s3
         /\ messages s3
            = defaultMessage "2026-11-02T08:00:00.000Z"
              ++ [Api.message "assistant" content "2026-11-02T09:00:05.000Z"].
Proof.
  eexists. eexists. split; [vm_compute; reflexivity|].
  destruct (reply_after_new_chat SessionSamples.browser "2026-11-02T09:00:00.000Z"
              "2026-11-02T09:00:05.000Z" "2026-11-02T09:00:02.000Z"
              "2026-11-02T08:00:00.000Z" "m2x5p3"
              (fun _ => Responded 200 (Ok "")
                          (Ok (JObj [("response", JStr "Yes, it ships today.")])))
              (setInput "Is PS11752778 in stock?" SessionSamples.visited) _ _ eq_refl)
    as (content & s3 & Hend & Hmessages & _).
  exists content, s3. split; [exact Hend|exact Hmessages].
Defined.

(** **** The title made from the first question *)

Lemma split_nonempty (text : string) : split text <> [].
Proof.
  destruct text as [|c rest]; simpl; [discriminate|].
  destruct (Ascii.eqb c " "); [discriminate|].
  destruct (split rest); discriminate.
Qed.

Lemma concat_first (c : ascii) (word : string) (words : list string) :
  String.concat " " (String c word :: words)
  = String c (String.concat " " (word :: words)).
Proof. destruct words; reflexivity. Qed.

Lemma first_words (n : nat) (text : string) :
  exists prefix rest,
    text = prefix +:+ rest
    /\ String.concat " " (take (S n) (split text)) = prefix
    /\ spaces prefix <= n
    /\ (rest = "" \/ (spaces prefix = n /\ exists r, rest = String " " r)).
Proof.
  revert n. induction text as [|c text IH]; intros n.
  - exists "", "". split; [reflexivity|]. split; [destruct n; reflexivity|].
    split; [simpl; lia|left; reflexivity].
  - cbn [split]. destruct (Ascii.eqb c " ") eqn:Hc.
    + apply Ascii.eqb_eq in Hc as ->. destruct n as [|n].
      * exists "", (String " " text). split; [reflexivity|]. split; [reflexivity|].
        split; [simpl; lia|].
        right. split; [reflexivity|]. eexists. reflexivity.
      * destruct (IH n) as (prefix & rest & Htext & Hjoin & Hspaces & Hrest).
        exists (String " " prefix), rest.
        split; [rewrite Htext at 1; reflexivity|]. split; [|split].
        -- cbn [take]. rewrite <- Hjoin.
           destruct (split text) as [|word words] eqn:Hsplit;
             [destruct (split_nonempty _ Hsplit)|].
           reflexivity.
        -- simpl. lia.
        -- destruct Hrest as [->|[Hn Hr]]; [left; reflexivity|].
           right. split; [simpl; lia|exact Hr].
    + destruct (IH n) as (prefix & rest & Htext & Hjoin & Hspaces & Hrest).
      exists (String c prefix), rest. split; [rewrite Htext at 1; reflexivity|].
      destruct (split text) as [|word words] eqn:Hsplit;
        [destruct (split_nonempty _ Hsplit)|].
      split; [|split].
      * cbn [take]. rewrite concat_first. f_equal. exact Hjoin.
      * simpl. rewrite Hc. simpl. exact Hspaces.
      * simpl. rewrite Hc. simpl. exact Hrest.
Qed.

Lemma last_character_dots (prefix : string) : last_character (prefix +:+ "...") = Some "."%char.
Proof.
  induction prefix as [|c prefix IH]; [reflexivity|].
  simpl in *. destruct (prefix +:+ "...") eqn:Happ; [|exact IH].
  destruct prefix; discriminate.
Qed.

Lemma auto_title_made (content : string) : auto_title content <> "New Conversation".
Proof.
  unfold auto_title. intros Heq. apply (f_equal last_character) in Heq.
  rewrite last_character_dots in Heq. discriminate.
Qed.

(** X20.  The title made from the first question is the question up
    to its fourth space, followed by three dots: the whole question when
    it has at most three spaces, so that a question of four words or
    fewer is quoted in full.  Such a title is never the text
    [New Conversation]: once a session carries it, no later save makes
    a title again, whatever the messages are. *)
Theorem auto_title_prefix (content : string) :
  exists prefix rest,
    content = prefix +:+ rest
    /\ auto_title content = prefix +:+ "..."
    /\ spaces prefix <= 3
    /\ (rest = "" \/ (spaces prefix = 3 /\ exists r, rest = String " " r))
    /\ forall messages, new_title (JStr (auto_title content)) messages = Ok None.
Proof.
  destruct (first_words 3 content) as (prefix & rest & Htext & Hjoin & Hspaces & Hrest).
  exists prefix, rest. split; [exact Htext|]. unfold auto_title at 1. rewrite Hjoin.
  split; [reflexivity|]. split; [exact Hspaces|]. split; [exact Hrest|].
  intros messages. unfold new_title. cbn [strict_eq].
  destruct (String.eqb (auto_title content) "New Conversation") eqn:Heq; [|reflexivity].
  apply String.eqb_eq in Heq. destruct (auto_title_made _ Heq).
Qed.

(** **** A store the component cannot read, and a first visit *)

(** X21.  A store that is not the text of a list takes the component
    down.  The effects read the store outside any [try]: when the stored
    text does not parse, or parses to an object, a number, a boolean or
    [null], the mount effect throws before it has written anything, for
    every state, id and clock reading, and so do
    [updateSessionInStorage] and the effect that calls it. *)
Theorem mount_unusable (h : host) (newSessionId now mounted : string) (s : state) :
  unusable h (localStorage s) ->
  (exists e, mount h newSessionId now mounted s = Throw e)
  /\ (exists e, updateSessionInStorage h now s = Throw e)
  /\ (truthy (currentSessionId s) = true -> messages s <> [] ->
      exists e, save_effect h now s = Throw e).
Proof.
  intros (text & Htext & Hne & Hparse). apply String.eqb_neq in Hne.
  assert (exists e, updateSessionInStorage h now s = Throw e) as Hsave.
  { unfold updateSessionInStorage, read_history. rewrite Htext, Hne.
    destruct (JSON_parse h text) as [v|]; [|eexists; reflexivity].
    destruct v; try contradiction; eexists; reflexivity. }
  split; [|split; [exact Hsave|]].
  - unfold mount, read_history. rewrite Htext, Hne.
    destruct (JSON_parse h text) as [v|]; [|eexists; reflexivity].
    destruct v; try contradiction; cbn [mbind result_bind];
      destruct (localStorage s !! CURRENT_SESSION_KEY) as [id|];
      try destruct (String.eqb id ""); eexists; reflexivity.
  - intros Hcur Hmsgs. unfold save_effect. rewrite Hcur.
    destruct (messages s); [congruence|exact Hsave].
Qed.

(** The store holds the text of an object. *)
Lemma mount_unusable_witness :
  (exists e,
     mount SessionSamples.browser "m2x1k9" "2026-11-02T08:00:00.000Z"
       "2026-11-02T08:00:00.000Z"
       (initial "2026-11-02T08:00:00.000Z" {[ CHAT_HISTORY_KEY := "{}" ]})
     = Throw e)
  /\ ChatHistory.getAllChatHistories SessionSamples.browser {[ CHAT_HISTORY_KEY := "{}" ]}
     = JObj [].
Proof.
  split; [|vm_compute; reflexivity].
  destruct (mount_unusable SessionSamples.browser "m2x1k9" "2026-11-02T08:00:00.000Z"
              "2026-11-02T08:00:00.000Z"
              (initial "2026-11-02T08:00:00.000Z" {[ CHAT_HISTORY_KEY := "{}" ]}))
    as [Hmount _]; [|exact Hmount].
  exists "{}". split; [vm_compute; reflexivity|]. split; [discriminate|].
  vm_compute. exact I.
Defined.

(** X22.  A visit that finds no session to open makes one.  When the
    stored list can be read and the store names no session of it (no id,
    an empty one, or the id of a session that is gone), the mount effect
    puts a new session in front of the list, makes it the current one,
    writes the list and the id, and leaves the screen as it is; if the
    screen shows the welcome message, as it does when the component
    starts, the state it leaves is saved. *)
Theorem mount_new_session (h : host) (newSessionId now mounted : string) (s : state)
    (sessions : list jsval) :
  read_history h (localStorage s) = Ok (JArr sessions) ->
  readable sessions ->
  no_current (localStorage s) sessions ->
  exists s',
    mount h newSessionId now mounted s = Ok s'
    /\ chatHistory s' = newSession newSessionId now mounted :: sessions
    /\ currentSessionId s' = JStr newSessionId
    /\ messages s' = messages s
    /\ localStorage s'
       = <[ CURRENT_SESSION_KEY := newSessionId ]>
           (<[ CHAT_HISTORY_KEY :=
                 JSON_stringify h (JArr (newSession newSessionId now mounted :: sessions)) ]>
              (localStorage s))
    /\ (newSessionId <> "" ->
        reads_back h (newSession newSessionId now mounted :: sessions) ->
        messages s = defaultMessage mounted ->
        saved h s').
Proof.
  intros Hread Hr Hcurrent. unfold mount. rewrite Hread. cbn [mbind result_bind].
  assert (match localStorage s !! CURRENT_SESSION_KEY with
          | Some storedSessionId =>
              if String.eqb storedSessionId "" then Ok None
              else
                b ← someM (carries (JStr storedSessionId)) sessions;
                Ok (if b : bool then Some (storedSessionId, sessions) else None)
          | None => Ok None
          end = Ok None) as ->.
  { unfold no_current in Hcurrent.
    destruct (localStorage s !! CURRENT_SESSION_KEY) as [id|]; [|reflexivity].
    destruct (String.eqb id "") eqn:Hid; [reflexivity|].
    destruct Hcurrent as [->|Hnone]; [discriminate|].
    destruct (find_pure _ _ _ (carries_pure (JStr id) _ Hr)) as [-> _].
    rewrite Hnone. reflexivity. }
  cbn [mbind result_bind iterate].
  eexists. split; [reflexivity|]. do 4 (split; [reflexivity|]).
  intros Hid Hback Hmessages. split.
  - split; [|split; [exact Hback|constructor; [reflexivity|exact Hr]]].
    cbn [localStorage chatHistory setItem setChatHistory setCurrentSessionId].
    rewrite lookup_insert_ne by discriminate. apply lookup_insert_eq.
  - exists newSessionId. split; [exact Hid|]. split; [apply lookup_insert_eq|].
    split; [reflexivity|]. exists 0, (newSession newSessionId now mounted).
    cbn [chatHistory messages setItem setChatHistory setCurrentSessionId].
    split; [|split; [reflexivity|]].
    + cbn [findIndex]. rewrite newSession_id. reflexivity.
    + rewrite Hmessages. reflexivity.
Qed.

(** The first visit: an empty store. *)
Lemma mount_new_session_witness :
  exists s',
    mount SessionSamples.browser "m2x1k9" "2026-11-02T08:00:00.000Z"
      "2026-11-02T08:00:00.000Z" (initial "2026-11-02T08:00:00.000Z" ∅)
    = Ok s'
    /\ chatHistory s' = [SessionSamples.first]
    /\ saved SessionSamples.browser s'.
Proof.
  destruct (mount_new_session SessionSamples.browser "m2x1k9" "2026-11-02T08:00:00.000Z"
              "2026-11-02T08:00:00.000Z" (initial "2026-11-02T08:00:00.000Z" ∅) [])
    as (s' & Hmount & Hhistory & _ & _ & _ & Hsaved).
  - reflexivity.
  - constructor.
  - exact I.
  - exists s'. split; [exact Hmount|]. split; [exact Hhistory|].
    apply Hsaved; [discriminate| |reflexivity].
    split; [vm_compute; discriminate|vm_compute; reflexivity].
Defined.

(** **** Deleting the session that is open *)

(** X23.  Deleting the open session.  The list holds sessions, and the
    one that is open is deleted.  If another session is left, the first
    of them is opened: its id becomes the current one in the state and in
    the store, its messages are on screen, the id is not the deleted one,
    and the state is saved.  If none is left, [startNewChat] is put on
    the timer queue; until it runs the state still names the deleted
    session and shows its messages, and when it has run the state shows
    a new session and is saved. *)
Theorem deleteSession_open (h : host) (sessionId : string) (s : state) :
  Forall (fun v => is_session v = true) (chatHistory s) ->
  currentSessionId s = JStr sessionId ->
  exists s',
    deleteSession h sessionId s = Ok s'
    /\ chatHistory s' = others (JStr sessionId) (chatHistory s)
    /\ match chatHistory s' with
       | first :: rest =>
           exists id,
             field first "id" = JStr id
             /\ id <> sessionId
             /\ currentSessionId s' = JStr id
             /\ field first "messages" = JArr (messages s')
             /\ timers s' = timers s
             /\ (id <> "" -> reads_back h (first :: rest) -> saved h s')
       | [] =>
           timers s' = timers s ++ [StartNewChat]
           /\ currentSessionId s' = JStr sessionId
           /\ messages s' = messages s
           /\ (timers s = [] ->
               forall newSessionId now mounted,
                 newSessionId <> "" ->
                 reads_back h [newSession newSessionId now mounted] ->
                 exists s'',
                   run_timer h newSessionId now mounted s' = Some s''
                   /\ saved h s''
                   /\ currentSessionId s'' = JStr newSessionId
                   /\ timers s'' = [])
       end.
Proof.
  intros Hsessions Hcurrent. unfold deleteSession.
  assert (Forall (fun v => is_session v = true) (others (JStr sessionId) (chatHistory s)))
    as Hrest.
  { unfold others. rewrite Forall_forall in *. intros v Hv.
    apply Hsessions. apply list_elem_of_In, filter_In in Hv as [Hv _].
    apply list_elem_of_In, Hv. }
  pose proof (proj1 (proj2 (DeleteProps.others_spec (JStr sessionId) (chatHistory s))))
    as Hothers.
  rewrite (filterM_pure _ (fun session => negb (has_id (JStr sessionId) session))).
  2:{ eapply Forall_impl; [apply DeleteProps.is_session_readable, Hsessions|].
      intros session Hs. simpl in Hs. rewrite (get_field _ _ Hs). reflexivity. }
  fold (others (JStr sessionId) (chatHistory s)).
  rewrite Hcurrent. cbn [strict_eq]. rewrite String.eqb_refl. cbn [mbind result_bind].
  destruct (others (JStr sessionId) (chatHistory s)) as [|first rest] eqn:Ho.
  - cbn [mbind result_bind]. eexists. split; [reflexivity|]. split; [reflexivity|].
    cbn [chatHistory setChatHistory]. split; [reflexivity|].
    split; [exact Hcurrent|]. split; [reflexivity|].
    intros Hidle newSessionId now mounted Hid Hback.
    unfold run_timer. cbn [timers setChatHistory setTimeout setItem]. rewrite Hidle.
    cbn [app]. eexists. split; [reflexivity|].
    destruct (startNewChat_state h newSessionId now mounted
                (setTimers []
                   (setChatHistory []
                      (setTimeout StartNewChat
                         (setItem CHAT_HISTORY_KEY (JSON_stringify h (JArr [])) s)))))
      as (Hsaved & _); [exact Hid|constructor|exact Hback|].
    split; [exact Hsaved|split; reflexivity].
  - pose proof (Forall_inv Hrest) as Hfirst.
    assert (has_id (JStr sessionId) first = false) as Hid.
    { apply (proj1 (Hothers first) (list_elem_of_here _ _)). }
    destruct first as [| | | | | |fields]; try discriminate.
    unfold is_session, field in Hfirst. cbn [get] in Hfirst.
    unfold has_id, field in Hid. cbn [get] in Hid.
    cbn [get mbind result_bind].
    destruct (default JUndefined (own fields "id")) as [| | | |id| |] eqn:Hown;
      try discriminate.
    destruct (default JUndefined (own fields "messages")) as [| | | | |items|] eqn:Hmsgs;
      try discriminate.
    cbn [toString mbind result_bind].
    eexists. split; [reflexivity|]. split; [reflexivity|].
    cbn [chatHistory setChatHistory]. exists id.
    unfold field. cbn [get]. rewrite Hown, Hmsgs.
    split; [reflexivity|]. split.
    { intros ->. cbn [strict_eq] in Hid. rewrite String.eqb_refl in Hid. discriminate. }
    split; [reflexivity|]. split; [reflexivity|]. split; [reflexivity|].
    intros Hne Hback. split.
    + split; [|split; [exact Hback|]].
      * cbn [localStorage chatHistory setChatHistory setItem setCurrentSessionId
               setMessages].
        rewrite lookup_insert_ne by discriminate. apply lookup_insert_eq.
      * cbn [chatHistory setChatHistory]. apply DeleteProps.is_session_readable, Hrest.
    + exists id. split; [exact Hne|]. split; [apply lookup_insert_eq|].
      split; [reflexivity|]. exists 0, (JObj fields).
      cbn [chatHistory messages setChatHistory setItem setCurrentSessionId setMessages].
      split; [|split; [reflexivity|]].
      * cbn [findIndex]. unfold has_id, field. cbn [get]. rewrite Hown.
        cbn [strict_eq]. rewrite String.eqb_refl. reflexivity.
      * unfold field. cbn [get]. rewrite Hmsgs. reflexivity.
Qed.

(** The second session is open and is deleted: the first one opens. *)
Lemma deleteSession_open_witness :
  exists s',
    deleteSession SessionSamples.browser "m2x5p3" SessionSamples.restarted = Ok s'
    /\ chatHistory s' = [SessionSamples.first]
    /\ currentSessionId s' = JStr "m2x1k9"
    /\ saved SessionSamples.browser s'.
Proof.
  destruct (deleteSession_open SessionSamples.browser "m2x5p3" SessionSamples.restarted)
    as (s' & Hdelete & Hhistory & Hcase).
  - repeat constructor.
  - reflexivity.
  - exists s'. split; [exact Hdelete|]. rewrite Hhistory in Hcase |- *.
    change (others (JStr "m2x5p3") (chatHistory SessionSamples.restarted))
      with [SessionSamples.first] in Hcase |- *.
    destruct Hcase as (id & Hfield & _ & Hcurrent & _ & _ & Hsaved).
    injection Hfield as <-.
    split; [reflexivity|]. split; [exact Hcurrent|].
    apply Hsaved; [discriminate|].
    split; [vm_compute; discriminate|vm_compute; reflexivity].
Defined.

(** **** Saving the open session *)

Lemma findIndex_insert {A} (q : A -> bool) (l : list A) (i : nat) (x : A) :
  findIndex q l = Some i -> q x = true -> findIndex q (<[ i := x ]> l) = Some i.
Proof.
  revert i. induction l as [|y l IH]; intros i; simpl; [discriminate|].
  destruct (q y) eqn:Hy.
  - intros [= <-] Hx. simpl. rewrite Hx. reflexivity.
  - destruct (findIndex q l) as [j|]; [|discriminate].
    intros [= <-] Hx. simpl. rewrite Hy, (IH j eq_refl Hx). reflexivity.
Qed.

Lemma updatedSession_field (now : string) (current title : jsval) (msgs : list jsval)
    (k : string) :
  well_formed current ->
  field (updatedSession now current title msgs) k
  = if String.eqb "timestamp" k then JStr now
    else if String.eqb "messages" k then JArr msgs
    else if String.eqb "title" k then title
    else field current k.
Proof.
  destruct current as [| | | | | |fields]; try contradiction.
  cbn [well_formed]. intros Hnd. unfold field, updatedSession. cbn [get spread].
  rewrite !Facts.own_obj_set_any.
  destruct (String.eqb "timestamp" k); [reflexivity|].
  destruct (String.eqb "messages" k); [reflexivity|].
  destruct (String.eqb "title" k); [reflexivity|].
  rewrite ChatHistoryMore.own_assign, ChatHistoryMore.own_rev by assumption. cbn [own].
  destruct (own fields k); reflexivity.
Qed.

Lemma updatedSession_well_formed (now : string) (current title : jsval)
    (msgs : list jsval) :
  well_formed (updatedSession now current title msgs).
Proof.
  unfold updatedSession, well_formed.
  apply ChatHistoryMore.keys_obj_set, ChatHistoryMore.keys_obj_set,
    ChatHistoryMore.keys_obj_set, ChatHistoryMore.keys_assign.
  constructor.
Qed.

(** [updateSessionInStorage] on a store it can read, step by step. *)
Lemma updateSessionInStorage_steps (h : host) (now : string) (s : state)
    (sessions : list jsval) (i : nat) (current : jsval) (made : option string) :
  read_history h (localStorage s) = Ok (JArr sessions) ->
  Forall well_formed sessions ->
  findIndex (has_id (currentSessionId s)) sessions = Some i ->
  sessions !! i = Some current ->
  new_title (field current "title") (messages s) = Ok made ->
  updateSessionInStorage h now s
  = if same_json h (field current "messages") (messages s)
       && same_title (field current "title") made
    then Ok s
    else
      Ok (if String.eqb (JSON_stringify h (JArr (chatHistory s)))
               (JSON_stringify h
                  (JArr (<[ i := updatedSession now current
                                   (kept_or_made (field current "title") made)
                                   (messages s) ]> sessions)))
          then setItem CHAT_HISTORY_KEY
                 (JSON_stringify h
                    (JArr (<[ i := updatedSession now current
                                     (kept_or_made (field current "title") made)
                                     (messages s) ]> sessions))) s
          else setChatHistory
                 (<[ i := updatedSession now current
                             (kept_or_made (field current "title") made)
                             (messages s) ]> sessions)
                 (setItem CHAT_HISTORY_KEY
                    (JSON_stringify h
                       (JArr (<[ i := updatedSession now current
                                        (kept_or_made (field current "title") made)
                                        (messages s) ]> sessions))) s)).
Proof.
  intros Hread Hwf Hfind Hi Hmade. unfold updateSessionInStorage.
  rewrite Hread. cbn [mbind result_bind].
  rewrite (ChatHistoryProps.findIndexM_pure _ (has_id (currentSessionId s)))
    by apply carries_pure, ChatHistoryMore.well_formed_readable, Hwf.
  rewrite Hfind. cbn [mbind result_bind]. cbv zeta. rewrite Hi.
  change (default JUndefined (Some current)) with current.
  assert (nullish current = false) as Hcurrent.
  { pose proof (ChatHistoryMore.well_formed_readable _ Hwf) as Hr.
    unfold readable in Hr. rewrite Forall_forall in Hr.
    apply Hr. eapply list_elem_of_lookup_2, Hi. }
  rewrite (get_field _ "title" Hcurrent). cbn [mbind result_bind].
  rewrite Hmade. cbn [mbind result_bind].
  rewrite (get_field _ "messages" Hcurrent). cbn [mbind result_bind].
  reflexivity.
Qed.

(** X24.  Saving the open session settles.  The stored list can be
    read, its sessions are plain objects, one of them carries the current
    id, and making the title does not throw.  Then
    [updateSessionInStorage] returns, and what it leaves is stable: the
    first stored session with the current id holds messages that print as
    the messages on screen, its title is the one it had unless that was
    [New Conversation] and a question has been asked, its id and every
    other session are as before, and running the function again, at any
    later time, changes nothing: the comparison the effect makes with the
    values it saw last only saves work.  With a current session and a
    message on screen the effect is this function. *)
Theorem updateSessionInStorage_settles (h : host) (now later : string) (s : state)
    (sessions : list jsval) (i : nat) (current : jsval) (made : option string) :
  read_history h (localStorage s) = Ok (JArr sessions) ->
  Forall well_formed sessions ->
  findIndex (has_id (currentSessionId s)) sessions = Some i ->
  sessions !! i = Some current ->
  new_title (field current "title") (messages s) = Ok made ->
  field current "title" <> JNum "NaN" ->
  reads_back h
    (<[ i := updatedSession now current (kept_or_made (field current "title") made)
               (messages s) ]> sessions) ->
  exists s' sessions' session,
    updateSessionInStorage h now s = Ok s'
    /\ updateSessionInStorage h later s' = Ok s'
    /\ messages s' = messages s
    /\ currentSessionId s' = currentSessionId s
    /\ read_history h (localStorage s') = Ok (JArr sessions')
    /\ findIndex (has_id (currentSessionId s)) sessions' = Some i
    /\ sessions' !! i = Some session
    /\ same_json h (field session "messages") (messages s) = true
    /\ field session "title" = kept_or_made (field current "title") made
    /\ field session "id" = field current "id"
    /\ (forall j, j <> i -> sessions' !! j = sessions !! j)
    /\ (truthy (currentSessionId s) = true -> messages s <> [] ->
        save_effect h now s = Ok s').
Proof.
  intros Hread Hwf Hfind Hi Hmade Hnan Hback.
  assert (forall s',
            updateSessionInStorage h now s = Ok s' ->
            truthy (currentSessionId s) = true -> messages s <> [] ->
            save_effect h now s = Ok s') as Heffect.
  { intros s' Hs' Hcur Hmsgs. unfold save_effect. rewrite Hcur.
    destruct (messages s); [congruence|exact Hs']. }
  pose proof (updateSessionInStorage_steps h now s sessions i current made
                Hread Hwf Hfind Hi Hmade) as Hnow.
  pose proof (updateSessionInStorage_steps h later s sessions i current made
                Hread Hwf Hfind Hi Hmade) as Hlater.
  destruct (same_json h (field current "messages") (messages s)
            && same_title (field current "title") made) eqn:Hskip.
  - (* nothing to write *)
    apply andb_true_iff in Hskip as [Hjson Htitle].
    exists s, sessions, current. rewrite Hnow, Hlater.
    do 7 (split; [first [reflexivity|assumption]|]).
    split; [exact Hjson|].
    split; [|split; [reflexivity|split; [reflexivity|apply Heffect, Hnow]]].
    destruct made as [text|]; [|reflexivity].
    cbn [same_title] in Htitle. apply ChatHistoryMore.strict_eq_eq in Htitle.
    rewrite Htitle. reflexivity.
  - (* the session is written *)
    set (title' := kept_or_made (field current "title") made) in *.
    set (session := updatedSession now current title' (messages s)) in *.
    set (sessions' := <[ i := session ]> sessions) in *.
    set (text := JSON_stringify h (JArr sessions')) in *.
    assert (well_formed current) as Hcurrent.
    { rewrite Forall_forall in Hwf. apply Hwf. eapply list_elem_of_lookup_2, Hi. }
    assert (field session "id" = field current "id") as Hid.
    { unfold session. rewrite updatedSession_field by exact Hcurrent. reflexivity. }
    assert (field session "title" = title') as Htitle.
    { unfold session. rewrite updatedSession_field by exact Hcurrent. reflexivity. }
    assert (field session "messages" = JArr (messages s)) as Hmessages.
    { unfold session. rewrite updatedSession_field by exact Hcurrent. reflexivity. }
    assert (findIndex (has_id (currentSessionId s)) sessions' = Some i) as Hfind'.
    { apply findIndex_insert; [exact Hfind|].
      destruct (ChatHistoryProps.findIndex_Some _ _ _ Hfind) as (x & Hx & Hq & _).
      unfold has_id in Hq |- *. rewrite Hid. congruence. }
    assert (sessions' !! i = Some session) as Hi'.
    { apply list_lookup_insert_eq. eapply lookup_lt_Some, Hi. }
    assert (new_title title' (messages s) = Ok None) as Hmade'.
    { unfold title'. destruct made as [made|]; [|].
      - unfold new_title. cbn [kept_or_made strict_eq].
        destruct (String.eqb made "New Conversation") eqn:Heq; [|reflexivity].
        exfalso. apply String.eqb_eq in Heq. subst made.
        unfold new_title in Hmade.
        destruct (strict_eq (field current "title") (JStr "New Conversation"));
          [|discriminate].
        destruct (findM _ (messages s)) as [[m|]|]; cbn [mbind result_bind] in Hmade;
          try discriminate.
        destruct (truthy m); [|discriminate].
        destruct (get m "content") as [[| | | |content| |]|];
          cbn [mbind result_bind] in Hmade; try discriminate.
        injection Hmade as Hmade. destruct (auto_title_made content Hmade).
      - cbn [kept_or_made]. unfold new_title in Hmade |- *.
        destruct (strict_eq (field current "title") (JStr "New Conversation"));
          [|reflexivity].
        destruct (findM _ (messages s)) as [[m|]|]; cbn [mbind result_bind] in Hmade |- *;
          try discriminate; [|reflexivity].
        destruct (truthy m); [|reflexivity].
        destruct (get m "content") as [[| | | |content| |]|];
          cbn [mbind result_bind] in Hmade; discriminate. }
    assert (same_title title' None = true) as Hsame.
    { unfold title'. destruct made; [reflexivity|]. cbn [kept_or_made same_title].
      destruct (field current "title") as [| | |repr| | |]; try reflexivity.
      destruct (String.eqb repr "NaN") eqn:Heq; [|reflexivity].
      apply String.eqb_eq in Heq. congruence. }
    assert (forall s', localStorage s' = <[ CHAT_HISTORY_KEY := text ]> (localStorage s) ->
                       read_history h (localStorage s') = Ok (JArr sessions')) as Hread'.
    { intros s' ->. unfold read_history. rewrite lookup_insert_eq.
      destruct Hback as [Hne Hparse]. apply String.eqb_neq in Hne.
      fold sessions' text in Hne, Hparse. rewrite Hne, Hparse. reflexivity. }
    assert (forall s',
              localStorage s' = <[ CHAT_HISTORY_KEY := text ]> (localStorage s) ->
              messages s' = messages s ->
              currentSessionId s' = currentSessionId s ->
              updateSessionInStorage h later s' = Ok s') as Hagain.
    { intros s' Hstore Hmsgs Hcur.
      rewrite (updateSessionInStorage_steps h later s' sessions' i session None).
      - rewrite Hmsgs, Hmessages, Htitle, Hsame. cbn [same_json].
        rewrite String.eqb_refl. reflexivity.
      - apply Hread', Hstore.
      - apply Forall_insert; [exact Hwf|apply updatedSession_well_formed].
      - rewrite Hcur. exact Hfind'.
      - exact Hi'.
      - rewrite Hmsgs, Htitle. exact Hmade'. }
    rewrite Hnow in Heffect |- *.
    destruct (String.eqb (JSON_stringify h (JArr (chatHistory s))) text);
      eexists; exists sessions', session;
      (split; [reflexivity|]);
      (split; [apply Hagain; reflexivity|]);
      (split; [reflexivity|]); (split; [reflexivity|]);
      (split; [apply Hread'; reflexivity|]);
      (split; [exact Hfind'|]); (split; [exact Hi'|]);
      (split; [rewrite Hmessages; cbn [same_json]; apply String.eqb_refl|]);
      (split; [exact Htitle|]); (split; [exact Hid|]);
      (split; [|apply Heffect; reflexivity]);
      intros j Hj; unfold sessions'; apply list_lookup_insert_ne; congruence.
Qed.

(** The first session after a question and its answer: the save gives
    it a title and the messages, and a second save finds nothing to
    do. *)
Lemma updateSessionInStorage_settles_witness :
  exists s',
    updateSessionInStorage SessionSamples.browser "2026-11-02T09:00:06.000Z"
      (setMessages SessionSamples.answered SessionSamples.visited)
    = Ok s'
    /\ updateSessionInStorage SessionSamples.browser "2026-11-02T09:30:00.000Z" s' = Ok s'
    /\ read_history SessionSamples.browser (localStorage s')
       = Ok (JArr [SessionSamples.first_titled]).
Proof.
  destruct (updateSessionInStorage_settles SessionSamples.browser
              "2026-11-02T09:00:06.000Z" "2026-11-02T09:30:00.000Z"
              (setMessages SessionSamples.answered SessionSamples.visited)
              [SessionSamples.first] 0 SessionSamples.first
              (Some "Is PS11752778 in stock?..."))
    as (s' & sessions' & session & Hsave & Hagain & _).
  - vm_compute. reflexivity.
  - repeat constructor; simpl; set_solver.
  - reflexivity.
  - reflexivity.
  - vm_compute. reflexivity.
  - discriminate.
  - split; [vm_compute; discriminate|vm_compute; reflexivity].
  - exists s'. split; [exact Hsave|]. split; [exact Hagain|].
    assert (s' = setChatHistory [SessionSamples.first_titled]
                   (setItem CHAT_HISTORY_KEY
                      (Sample.stringify (JArr [SessionSamples.first_titled]))
                      (setMessages SessionSamples.answered SessionSamples.visited)))
      as ->.
    { vm_compute in Hsave. injection Hsave as <-. vm_compute. reflexivity. }
    vm_compute. reflexivity.
Defined.

End SessionProps.


(** *** More on [getAIMessage] *)
Module ApiMore.
Import Props Facts Terms.

Lemma filterM_nullish (items : list jsval) :
  Exists (fun msg => nullish msg = true) items ->
  exists msg,
    List.find nullish items = Some msg
    /\ filterM (fun msg => flag ← get msg "isLoading"; Ok (negb (truthy flag))) items
       = Throw (TypeError (Reading msg "isLoading")).
Proof.
  induction items as [|msg items IH]; intros Hex.
  - apply Exists_nil in Hex as [].
  - cbn [List.find filterM]. destruct (nullish msg) eqn:Hmsg.
    + exists msg. split; [reflexivity|]. destruct msg; try discriminate; reflexivity.
    + rewrite (get_field _ _ Hmsg). cbn [mbind result_bind].
      apply Exists_cons in Hex as [Hex|Hex]; [congruence|].
      destruct (IH Hex) as (bad & Hfind & ->). exists bad. split; [exact Hfind|].
      reflexivity.
Qed.

(** X25.  A history that cannot be formatted never reaches the
    network.  When the conversation history is not an array (and not
    left out), or holds an entry that is [null] or [undefined],
    [getAIMessage] throws inside its [try] block before it calls
    [fetch]: no request is made, and the answer is the local apology
    with the engine's message for that failure, whatever the network
    would have said.  The failure is the reading of [isLoading] from the
    first such entry, or the call of [filter] on the value that is no
    array. *)
Theorem getAIMessage_unreadable_history (h : host) (now : string)
    (fetch : request -> fetch_outcome) (userQuery : string)
    (conversationHistory : jsval) :
  unreadable_history conversationHistory ->
  exists what : failure,
    Api.getAIMessage h userQuery conversationHistory
    = Settled (Api.failed h (TypeError what))
    /\ requests (Api.getAIMessage h userQuery conversationHistory) = []
    /\ settle fetch (Api.getAIMessage h userQuery conversationHistory) now
       = Ok (Api.message "assistant" (apology h (TypeError what)) now)
    /\ match conversationHistory with
       | JArr items =>
           exists msg, List.find nullish items = Some msg
                       /\ what = Reading msg "isLoading"
       | _ => TypeError what = no_method conversationHistory "filter"
       end.
Proof.
  intros Hbad.
  assert (exists what,
             Api.formatHistory conversationHistory = Throw (TypeError what)
             /\ match conversationHistory with
                | JArr items =>
                    exists msg, List.find nullish items = Some msg
                                /\ what = Reading msg "isLoading"
                | _ => TypeError what = no_method conversationHistory "filter"
                end) as (what & Hformat & Hwhat).
  { destruct conversationHistory as [| | | | |items|];
      try (eexists; split; reflexivity); [destruct Hbad|].
    destruct (filterM_nullish items Hbad) as (msg & Hfind & Hthrow).
    exists (Reading msg "isLoading"). unfold Api.formatHistory. rewrite Hthrow.
    split; [reflexivity|]. exists msg. split; [exact Hfind|reflexivity]. }
  exists what. unfold Api.getAIMessage, Api.getAIMessage_request. rewrite Hformat.
  repeat split. exact Hwhat.
Qed.

(** A history with a hole in it. *)
Lemma getAIMessage_unreadable_history_witness :
  requests (Api.getAIMessage Sample.sample_host "Is PS11752778 in stock?"
              (JArr [Sample.greeting; JNull; Sample.question])) = []
  /\ settle (fun _ => Responded 200 (Ok "") (Ok (JObj [("response", JStr "In stock.")])))
       (Api.getAIMessage Sample.sample_host "Is PS11752778 in stock?"
          (JArr [Sample.greeting; JNull; Sample.question]))
       "2026-11-02T09:00:05.000Z"
     = Ok (Api.message "assistant"
             (JStr ("Sorry, I encountered an error while processing your request: "
                    +:+ "Cannot read properties of null (reading 'isLoading')"
                    +:+ ". Please try again later."))
             "2026-11-02T09:00:05.000Z").
Proof.
  destruct (getAIMessage_unreadable_history Sample.sample_host "2026-11-02T09:00:05.000Z"
              (fun _ => Responded 200 (Ok "") (Ok (JObj [("response", JStr "In stock.")])))
              "Is PS11752778 in stock?" (JArr [Sample.greeting; JNull; Sample.question]))
    as (what & _ & Hnone & Hanswer & msg & Hfind & ->).
  { apply Exists_cons_tl, Exists_cons_hd. reflexivity. }
  split; [exact Hnone|]. rewrite Hanswer.
  injection Hfind as <-. reflexivity.
Defined.

End ApiMore.

(** *** The revision without sessions *)
Module LegacyProps.
Import Props Facts Terms Trim ChatWindow.

(** X26.  One turn of the older [handleSend].  On an input that is not
    blank and messages that can be read, the turn ends with the messages
    it found (placeholders dropped), the user's message and the reply, in
    this order; it makes one request, whose body is the query alone: this
    revision never sends the conversation, however long it is. *)
Theorem legacy_handleSend_turn (h : host) (fetch : request -> fetch_outcome) (s : state) :
  readable (messages s) ->
  ~ blank (list_ascii_of_string (input s)) ->
  exists content s',
    Legacy.handleSend h fetch s = Ok s'
    /\ messages s'
       = settled (messages s)
         ++ [ JObj [("role", JStr "user"); ("content", JStr (input s))];
              JObj [("role", JStr "assistant"); ("content", content)] ]
    /\ outbox s'
       = outbox s
         ++ [ {| url := API_BASE_URL h +:+ "/api/query";
                 body := JObj [("query", JStr (input s))] |} ]
    /\ input s' = ""
    /\ isLoading s' = false.
Proof.
  intros Hr Hinput.
  assert (String.eqb (trim (input s)) "" = false) as Hguard.
  { apply String.eqb_neq. intros Ht. apply Hinput, TrimMore.trim_empty_blank, Ht. }
  destruct (ApiProps.frontend_getAIMessage_cases h fetch (input s))
    as (content & Hanswer & _).
  unfold Legacy.handleSend, Legacy.handleSend_begin. rewrite Hguard.
  cbv zeta. rewrite Hanswer. unfold Legacy.handleSend_end, FrontendApi.getAIMessage.
  rewrite HandleSendProps.replaceLoading_readable.
  2:{ cbn [messages fetch_called setMessages setIsLoading setInput].
      rewrite <- app_assoc. apply Forall_app. split; [exact Hr|repeat constructor]. }
  exists content. eexists. split; [reflexivity|].
  cbn [messages outbox input isLoading fetch_called setMessages setIsLoading setInput].
  split; [|repeat split; reflexivity].
  rewrite <- !app_assoc, HandleSendProps.settled_app.
  change (settled ([JObj [("role", JStr "user"); ("content", JStr (input s))]]
                   ++ [Legacy.loadingMessage]))
    with [JObj [("role", JStr "user"); ("content", JStr (input s))]].
  rewrite <- app_assoc. reflexivity.
Qed.

Lemma legacy_handleSend_turn_witness :
  exists content s',
    Legacy.handleSend Sample.sample_host
      (fun _ => Responded 200 (Ok "") (Ok (JObj [("response", JStr "In stock.")])))
      (State [Sample.greeting; Sample.question] "And the price?" false [] JNull false ∅
         [] [])
    = Ok s'
    /\ outbox s'
       = [ {| url := "http://localhost:5000/api/query";
              body := JObj [("query", JStr "And the price?")] |} ]
    /\ messages s'
       = [ Sample.greeting; Sample.question;
           JObj [("role", JStr "user"); ("content", JStr "And the price?")];
           JObj [("role", JStr "assistant"); ("content", content)] ].
Proof.
  destruct (legacy_handleSend_turn Sample.sample_host
              (fun _ => Responded 200 (Ok "") (Ok (JObj [("response", JStr "In stock.")])))
              (State [Sample.greeting; Sample.question] "And the price?" false [] JNull
                 false ∅ [] []))
    as (content & s' & Hturn & Hmessages & Hout & _).
  { repeat constructor. }
  { intros Hb. apply TrimProps.trim_blank in Hb. vm_compute in Hb. discriminate. }
  exists content, s'. split; [exact Hturn|]. split; [exact Hout|exact Hmessages].
Defined.

End LegacyProps.

(** *** [saveChatSession] on a store whose sessions are all dated *)
Module ChatHistoryDated.
Import Props Facts Terms JSArray ChatHistory ChatHistoryProps.

(** X27.  [saveChatSession] on a dated store, under the guarantees every
    engine's [sort] gives.  The stored list holds readable sessions that
    all carry a valid [lastUpdated] date, and the clock reading is a
    valid date.  Then [saveChatSession] succeeds and writes a list
    [stored] such that: if some stored session has the id of the saved
    one, the first such session is replaced by its merge with the saved
    one and the number of sessions is unchanged; otherwise the saved
    session is added and the number grows by one; every other session is
    still there; the saved entry's [lastUpdated] is the clock reading;
    and the list is sorted by [lastUpdated], most recent first. *)
Theorem saveChatSession_upsert_dated (h : host) (now : string) (chatSession : jsval)
    (localStorage : gmap string string) (histories : list jsval) (t : Z) :
  standard_sort h ->
  getAllChatHistories h localStorage = JArr histories ->
  readable histories ->
  nullish chatSession = false ->
  dated h histories ->
  Date_parse h now = Some t ->
  exists saved stored,
    saveChatSession h now chatSession localStorage
    = (true, <[ CHAT_HISTORY_KEY := JSON_stringify h (JArr stored) ]> localStorage)
    /\ match findIndex (has_id (field chatSession "id")) histories with
       | Some i =>
           saved = merged_session now (default JUndefined (histories !! i)) chatSession
           /\ stored ≡ₚ <[ i := saved ]> histories
           /\ length stored = length histories
       | None =>
           saved = fresh_session now chatSession
           /\ stored ≡ₚ histories ++ [saved]
           /\ length stored = S (length histories)
       end
    /\ saved ∈ stored
    /\ field saved "lastUpdated" = JStr now
    /\ time_of h saved = Some t
    /\ newest_first h stored.
Proof.
  intros Hstd Hget Hr Hsession Hd Hnow.
  destruct (saveChatSession_sorts h now chatSession localStorage histories t
              Hstd Hget Hr Hsession Hd Hnow) as (stored & Hsave & Hperm & Hsorted).
  unfold upserted in Hperm.
  destruct (findIndex (has_id (field chatSession "id")) histories) as [i|] eqn:Hfind.
  - exists (merged_session now (default JUndefined (histories !! i)) chatSession), stored.
    split; [exact Hsave|].
    destruct (findIndex_Some _ _ _ Hfind) as (old & Hold & _).
    split; [|split; [|split; [apply lastUpdated_set|
                              split; [apply saved_session_dated, Hnow|exact Hsorted]]]].
    + split; [reflexivity|]. split; [exact Hperm|].
      rewrite Hperm, length_insert. reflexivity.
    + rewrite Hperm. apply list_elem_of_lookup. exists i.
      apply list_lookup_insert_eq. eapply lookup_lt_Some, Hold.
  - exists (fresh_session now chatSession), stored.
    split; [exact Hsave|].
    split; [|split; [|split; [apply lastUpdated_set|
                              split; [apply saved_session_dated, Hnow|exact Hsorted]]]].
    + split; [reflexivity|]. split; [exact Hperm|].
      rewrite Hperm, length_app. simpl. lia.
    + rewrite Hperm. apply elem_of_app. right. apply list_elem_of_singleton. reflexivity.
Qed.

(** One stored session, saved again under a new title. *)
Lemma saveChatSession_upsert_dated_witness :
  exists stored,
    saveChatSession Sample.sample_host "2026-11-02T09:00:00.000Z"
      (JObj [("id", JStr "a"); ("title", JStr "Fridge water filter")])
      {[ CHAT_HISTORY_KEY := Sample.stringify (JArr [Sample.session_a]) ]}
    = (true,
       <[ CHAT_HISTORY_KEY := Sample.stringify (JArr stored) ]>
         {[ CHAT_HISTORY_KEY := Sample.stringify (JArr [Sample.session_a]) ]})
    /\ stored
       = [ JObj [("id", JStr "a"); ("title", JStr "Fridge water filter");
                 ("messages", JArr [Sample.greeting]);
                 ("lastUpdated", JStr "2026-11-02T09:00:00.000Z")] ]
    /\ newest_first Sample.sample_host stored.
Proof.
  destruct (saveChatSession_upsert_dated Sample.sample_host "2026-11-02T09:00:00.000Z"
              (JObj [("id", JStr "a"); ("title", JStr "Fridge water filter")])
              {[ CHAT_HISTORY_KEY := Sample.stringify (JArr [Sample.session_a]) ]}
              [Sample.session_a] 1793610000000%Z)
    as (saved & stored & Hsave & Hcase & _ & _ & _ & Hsorted).
  { apply (SortMore.sortM_standard Sample.sample_host). reflexivity. }
  { vm_compute. reflexivity. }
  { repeat constructor. }
  { reflexivity. }
  { repeat constructor. eexists. vm_compute. reflexivity. }
  { reflexivity. }
  exists stored. split; [exact Hsave|]. split; [|exact Hsorted].
  simpl in Hcase. destruct Hcase as (-> & Hperm & _).
  apply Permutation_singleton_r in Hperm. exact Hperm.
Defined.

End ChatHistoryDated.
